(** * Booking Bot chat client: response decoding, optimistic send, recording

    A shallow embedding of [src/app/page.tsx]: the response decoder
    [parseWebhookText], the send path [handleSend] / [postToWebhook] with its
    optimistic placeholder, and the recording toggle [toggleRecording].

    Conventions.
    - A JavaScript string is a [string] of bytes (its UTF-8 encoding).
    - An exception is a [Throw] in the [completion] monad; [try]/[catch]
      is the [try_catch] combinator.
    - The browser is not code of this repository. The DOM is an interface
      ([Dom]) and numbers are an interface ([Number]); [JSON.parse] and
      [fetch] are parameters of the functions that call them; what [genId],
      [Date.now], [getUserMedia] and the [MediaRecorder] constructor return
      is an input of the step that calls them. [JSON.stringify] is
      [SerializeJSONProperty] of ECMA-262, and [JsonParse] is a reader of
      the JSON grammar to instantiate [JSON.parse] with.
    - An [async] function is split at its [await]: the part before it, and
      the part that runs when the awaited call has settled.
    - A handler reads the render it closed over and writes the state of
      the page; a hook is its state cell with the dependencies of the last
      run of each of its effects, and a render is followed by its effects
      in the order of the source. *)

From Stdlib Require Import String Ascii List Bool Arith NArith ZArith Lia.
From Stdlib Require Import Decimal DecimalString DecimalN DecimalZ.
Import ListNotations.
Open Scope list_scope.
Open Scope string_scope.

Set Implicit Arguments.

(* ===================================================================== *)
(** ** Characters and strings *)
(* ===================================================================== *)

Module JsString.

Definition LF : ascii := ascii_of_nat 10.
Definition DQUOTE : ascii := ascii_of_nat 34.
Definition BACKSLASH : ascii := ascii_of_nat 92.

Definition nl : string := String LF EmptyString.

Definition code (c : ascii) : nat := nat_of_ascii c.

(** ECMAScript WhiteSpace and LineTerminator code points below U+0080:
    TAB, LF, VT, FF, CR and SPACE. *)
Definition is_ascii_space (c : ascii) : bool :=
  let n := code c in
  ((n =? 9) || (n =? 10) || (n =? 11) || (n =? 12) || (n =? 13) || (n =? 32))%nat.

(** The other WhiteSpace / LineTerminator code points are multi-byte in
    UTF-8: U+00A0, U+1680, U+2000..U+200A, U+2028, U+2029, U+202F, U+205F,
    U+3000 and U+FEFF. *)
Definition is_space2 (a b : ascii) : bool :=
  ((code a =? 194) && (code b =? 160))%nat.

Definition is_space3 (a b c : ascii) : bool :=
  let x := code a in
  let y := code b in
  let z := code c in
  (((x =? 225) && (y =? 154) && (z =? 128))
   || ((x =? 226) && (y =? 128)
       && (((128 <=? z) && (z <=? 138)) || (z =? 168) || (z =? 169) || (z =? 175)))
   || ((x =? 226) && (y =? 129) && (z =? 159))
   || ((x =? 227) && (y =? 128) && (z =? 128))
   || ((x =? 239) && (y =? 187) && (z =? 191)))%nat.

(** [String.prototype.trimStart]. *)
Fixpoint trimStart (s : string) : string :=
  match s with
  | EmptyString => EmptyString
  | String a r1 =>
      if is_ascii_space a then trimStart r1
      else
        match r1 with
        | String b r2 =>
            if is_space2 a b then trimStart r2
            else
              match r2 with
              | String c r3 => if is_space3 a b c then trimStart r3 else s
              | EmptyString => s
              end
        | EmptyString => s
        end
  end.

Fixpoint rev_append (s acc : string) : string :=
  match s with
  | EmptyString => acc
  | String c r => rev_append r (String c acc)
  end.

Definition rev (s : string) : string := rev_append s EmptyString.

(** [trimStart] on the reversed string: the multi-byte white space is
    met last byte first. *)
Fixpoint trimStart_rev (s : string) : string :=
  match s with
  | EmptyString => EmptyString
  | String a r1 =>
      if is_ascii_space a then trimStart_rev r1
      else
        match r1 with
        | String b r2 =>
            if is_space2 b a then trimStart_rev r2
            else
              match r2 with
              | String c r3 => if is_space3 c b a then trimStart_rev r3 else s
              | EmptyString => s
              end
        | EmptyString => s
        end
  end.

(** [String.prototype.trimEnd] and [String.prototype.trim]. *)
Definition trimEnd (s : string) : string := rev (trimStart_rev (rev s)).

Definition trim (s : string) : string := trimEnd (trimStart s).

(** [s.startsWith(p)]. *)
Definition startsWith (s p : string) : bool := String.prefix p s.

(** [s.includes(p)]. *)
Fixpoint includes (s p : string) : bool :=
  String.prefix p s
  || match s with
     | EmptyString => false
     | String _ r => includes r p
     end.

Definition lower_char (c : ascii) : ascii :=
  let n := code c in
  if ((65 <=? n) && (n <=? 90))%nat then ascii_of_nat (n + 32) else c.

(** [String.prototype.toLowerCase] on the ASCII letters. The decoder only
    searches the result for ["<iframe"] and ["srcdoc="]; no code point
    outside ASCII lower-cases to a string that completes either of them. *)
Fixpoint toLowerCase (s : string) : string :=
  match s with
  | EmptyString => EmptyString
  | String c r => String (lower_char c) (toLowerCase r)
  end.

(** JavaScript truthiness of a string: the empty string is falsy. *)
Definition truthy (s : string) : bool :=
  match s with
  | EmptyString => false
  | String _ _ => true
  end.

(** [a || b] on strings. *)
Definition or_else (a b : string) : string := if truthy a then a else b.

End JsString.

(* ===================================================================== *)
(** ** Exceptions *)
(* ===================================================================== *)

Variant js_error : Type :=
| SyntaxError
| TypeError
| DOMException
| Error (message : string).

Inductive completion (A : Type) : Type :=
| Normal (a : A)
| Throw (e : js_error).

Arguments Normal {A} a.
Arguments Throw {A} e.

Definition bind {A B : Type} (m : completion A) (k : A -> completion B) : completion B :=
  match m with
  | Normal a => k a
  | Throw e => Throw e
  end.

(** [try { body } catch { handler }]. *)
Definition try_catch {A : Type} (body : completion A) (handler : js_error -> completion A)
  : completion A :=
  match body with
  | Normal a => Normal a
  | Throw e => handler e
  end.

Notation "x <- m ;; k" := (bind m (fun x => k))
  (at level 61, m at next level, right associativity).


(* ===================================================================== *)
(** ** Numbers *)
(* ===================================================================== *)

(** The Number values a JSON text can denote that are not written back
    as they were read: the two infinities, which [JSON.parse] returns for
    a number token beyond the range of the doubles and [JSON.stringify]
    writes as [null], and the negative zero, which it writes as [0]. *)
Variant special : Type := PosInfinity | NegInfinity | NegZero.

(** The other Number values a JSON text denotes, with the platform
    operations the client uses on them: [Number::toString] (behind
    [String(x)] and [JSON.stringify]) and the reading of a JSON number
    token (behind [JSON.parse]), which returns the value and the rest of
    the text: [parse_number] when the token denotes one of these numbers,
    [parse_special] when it denotes an infinity or the negative zero.
    [Number_zero] is the number [0]. *)
Class Number (num : Type) : Type := {
  Number_toString : num -> string;
  parse_number : string -> option (num * string);
  parse_special : string -> option (special * string);
  Number_zero : num
}.

(* ===================================================================== *)
(** ** JSON values, property access and [JSON.stringify] *)
(* ===================================================================== *)

Module Json.
Import JsString.

Section Values.
Context {num : Type} {NumOps : Number num}.

Unset Elimination Schemes.

(** What [JSON.parse] returns. A number is a [JNum], or a [JSpecial] when
    it is an infinity or the negative zero. An object keeps its own
    properties in creation order. *)
Inductive json : Type :=
| JNull
| JBool (b : bool)
| JNum (n : num)
| JStr (s : string)
| JArr (items : list json)
| JObj (fields : list (string * json))
| JSpecial (x : special).

Set Elimination Schemes.

(** The values of JavaScript expressions that may also be [undefined]. *)
Definition js_value : Type := option json.

Definition undefined : js_value := None.

Fixpoint assoc (key : string) (fields : list (string * json)) : js_value :=
  match fields with
  | [] => undefined
  | (k, v) :: rest => if String.eqb k key then Some v else assoc key rest
  end.

(** [v.key] for the property names the decoder reads: [reply], [data],
    [choices], [message] and [content]. None of them is an array index,
    [length], or a member of [Object.prototype] or [Array.prototype], so
    on an array the read is [undefined] and on an object it is the own
    property. *)
Definition get (v : json) (key : string) : js_value :=
  match v with
  | JObj fields => assoc key fields
  | _ => undefined
  end.

(** [function isRecord(v)]: [typeof v === "object" && v !== null]. Arrays
    are records; [null] and [undefined] are not. *)
Definition isRecord (v : js_value) : bool :=
  match v with
  | Some (JObj _) | Some (JArr _) => true
  | _ => false
  end.

(** [typeof v === "string"], with the string it then is. *)
Definition typeof_string (v : js_value) : option string :=
  match v with
  | Some (JStr s) => Some s
  | _ => None
  end.

(** [Array.isArray(v)], with the elements. *)
Definition isArray (v : js_value) : option (list json) :=
  match v with
  | Some (JArr items) => Some items
  | _ => None
  end.

Fixpoint join (sep : string) (parts : list string) : string :=
  match parts with
  | [] => ""
  | [p] => p
  | p :: rest => p ++ sep ++ join sep rest
  end.

(** [String(v)]. The decoder applies it to [null], booleans and numbers
    only; an array is its elements joined by commas, with [null] as the
    empty string, and an object is ["[object Object]"]. *)
Fixpoint String_of (v : json) : string :=
  match v with
  | JNull => "null"
  | JBool true => "true"
  | JBool false => "false"
  | JNum n => Number_toString n
  | JStr s => s
  | JArr items =>
      join ","
        (map (fun x => match x with JNull => "" | _ => String_of x end) items)
  | JObj _ => "[object Object]"
  | JSpecial PosInfinity => "Infinity"
  | JSpecial NegInfinity => "-Infinity"
  | JSpecial NegZero => "0"
  end.

Definition hex_digit (n : nat) : ascii :=
  ascii_of_nat (if n <? 10 then 48 + n else 87 + n)%nat.

(** One code unit of [QuoteJSONString]. *)
Definition quote_char (c : ascii) : string :=
  let n := code c in
  if (n =? 8)%nat then "\b"
  else if (n =? 9)%nat then "\t"
  else if (n =? 10)%nat then "\n"
  else if (n =? 12)%nat then "\f"
  else if (n =? 13)%nat then "\r"
  else if (n =? 34)%nat then String BACKSLASH (String DQUOTE "")
  else if (n =? 92)%nat then String BACKSLASH (String BACKSLASH "")
  else if (n <? 32)%nat then
    "\u00" ++ String (hex_digit (n / 16)) (String (hex_digit (n mod 16)) "")
  else String c "".

(** The three bytes of a surrogate code unit: [ED], then [A0..AF] for a
    high surrogate or [B0..BF] for a low one, then [80..BF]. *)
Definition is_high_bytes (a b c : ascii) : bool :=
  ((code a =? 237) && (160 <=? code b) && (code b <=? 175)
   && (128 <=? code c) && (code c <=? 191))%nat.

Definition is_low_bytes (a b c : ascii) : bool :=
  ((code a =? 237) && (176 <=? code b) && (code b <=? 191)
   && (128 <=? code c) && (code c <=? 191))%nat.

(** [UnicodeEscape] of the surrogate whose second and third bytes are [b]
    and [c]: its first hexadecimal digit is [d]. *)
Definition surrogate_escape (b c : ascii) : string :=
  "\ud"
  ++ String (hex_digit ((code b - 128) / 4))
       (String (hex_digit ((code b mod 4) * 4 + (code c - 128) / 16))
          (String (hex_digit (code c mod 16)) "")).

(** The code points of [QuoteJSONString], one after the other: a
    surrogate that is not part of a pair is escaped, a high surrogate
    followed by a low one is a code point and written as it is. *)
Fixpoint quote_body (s : string) : string :=
  match s with
  | EmptyString => EmptyString
  | String a r =>
      match r with
      | String b (String c r3) =>
          if is_high_bytes a b c then
            match r3 with
            | String d (String e (String f r6)) =>
                if is_low_bytes d e f then
                  String a (String b (String c (String d (String e (String f
                    (quote_body r6))))))
                else surrogate_escape b c ++ quote_body r3
            | _ => surrogate_escape b c ++ quote_body r3
            end
          else if is_low_bytes a b c then surrogate_escape b c ++ quote_body r3
          else quote_char a ++ quote_body r
      | _ => quote_char a ++ quote_body r
      end
  end.

Definition QuoteJSONString (s : string) : string :=
  String DQUOTE (quote_body s ++ String DQUOTE "").

(** The common end of [SerializeJSONObject] and [SerializeJSONArray]:
    [stepback] is the indentation outside, [indent] the one inside. *)
Definition wrap (opening closing gap stepback indent : string) (partial : list string)
  : string :=
  match partial with
  | [] => opening ++ closing
  | _ =>
      if truthy gap then
        opening ++ nl ++ indent ++ join ("," ++ nl ++ indent) partial
        ++ nl ++ stepback ++ closing
      else opening ++ join "," partial ++ closing
  end.

(** [SerializeJSONProperty] of ECMA-262 on a value [JSON.parse] can
    return (no [toJSON], no [undefined], no function, no cycle). A number
    that is not finite is written as [null]. *)
Fixpoint SerializeJSONProperty (gap indent : string) (v : json) : string :=
  match v with
  | JNull => "null"
  | JBool true => "true"
  | JBool false => "false"
  | JNum n => Number_toString n
  | JStr s => QuoteJSONString s
  | JArr items =>
      wrap "[" "]" gap indent (indent ++ gap)
        (map (SerializeJSONProperty gap (indent ++ gap)) items)
  | JObj fields =>
      wrap "{" "}" gap indent (indent ++ gap)
        (map (fun kv =>
                match kv with
                | (k, x) =>
                    QuoteJSONString k ++ ":" ++ (if truthy gap then " " else "")
                    ++ SerializeJSONProperty gap (indent ++ gap) x
                end) fields)
  | JSpecial NegZero => "0"
  | JSpecial _ => "null"
  end.

(** The white space [wrap] puts before an element and before the closing
    bracket: a line break and the indentation, or nothing. *)
Definition inner (gap indent : string) : string :=
  if truthy gap then nl ++ indent else "".

(** One member of an object as [SerializeJSONObject] writes it. *)
Definition member_text (gap indent : string) (kv : string * json) : string :=
  match kv with
  | (k, x) =>
      QuoteJSONString k ++ ":" ++ (if truthy gap then " " else "")
      ++ SerializeJSONProperty gap indent x
  end.

Fixpoint spaces (n : nat) : string :=
  match n with
  | O => ""
  | S k => String " " (spaces k)
  end.

(** [JSON.stringify(v, null, space)] for a number [space] (at most 10)
    and [JSON.stringify(v)]. *)
Definition JSON_stringify_indented (v : json) (space : nat) : string :=
  SerializeJSONProperty (spaces (Nat.min space 10)) "" v.

Definition JSON_stringify (v : json) : string :=
  SerializeJSONProperty "" "" v.

(** The value a serialization denotes: the value itself, with [null] for
    each infinity and [0] for each negative zero. *)
Fixpoint reread (v : json) : json :=
  match v with
  | JArr items => JArr (map reread items)
  | JObj fields => JObj (map (fun kv => match kv with (k, x) => (k, reread x) end) fields)
  | JSpecial NegZero => JNum Number_zero
  | JSpecial _ => JNull
  | _ => v
  end.

(** No number of the value is an infinity or the negative zero. *)
Fixpoint exact (v : json) : bool :=
  match v with
  | JArr items => forallb exact items
  | JObj fields => forallb (fun kv => match kv with (_, x) => exact x end) fields
  | JSpecial _ => false
  | _ => true
  end.

End Values.

Arguments json num : clear implicits.
Arguments js_value num : clear implicits.

Section NestedInduction.
Context {num : Type}.
Variable P : json num -> Prop.
Hypothesis Hnull : P JNull.
Hypothesis Hbool : forall b, P (JBool b).
Hypothesis Hnum : forall n, P (JNum n).
Hypothesis Hstr : forall s, P (JStr s).
Hypothesis Harr : forall items, Forall P items -> P (JArr items).
Hypothesis Hobj : forall fields, Forall (fun kv => P (snd kv)) fields -> P (JObj fields).
Hypothesis Hspecial : forall x, P (JSpecial x).

(** Induction on a JSON value, with the property for the elements of an
    array and for the values of an object. *)
Fixpoint json_nested_ind (v : json num) : P v :=
  match v with
  | JNull => Hnull
  | JBool b => Hbool b
  | JNum n => Hnum n
  | JStr s => Hstr s
  | JArr items =>
      Harr
        ((fix all (l : list (json num)) : Forall P l :=
            match l with
            | [] => Forall_nil P
            | x :: r => Forall_cons x (json_nested_ind x) (all r)
            end) items)
  | JObj fields =>
      Hobj
        ((fix all (l : list (string * json num)) : Forall (fun kv => P (snd kv)) l :=
            match l with
            | [] => Forall_nil _
            | (k, x) :: r =>
                Forall_cons (P := fun kv => P (snd kv)) (k, x) (json_nested_ind x) (all r)
            end) fields)
  | JSpecial x => Hspecial x
  end.

End NestedInduction.

End Json.

(* ===================================================================== *)
(** ** [JSON.parse] *)
(* ===================================================================== *)

(** The JSON grammar of ECMA-404 as [JSON.parse] reads it, by recursive
    descent. The recursion is on a bound of the nesting and length that
    is left; [JSON_parse] starts it with enough for the whole text. *)
Module JsonParse.
Import JsString Json.

(** The result of reading a prefix of the text: the value and the rest,
    a syntax error, or no budget left. *)
Variant outcome (A : Type) : Type :=
| Parsed (a : A) (rest : string)
| Bad
| Starved.

Arguments Parsed {A} a rest.
Arguments Bad {A}.
Arguments Starved {A}.

(** JSON white space: TAB, LF, CR and SPACE. *)
Definition is_json_space (c : ascii) : bool :=
  let n := code c in
  ((n =? 9) || (n =? 10) || (n =? 13) || (n =? 32))%nat.

Fixpoint skip_ws (s : string) : string :=
  match s with
  | String c r => if is_json_space c then skip_ws r else s
  | EmptyString => EmptyString
  end.

(** The rest of [s] after the literal [lit], when [s] starts with it. *)
Fixpoint after (lit s : string) : option string :=
  match lit, s with
  | EmptyString, _ => Some s
  | String a lit', String b s' => if Ascii.eqb a b then after lit' s' else None
  | String _ _, EmptyString => None
  end.

Definition is_digit (c : ascii) : bool :=
  let n := code c in ((48 <=? n) && (n <=? 57))%nat.

Definition hex_value (c : ascii) : option N :=
  let n := N_of_ascii c in
  (if (48 <=? n) && (n <=? 57) then Some (n - 48)
   else if (97 <=? n) && (n <=? 102) then Some (n - 87)
   else if (65 <=? n) && (n <=? 70) then Some (n - 55)
   else None)%N.

(** The code unit of the four hexadecimal digits of a [\u] escape. *)
Definition hex4 (a b c d : ascii) : option N :=
  match hex_value a, hex_value b, hex_value c, hex_value d with
  | Some x, Some y, Some z, Some w => Some (((x * 16 + y) * 16 + z) * 16 + w)%N
  | _, _, _, _ => None
  end.

Definition byte (n : N) : string := String (ascii_of_N n) EmptyString.

(** The bytes of a code point: one to four of them. A lone surrogate
    takes the three-byte form. *)
Definition utf8 (n : N) : string :=
  (if n <? 128 then byte n
   else if n <? 2048 then byte (192 + n / 64) ++ byte (128 + n mod 64)
   else if n <? 65536 then
     byte (224 + n / 4096) ++ byte (128 + (n / 64) mod 64) ++ byte (128 + n mod 64)
   else
     byte (240 + n / 262144) ++ byte (128 + (n / 4096) mod 64)
     ++ byte (128 + (n / 64) mod 64) ++ byte (128 + n mod 64))%N.

Definition is_high_surrogate (n : N) : bool := ((55296 <=? n) && (n <=? 56319))%N.
Definition is_low_surrogate (n : N) : bool := ((56320 <=? n) && (n <=? 57343))%N.

Definition push (prefix : string) (o : option (string * string))
  : option (string * string) :=
  match o with
  | Some (s, rest) => Some (prefix ++ s, rest)
  | None => None
  end.

(** The characters of a JSON string after its opening quote, up to and
    with the closing quote, and the rest of the text; [None] is a syntax
    error. *)
Fixpoint parse_chars (s : string) : option (string * string) :=
  match s with
  | EmptyString => None
  | String c r =>
      if Ascii.eqb c DQUOTE then Some (EmptyString, r)
      else if Ascii.eqb c BACKSLASH then
        match r with
        | String e r1 =>
            if Ascii.eqb e DQUOTE then push (byte 34) (parse_chars r1)
            else if Ascii.eqb e BACKSLASH then push (byte 92) (parse_chars r1)
            else if Ascii.eqb e "/" then push "/" (parse_chars r1)
            else if Ascii.eqb e "b" then push (byte 8) (parse_chars r1)
            else if Ascii.eqb e "f" then push (byte 12) (parse_chars r1)
            else if Ascii.eqb e "n" then push (byte 10) (parse_chars r1)
            else if Ascii.eqb e "r" then push (byte 13) (parse_chars r1)
            else if Ascii.eqb e "t" then push (byte 9) (parse_chars r1)
            else if Ascii.eqb e "u" then
              match r1 with
              | String h1 (String h2 (String h3 (String h4 r5))) =>
                  match hex4 h1 h2 h3 h4 with
                  | Some hi =>
                      if is_high_surrogate hi then
                        match r5 with
                        | String b1 (String b2
                            (String l1 (String l2 (String l3 (String l4 r11))))) =>
                            match
                              (if Ascii.eqb b1 BACKSLASH && Ascii.eqb b2 "u"
                               then hex4 l1 l2 l3 l4 else None)
                            with
                            | Some lo =>
                                if is_low_surrogate lo then
                                  push
                                    (utf8 (65536 + (hi - 55296) * 1024 + (lo - 56320))%N)
                                    (parse_chars r11)
                                else push (utf8 hi) (parse_chars r5)
                            | None => push (utf8 hi) (parse_chars r5)
                            end
                        | _ => push (utf8 hi) (parse_chars r5)
                        end
                      else push (utf8 hi) (parse_chars r5)
                  | None => None
                  end
              | _ => None
              end
            else None
        | EmptyString => None
        end
      else if (code c <? 32)%nat then None
      else push (String c EmptyString) (parse_chars r)
  end.

(** The text goes on with the escape of a low surrogate: the test of
    [parse_chars] behind the escape of a high one. *)
Definition low_escape (s : string) : bool :=
  match s with
  | String b1 (String b2 (String l1 (String l2 (String l3 (String l4 _))))) =>
      match
        (if Ascii.eqb b1 BACKSLASH && Ascii.eqb b2 "u" then hex4 l1 l2 l3 l4 else None)
      with
      | Some lo => is_low_surrogate lo
      | None => false
      end
  | _ => false
  end.

Section Reader.
Context {num : Type} {NumOps : Number num}.

(** The first character of a JSON number token. *)
Definition number_start (c : ascii) : bool := Ascii.eqb c "-" || is_digit c.

(** A character that continues a number token. *)
Definition number_char (c : ascii) : bool :=
  is_digit c || Ascii.eqb c "." || Ascii.eqb c "e" || Ascii.eqb c "E"
  || Ascii.eqb c "+" || Ascii.eqb c "-".

(** An array index as a property key: the canonical decimal numeral of an
    integer below 2^32 - 1. *)
Definition array_index (k : string) : option N :=
  match NilEmpty.uint_of_string k with
  | Some u =>
      let n := N.of_uint u in
      if String.eqb (NilZero.string_of_uint (N.to_uint n)) k && (n <? 4294967295)%N
      then Some n else None
  | None => None
  end.

Fixpoint has_key (k : string) (fields : list (string * json num)) : bool :=
  match fields with
  | [] => false
  | (k', _) :: rest => String.eqb k' k || has_key k rest
  end.

Fixpoint overwrite (k : string) (v : json num) (fields : list (string * json num))
  : list (string * json num) :=
  match fields with
  | [] => []
  | (k', v') :: rest =>
      if String.eqb k' k then (k', v) :: rest else (k', v') :: overwrite k v rest
  end.

Fixpoint insert_index (n : N) (k : string) (v : json num)
  (fields : list (string * json num)) : list (string * json num) :=
  match fields with
  | [] => [(k, v)]
  | (k', v') :: rest =>
      match array_index k' with
      | Some n' =>
          if (n' <? n)%N then (k', v') :: insert_index n k v rest
          else (k, v) :: fields
      | None => (k, v) :: fields
      end
  end.

(** [CreateDataProperty] on the own properties of an ordinary object: a
    key that exists keeps its place and takes the new value; a new array
    index goes among the indices, in ascending order, before every other
    key; any other new key goes last. *)
Definition CreateDataProperty (fields : list (string * json num)) (k : string)
  (v : json num) : list (string * json num) :=
  if has_key k fields then overwrite k v fields
  else
    match array_index k with
    | Some n => insert_index n k v fields
    | None => (fields ++ [(k, v)])%list
    end.

Fixpoint parse_value (fuel : nat) (s : string) : outcome (json num) :=
  match fuel with
  | O => Starved
  | S fuel' =>
      match skip_ws s with
      | EmptyString => Bad
      | String c r =>
          if Ascii.eqb c "{" then
            match skip_ws r with
            | String c' r' =>
                if Ascii.eqb c' "}" then Parsed (JObj []) r'
                else parse_members fuel' r []
            | EmptyString => Bad
            end
          else if Ascii.eqb c "[" then
            match skip_ws r with
            | String c' r' =>
                if Ascii.eqb c' "]" then Parsed (JArr []) r'
                else parse_elements fuel' r []
            | EmptyString => Bad
            end
          else if Ascii.eqb c DQUOTE then
            match parse_chars r with
            | Some (str, rest) => Parsed (JStr str) rest
            | None => Bad
            end
          else if Ascii.eqb c "t" then
            match after "rue" r with
            | Some rest => Parsed (JBool true) rest
            | None => Bad
            end
          else if Ascii.eqb c "f" then
            match after "alse" r with
            | Some rest => Parsed (JBool false) rest
            | None => Bad
            end
          else if Ascii.eqb c "n" then
            match after "ull" r with
            | Some rest => Parsed JNull rest
            | None => Bad
            end
          else if number_start c then
            match parse_number (String c r) with
            | Some (n, rest) => Parsed (JNum n) rest
            | None =>
                match parse_special (String c r) with
                | Some (x, rest) => Parsed (JSpecial x) rest
                | None => Bad
                end
            end
          else Bad
      end
  end

(** The elements of an array after its opening bracket (or after a
    comma), up to and with the closing bracket; [acc] holds the elements
    read so far, last first. *)
with parse_elements (fuel : nat) (s : string) (acc : list (json num))
  : outcome (json num) :=
  match fuel with
  | O => Starved
  | S fuel' =>
      match parse_value fuel' s with
      | Parsed v rest =>
          match skip_ws rest with
          | String c r =>
              if Ascii.eqb c "," then parse_elements fuel' r (v :: acc)
              else if Ascii.eqb c "]" then Parsed (JArr (List.rev (v :: acc))) r
              else Bad
          | EmptyString => Bad
          end
      | Bad => Bad
      | Starved => Starved
      end
  end

(** The members of an object after its opening brace (or after a comma),
    up to and with the closing brace; [acc] holds the properties created
    so far. *)
with parse_members (fuel : nat) (s : string) (acc : list (string * json num))
  : outcome (json num) :=
  match fuel with
  | O => Starved
  | S fuel' =>
      match skip_ws s with
      | String q r =>
          if Ascii.eqb q DQUOTE then
            match parse_chars r with
            | Some (k, rest) =>
                match skip_ws rest with
                | String colon r' =>
                    if Ascii.eqb colon ":" then
                      match parse_value fuel' r' with
                      | Parsed v rest' =>
                          let acc' := CreateDataProperty acc k v in
                          match skip_ws rest' with
                          | String c r'' =>
                              if Ascii.eqb c "," then parse_members fuel' r'' acc'
                              else if Ascii.eqb c "}" then Parsed (JObj acc') r''
                              else Bad
                          | EmptyString => Bad
                          end
                      | Bad => Bad
                      | Starved => Starved
                      end
                    else Bad
                | EmptyString => Bad
                end
            | None => Bad
            end
          else Bad
      | EmptyString => Bad
      end
  end.

(** [JSON.parse(text)]: one value, white space around it, nothing else;
    a [SyntaxError] otherwise. The budget is enough for any text, so the
    last case does not occur. *)
Definition JSON_parse (text : string) : completion (json num) :=
  match parse_value (2 * String.length text + 2) text with
  | Parsed v rest =>
      match skip_ws rest with
      | EmptyString => Normal v
      | String _ _ => Throw SyntaxError
      end
  | Bad => Throw SyntaxError
  | Starved => Throw SyntaxError
  end.

(** The text after a number token: it is over, or goes on with a
    character that no number token contains. *)
Definition delimited (rest : string) : bool :=
  match rest with
  | EmptyString => true
  | String c _ => negb (number_char c)
  end.

(** [k] comes before [k'] among the own keys of an object, and differs
    from it: array indices in ascending order, then the other keys. *)
Definition key_before (k k' : string) : bool :=
  match array_index k, array_index k' with
  | Some n, Some n' => (n <? n')%N
  | Some _, None => true
  | None, Some _ => false
  | None, None => negb (String.eqb k k')
  end.

Fixpoint ordered_keys (keys : list string) : bool :=
  match keys with
  | [] => true
  | k :: rest => forallb (key_before k) rest && ordered_keys rest
  end.

(** The values of the model that are JavaScript values: every object has
    its keys once, in the order of own properties. *)
Fixpoint wf_json (v : json num) : bool :=
  match v with
  | JArr items => forallb wf_json items
  | JObj fields =>
      ordered_keys (map fst fields)
      && forallb (fun kv => match kv with (_, x) => wf_json x end) fields
  | _ => true
  end.

(** The values that are written back as they were read: the JavaScript
    values without an infinity or a negative zero. *)
Fixpoint readable (v : json num) : bool :=
  match v with
  | JArr items => forallb readable items
  | JObj fields =>
      ordered_keys (map fst fields)
      && forallb (fun kv => match kv with (_, x) => readable x end) fields
  | JSpecial _ => false
  | _ => true
  end.

(** What reading a value costs the recursion of [parse_value]. *)
Fixpoint weight (v : json num) : nat :=
  match v with
  | JArr items => S (list_sum (map (fun x => S (weight x)) items))
  | JObj fields =>
      S (list_sum (map (fun kv => match kv with (_, x) => S (weight x) end) fields))
  | _ => 1
  end.

Fixpoint spaces_only (s : string) : bool :=
  match s with
  | EmptyString => true
  | String c r => is_json_space c && spaces_only r
  end.

(** The claim of the round trip for one value: it is read back from its
    serialization behind any white space, whatever comes after, with the
    budget its size asks for. *)
Definition reads_back (v : json num) : Prop :=
  forall (gap indent pre : string) (fuel : nat) (rest : string),
    spaces_only gap = true ->
    spaces_only indent = true ->
    spaces_only pre = true ->
    weight v <= fuel ->
    readable v = true ->
    delimited rest = true ->
    parse_value fuel (pre ++ SerializeJSONProperty gap indent v ++ rest) = Parsed v rest.

End Reader.

(** What [JSON.parse] and [Number::toString] owe each other on the
    numbers other than the infinities and the negative zero: the numeral
    of a number starts like a number token, and reads back as the number
    when the text does not go on with more of a token; the numeral of
    [Number_zero] is [0]; and what is left after a token is part of the
    text. *)
Class NumberLaws (num : Type) {NumOps : Number num} : Prop := {
  toString_start :
    forall n : num, exists c s, Number_toString n = String c s /\ number_start c = true;
  parse_toString :
    forall (n : num) (rest : string),
      delimited rest = true ->
      parse_number (Number_toString n ++ rest) = Some (n, rest);
  toString_zero : Number_toString Number_zero = "0";
  parse_number_rest :
    forall (s : string) (n : num) (rest : string),
      parse_number s = Some (n, rest) -> String.length rest <= String.length s;
  parse_special_rest :
    forall (s : string) (x : special) (rest : string),
      parse_special s = Some (x, rest) -> String.length rest <= String.length s
}.

Arguments NumberLaws num {NumOps}.

End JsonParse.

(* ===================================================================== *)
(** ** The DOM the decoder uses *)
(* ===================================================================== *)

(** [new DOMParser().parseFromString(s, "text/html")], [querySelector],
    [getAttribute] and [doc.body.textContent]. Each may throw: the decoder
    calls them inside a [try]. [None] is JavaScript's [null]. *)
Class Dom (document element : Type) : Type := {
  parseFromString : string -> completion document;
  querySelector : document -> string -> completion (option element);
  getAttribute : element -> string -> completion (option string);
  body_textContent : document -> completion (option string)
}.

(** [a ?? b] on a nullable string. *)
Definition nullish_or (a : option string) (b : string) : string :=
  match a with
  | Some s => s
  | None => b
  end.

(* ===================================================================== *)
(** ** ResponseDecoder: [parseWebhookText] *)
(* ===================================================================== *)

Module Decoder.
Import JsString Json.

Section Decode.
Context {num : Type} {NumOps : Number num}.
Context {document element : Type} {DomOps : Dom document element}.

(** [JSON.parse]: the value, or the [SyntaxError] it throws. *)
Variable JSON_parse : string -> completion (json num).

(** [v.key] on a value that passed [isRecord]. *)
Definition member (v : js_value num) (key : string) : js_value num :=
  match v with
  | Some x => get x key
  | None => undefined
  end.

(** The regular expression test on [trimmed]: its first character is an
    opening bracket, an opening brace or a double quote. *)
Definition starts_like_json (trimmed : string) : bool :=
  match trimmed with
  | String c _ => Ascii.eqb c "[" || Ascii.eqb c "{" || Ascii.eqb c DQUOTE
  | EmptyString => false
  end.

(** [(contentType && contentType.includes("application/json")) || regex],
    as the condition of the [if]. *)
Definition looksJson (contentType : option string) (trimmed : string) : bool :=
  match contentType with
  | Some ct => truthy ct && includes ct "application/json"
  | None => false
  end
  || starts_like_json trimmed.

(** The chat-completion shape: [choices[0].message.content] when every
    step of the path has the expected type. *)
Definition choices_content (parsed : json num) : option string :=
  let choices := get parsed "choices" in
  match isArray choices with
  | Some items =>
      let first := nth_error items 0 in
      if isRecord first then
        let message := member first "message" in
        if isRecord message then typeof_string (member message "content") else None
      else None
  | None => None
  end.

(** The body of the first [try] after [JSON.parse] has returned [parsed]:
    every path of it ends in a [return]. *)
Definition decode_parsed (parsed : json num) : string :=
  match typeof_string (Some parsed) with
  | Some s => s
  | None =>
      if isRecord (Some parsed) then
        let reply := get parsed "reply" in
        match typeof_string reply with
        | Some r => r
        | None =>
            let data := get parsed "data" in
            match (if isRecord data then typeof_string (member data "reply") else None) with
            | Some r => r
            | None =>
                match choices_content parsed with
                | Some content => content
                | None => nl ++ JSON_stringify_indented parsed 2
                end
            end
        end
      else String_of parsed
  end.

(** A block that either returns from the function ([Some]) or runs to its
    end ([None]). *)
Definition returned : Type := option string.

(** [if (looksJson) { try { ... } catch { } }]. *)
Definition json_block (trimmed : string) : completion returned :=
  try_catch
    (parsed <- JSON_parse trimmed ;;
     Normal (Some (decode_parsed parsed)))
    (fun _ => Normal None).

(** The [iframe] case of the second [try]. *)
Definition iframe_case (trimmed : string) : completion returned :=
  doc <- parseFromString trimmed ;;
  iframe <- querySelector doc "iframe[srcdoc]" ;;
  attr <- match iframe with
          | Some el => getAttribute el "srcdoc"
          | None => Normal None
          end ;;
  let src := nullish_or attr "" in
  if truthy src then
    inner <- parseFromString src ;;
    text <- body_textContent inner ;;
    let plain := nullish_or text "" in
    if truthy (trim plain) then Normal (Some (trim plain)) else Normal (Some "")
  else Normal (Some "").

(** [if (trimmed.startsWith("<")) { try { ... } catch { } }]. *)
Definition html_block (trimmed : string) : completion returned :=
  try_catch
    (let lower := toLowerCase trimmed in
     if includes lower "<iframe" && includes lower "srcdoc=" then
       iframe_case trimmed
     else
       doc <- parseFromString trimmed ;;
       text <- body_textContent doc ;;
       let plain := nullish_or text "" in
       if truthy (trim plain) then Normal (Some (trim plain)) else Normal None)
    (fun _ => Normal None).

(** The rest of the function after the JSON block: the HTML block and
    the final [return t || "(No response body)"]. *)
Definition html_or_plain (t trimmed : string) : completion string :=
  r2 <- (if startsWith trimmed "<" then html_block trimmed else Normal None) ;;
  match r2 with
  | Some s => Normal s
  | None => Normal (or_else t "(No response body)")
  end.

Definition parseWebhookText (text : string) (contentType : option string)
  : completion string :=
  let t := text in
  let trimmed := trim t in
  r1 <- (if looksJson contentType trimmed then json_block trimmed else Normal None) ;;
  match r1 with
  | Some s => Normal s
  | None => html_or_plain t trimmed
  end.

(** The JSON block leaves the text to the HTML and plain-text handling:
    the text does not look like JSON, or [JSON.parse] throws on it. *)
Definition not_json (contentType : option string) (trimmed : string) : Prop :=
  looksJson contentType trimmed = false \/ exists e, JSON_parse trimmed = Throw e.

End Decode.

End Decoder.

(* ===================================================================== *)
(** ** ConversationStore and RequestComposer: [handleSend] *)
(* ===================================================================== *)

Module Chat.
Import JsString Json Decoder.

(** A [File] (or [Blob]): its name, media type and bytes. *)
Record File : Type := {
  file_name : string;
  file_type : string;
  file_bytes : string
}.

(** One entry of a [FormData]: a string or a file part. *)
Variant FormDataEntryValue : Type :=
| FormString (s : string)
| FormFile (f : File).

Definition FormData : Type := list (string * FormDataEntryValue).

(** [formData.append(name, value)]. *)
Definition append (fd : FormData) (name : string) (value : FormDataEntryValue) : FormData :=
  (fd ++ [(name, value)])%list.

(** [formData.get(name)]: the first entry of that name. *)
Fixpoint form_get (fd : FormData) (name : string) : option FormDataEntryValue :=
  match fd with
  | [] => None
  | (k, v) :: rest => if String.eqb k name then Some v else form_get rest name
  end.

Variant Role : Type := user | assistant | system.

(** What [fetch] resolves to, as far as [postToWebhook] reads it: the
    [content-type] header and the outcome of [res.text()]. *)
Record Response : Type := {
  content_type : option string;
  res_text : completion string
}.

(** The content of a placeholder bubble: a horizontal ellipsis, U+2026. *)
Definition PENDING : string := "…".

(** The reply shown when the webhook cannot be used. *)
Definition demo : string :=
  "(Demo) I couldn’t reach your n8n webhook. once it’s running, set the URL in Settings."
  ++ nl ++ nl ++ "Sample response: "
  ++ String DQUOTE
       "I have checked availability for those dates. We have a Deluxe Suite available."
  ++ String DQUOTE "".

Section Send.
Context {num : Type} {NumOps : Number num}.
Context {document element : Type} {DomOps : Dom document element}.
Variable JSON_parse : string -> completion (json num).

(** [fetch(url, { method: "POST", body, mode: "cors" })]: the response, or
    the rejection. *)
Variable fetch : string -> FormData -> completion Response.

Record ChatMessage : Type := {
  id : string;
  role : Role;
  content : string;
  ts : num
}.

(** The state of the [BookingBot] component the send path touches. A
    handler also reads such a record as the render it closed over. *)
Record State : Type := {
  messages : list ChatMessage;
  input : string;
  sending : bool;
  attachedImage : option File;
  recording : bool;
  webhookUrl : string;
  chatId : string
}.

Definition setMessages (f : list ChatMessage -> list ChatMessage) (st : State) : State :=
  {| messages := f (messages st); input := input st; sending := sending st;
     attachedImage := attachedImage st; recording := recording st;
     webhookUrl := webhookUrl st; chatId := chatId st |}.

Definition setInput (v : string) (st : State) : State :=
  {| messages := messages st; input := v; sending := sending st;
     attachedImage := attachedImage st; recording := recording st;
     webhookUrl := webhookUrl st; chatId := chatId st |}.

Definition setSending (v : bool) (st : State) : State :=
  {| messages := messages st; input := input st; sending := v;
     attachedImage := attachedImage st; recording := recording st;
     webhookUrl := webhookUrl st; chatId := chatId st |}.

Definition setAttachedImage (v : option File) (st : State) : State :=
  {| messages := messages st; input := input st; sending := sending st;
     attachedImage := v; recording := recording st;
     webhookUrl := webhookUrl st; chatId := chatId st |}.

Definition setRecording (v : bool) (st : State) : State :=
  {| messages := messages st; input := input st; sending := sending st;
     attachedImage := attachedImage st; recording := v;
     webhookUrl := webhookUrl st; chatId := chatId st |}.

(** [async function postToWebhook(webhookUrl, formData)]. *)
Definition postToWebhook (url : string) (formData : FormData) : completion string :=
  res <- fetch url formData ;;
  let contentType := content_type res in
  text <- res_text res ;;
  parseWebhookText JSON_parse text contentType.

(** What [genId()] and [Date.now()] return during one call of
    [handleSend], in the order of the calls. *)
Record Draws : Type := {
  userId : string;
  userTs : num;
  waitingId : string;
  waitingTs : num;
  metadataTs : num
}.

(** [{ ...m, content }]. *)
Definition with_content (m : ChatMessage) (new_content : string) : ChatMessage :=
  {| id := id m; role := role m; content := new_content; ts := ts m |}.

(** [prev.map((m) => (m.id === waitingId ? { ...m, content } : m))]. *)
Definition resolve (wid : string) (new_content : string) (prev : list ChatMessage)
  : list ChatMessage :=
  map (fun m => if String.eqb (id m) wid then with_content m new_content else m) prev.

(** The [type] field: [audioFile ? "audio" : (currentImage ? "image" : "text")]. *)
Definition msgType (currentImage audioFile : option File) : string :=
  match audioFile with
  | Some _ => "audio"
  | None => match currentImage with
            | Some _ => "image"
            | None => "text"
            end
  end.

(** The [metadata] value: [{ ts: Date.now(), client: "web", chatId }]. *)
Definition metadata (now : num) (chat : string) : json num :=
  JObj [("ts", JNum now); ("client", JStr "web"); ("chatId", JStr chat)].

(** The [try] block up to the call of [postToWebhook]. *)
Definition compose (view : State) (body : string) (currentImage audioFile : option File)
  (now : num) : completion FormData :=
  if negb (truthy (webhookUrl view)) then Throw (Error "Missing webhook URL")
  else
    let formData : FormData := [] in
    let formData := append formData "type" (FormString (msgType currentImage audioFile)) in
    let formData := append formData "text" (FormString body) in
    let formData := append formData "source" (FormString "booking-bot") in
    let formData := append formData "chatId" (FormString (chatId view)) in
    let formData :=
      append formData "metadata"
        (FormString (JSON_stringify (metadata now (chatId view)))) in
    let formData :=
      match currentImage with
      | Some image => append formData "image" (FormFile image)
      | None => formData
      end in
    let formData :=
      match audioFile with
      | Some audio => append formData "audio" (FormFile audio)
      | None => formData
      end in
    Normal formData.

(** The rest of [try { ... } catch { ... } finally { ... }] once the
    awaited [postToWebhook] has settled (or the [try] has thrown before
    the call): the resolve of the placeholder, then [setSending(false)]. *)
Definition settle (wid : string) (outcome : completion string) (st : State)
  : completion State :=
  st' <- try_catch
           (reply <- outcome ;;
            Normal (setMessages (resolve wid (or_else reply "(empty)")) st))
           (fun _ => Normal (setMessages (resolve wid demo) st)) ;;
  Normal (setSending false st').

(** Where a call of [handleSend] stands when it gives control back. *)
Variant progress : Type :=
| Ignored
| Done
| Awaiting (wid : string) (url : string) (formData : FormData).

Definition present {A : Type} (o : option A) : bool :=
  match o with
  | Some _ => true
  | None => false
  end.

(** [const body = (text ?? input).trim()]. *)
Definition draft_body (view : State) (text : option string) : string :=
  trim (match text with Some t => t | None => input view end).

(** [!body && !attachedImage && !audioFile]. *)
Definition nothing_to_send (view : State) (text : option string) (audioFile : option File)
  : bool :=
  negb (truthy (draft_body view text))
  && negb (present (attachedImage view))
  && negb (present audioFile).

(** [const userMsg: ChatMessage = { ... }]. *)
Definition userMsg (body : string) (currentImage audioFile : option File) (d : Draws)
  : ChatMessage :=
  {| id := userId d;
     role := user;
     content := body
                ++ (if present currentImage then " [Image Attached]" else "")
                ++ (if present audioFile then " [Audio Attached]" else "");
     ts := userTs d |}.

(** The object literal of the second [setMessages]: the placeholder. *)
Definition placeholder (d : Draws) : ChatMessage :=
  {| id := waitingId d; role := assistant; content := PENDING; ts := waitingTs d |}.

(** [handleSend(text?, audioFile?)] up to its first suspension: [view] is
    the render the handler closed over, [st] the state its updaters run on. *)
Definition handleSend (view : State) (text : option string) (audioFile : option File)
  (d : Draws) (st : State) : completion (State * progress) :=
  let body := draft_body view text in
  if nothing_to_send view text audioFile then Normal (st, Ignored)
  else
    let st := setInput "" st in
    let currentImage := attachedImage view in
    let st := setAttachedImage None st in
    let st :=
      setMessages (fun prev => (prev ++ [userMsg body currentImage audioFile d])%list) st in
    let wid := waitingId d in
    let st := setMessages (fun prev => (prev ++ [placeholder d])%list) st in
    let st := setSending true st in
    match compose view body currentImage audioFile (metadataTs d) with
    | Normal formData => Normal (st, Awaiting wid (webhookUrl view) formData)
    | Throw e =>
        st' <- settle wid (Throw e) st ;;
        Normal (st', Done)
    end.

(** The continuation of [handleSend] after [await postToWebhook(...)]. *)
Definition handleSend_resume (wid url : string) (formData : FormData) (st : State)
  : completion State :=
  settle wid (postToWebhook url formData) st.

(** The ids of a log, in order. *)
Definition ids (log : list ChatMessage) : list string := map id log.

(** The content a settled call gives its placeholder: the reply, or
    ["(empty)"] for an empty reply, or the demo text after a failure. *)
Definition resolution (outcome : completion string) : string :=
  match outcome with
  | Normal reply => or_else reply "(empty)"
  | Throw _ => demo
  end.

(** A turn is in flight in a log: its user message is there, directly
    followed by its placeholder, and no other message has the id of the
    placeholder. *)
Definition in_flight (d : Draws) (u : ChatMessage) (log : list ChatMessage) : Prop :=
  exists before more,
    log = (before ++ [u; placeholder d] ++ more)%list
    /\ ~ In (waitingId d) (ids before)
    /\ ~ In (waitingId d) (ids more).

(** The log ends with the user message of a turn with the given text,
    followed by an assistant message that holds the demo text. *)
Definition ends_with_fallback (log : list ChatMessage) (body : string) : Prop :=
  exists before u a,
    log = (before ++ [u; a])%list
    /\ role u = user /\ content u = body
    /\ role a = assistant /\ content a = demo.

End Send.

End Chat.

(* ===================================================================== *)
(** ** RecordingController: [toggleRecording] *)
(* ===================================================================== *)

Module Recorder.
Import JsString Json Decoder Chat.

(** [MediaStreamTrack.readyState]. *)
Variant TrackState : Type := live | ended.

(** A [MediaStream]: its tracks. *)
Definition MediaStream : Type := list TrackState.

(** [stream.getTracks().forEach(t => t.stop())]. *)
Definition stop_tracks (stream : MediaStream) : MediaStream :=
  map (fun _ => ended) stream.

Definition all_ended (stream : MediaStream) : bool :=
  forallb (fun t => match t with ended => true | live => false end) stream.

(** [MediaRecorder.state]. *)
Variant RecordingState : Type := inactive | capturing.

(** [l[i] = f(l[i])] on the objects of the platform; nothing is written
    out of range. *)
Fixpoint update {A : Type} (i : nat) (f : A -> A) (l : list A) : list A :=
  match l, i with
  | [], _ => []
  | x :: rest, O => f x :: rest
  | x :: rest, S j => x :: update j f rest
  end.

Section Recording.
Context {num : Type} {NumOps : Number num}.

(** A [MediaRecorder] object with what its two handlers closed over: the
    [stream], the [chunks] array, and the render whose [handleSend] the
    [onstop] handler calls. *)
Record MediaRecorder : Type := {
  state : RecordingState;
  stream : MediaStream;
  chunks : list File;
  closure : State (num := num)
}.

(** The component with its recorders. [mediaRecorder] is the React state
    of that name, a reference into [objects], the recorders the platform
    holds; [sends] are the calls of [handleSend] made by [onstop]. *)
Record Page : Type := {
  app : State (num := num);
  mediaRecorder : option nat;
  objects : list MediaRecorder;
  sends : list progress
}.

(** [new Blob(chunks, { type })]: the chunks' bytes, one after the other. *)
Definition new_Blob (parts : list File) (type : string) : File :=
  {| file_name := EmptyString; file_type := type;
     file_bytes := String.concat EmptyString (map file_bytes parts) |}.

(** [new File([blob], name, { type })]. *)
Definition new_File (blob : File) (name type : string) : File :=
  {| file_name := name; file_type := type; file_bytes := file_bytes blob |}.

(** What the platform returns during a start: [getUserMedia({ audio: true })]
    and then [new MediaRecorder(stream)] with [recorder.start()]. *)
Record StartDraws : Type := {
  getUserMedia : completion MediaStream;
  new_MediaRecorder : completion unit
}.

(** [recorder.ondataavailable = (e) => chunks.push(e.data)]. *)
Definition ondataavailable (data : File) (r : MediaRecorder) : MediaRecorder :=
  {| state := state r; stream := stream r;
     chunks := (chunks r ++ [data])%list; closure := closure r |}.

(** [MediaRecorder.stop()]: the recorder becomes inactive; its
    [dataavailable] and [stop] events follow in a later task. *)
Definition recorder_stop (r : MediaRecorder) : MediaRecorder :=
  {| state := inactive; stream := stream r; chunks := chunks r; closure := closure r |}.

Definition release (r : MediaRecorder) : MediaRecorder :=
  {| state := state r; stream := stop_tracks (stream r);
     chunks := chunks r; closure := closure r |}.

(** The call [handleSend(text, file)] of an [async] function from a
    handler: the caller gets a promise and goes on, whatever happens
    inside. *)
Definition call_handleSend (view : State) (text : string) (file : File) (d : Draws)
  (p : Page) : Page :=
  match handleSend (num := num) view (Some text) (Some file) d (app p) with
  | Normal (st, pr) =>
      {| app := st; mediaRecorder := mediaRecorder p; objects := objects p;
         sends := (sends p ++ [pr])%list |}
  | Throw _ => p
  end.

(** [recorder.onstop] of the recorder at [h]: build the file from the
    chunks, send it, then stop the tracks of the stream. *)
Definition onstop (h : nat) (d : Draws) (p : Page) : Page :=
  match nth_error (objects p) h with
  | Some r =>
      let blob := new_Blob (chunks r) "audio/webm" in
      let file := new_File blob "voice-recording.webm" "audio/webm" in
      let p := call_handleSend (closure r) "" file d p in
      {| app := app p; mediaRecorder := mediaRecorder p;
         objects := update h release (objects p); sends := sends p |}
  | None => p
  end.

(** [toggleRecording], called from the render [view] on the page [p]. *)
Definition toggleRecording (view : Page) (sd : StartDraws) (p : Page) : completion Page :=
  if Chat.recording (app view) then
    let objects' :=
      match mediaRecorder view with
      | Some h => update h recorder_stop (objects p)
      | None => objects p
      end in
    Normal {| app := setRecording false (app p); mediaRecorder := mediaRecorder p;
              objects := objects'; sends := sends p |}
  else
    try_catch
      (stream <- getUserMedia sd ;;
       _ <- new_MediaRecorder sd ;;
       let recorder :=
         {| state := capturing; stream := stream; chunks := []; closure := app view |} in
       Normal {| app := setRecording true (app p);
                 mediaRecorder := Some (length (objects p));
                 objects := (objects p ++ [recorder])%list;
                 sends := sends p |})
      (fun _ => Normal p).

(** The task the platform runs after [stop()] on the recorder at [h]: a
    [dataavailable] event with the data gathered so far, then the [stop]
    event. *)
Definition stop_task (h : nat) (gathered : string) (d : Draws) (p : Page) : Page :=
  let data := {| file_name := EmptyString; file_type := "audio/webm";
                 file_bytes := gathered |} in
  let p := {| app := app p; mediaRecorder := mediaRecorder p;
              objects := update h (ondataavailable data) (objects p);
              sends := sends p |} in
  onstop h d p.

End Recording.

End Recorder.

(* ===================================================================== *)
(** ** A platform to run the model on *)
(* ===================================================================== *)

(** Integers as the numbers, read and printed in decimal, with the
    infinities and the negative zero of the doubles, and a reader of HTML
    as the DOM: enough to evaluate the client on examples. An integer
    literal is read as it stands, also where a double would round it; a
    token with a fraction or an exponent is read only when it denotes an
    infinity or the negative zero. *)
Module Platform.
Import JsString Json JsonParse.

Definition digit_of (c : ascii) : option (uint -> uint) :=
  if Ascii.eqb c "0" then Some D0
  else if Ascii.eqb c "1" then Some D1
  else if Ascii.eqb c "2" then Some D2
  else if Ascii.eqb c "3" then Some D3
  else if Ascii.eqb c "4" then Some D4
  else if Ascii.eqb c "5" then Some D5
  else if Ascii.eqb c "6" then Some D6
  else if Ascii.eqb c "7" then Some D7
  else if Ascii.eqb c "8" then Some D8
  else if Ascii.eqb c "9" then Some D9
  else None.

(** The longest run of digits [s] starts with, and what follows it. *)
Fixpoint read_digits (s : string) : uint * string :=
  match s with
  | EmptyString => (Nil, EmptyString)
  | String c r =>
      match digit_of c with
      | Some d => let (u, rest) := read_digits r in (d u, rest)
      | None => (Nil, s)
      end
  end.

(** [Number::toString] of an integer. *)
Definition Z_toString (z : Z) : string := NilZero.string_of_int (Z.to_int z).

(** The minus sign a number token may start with. *)
Definition read_sign (s : string) : bool * string :=
  match s with
  | String c r => if Ascii.eqb c "-" then (true, r) else (false, s)
  | EmptyString => (false, s)
  end.

(** The integer of a sign and digits; [-0] is the negative zero, which is
    none of the integers. *)
Definition integer (negative : bool) (u : uint) (rest : string) : option (Z * string) :=
  let z := Z.of_int (if negative then Neg u else Pos u) in
  if negative && (z =? 0)%Z then None else Some (z, rest).

(** A JSON number token that denotes an integer: an optional minus sign
    and digits without a leading zero. A fraction or an exponent is not
    read here. *)
Definition Z_parse_number (s : string) : option (Z * string) :=
  let (negative, digits) := read_sign s in
  let (u, rest) := read_digits digits in
  match u with
  | Nil => None
  | _ =>
      if uint_beq (unorm u) u then
        match rest with
        | String c _ =>
            if Ascii.eqb c "." || Ascii.eqb c "e" || Ascii.eqb c "E" then None
            else integer negative u rest
        | EmptyString => integer negative u rest
        end
      else None
  end.

(** The fraction of a number token: a point and at least one digit, or
    nothing. *)
Definition read_fraction (s : string) : option (uint * string) :=
  match s with
  | String c r =>
      if Ascii.eqb c "." then
        let (f, rest) := read_digits r in
        match f with
        | Nil => None
        | _ => Some (f, rest)
        end
      else Some (Nil, s)
  | EmptyString => Some (Nil, s)
  end.

(** The exponent of a number token: [e] or [E], an optional sign and at
    least one digit, or nothing. *)
Definition read_exponent (s : string) : option (Z * string) :=
  match s with
  | String c r =>
      if Ascii.eqb c "e" || Ascii.eqb c "E" then
        let (minus, r1) :=
          match r with
          | String d r' =>
              if Ascii.eqb d "-" then (true, r')
              else if Ascii.eqb d "+" then (false, r')
              else (false, r)
          | EmptyString => (false, r)
          end in
        let (e, rest) := read_digits r1 in
        match e with
        | Nil => None
        | _ => Some ((if minus then - Z.of_uint e else Z.of_uint e)%Z, rest)
        end
      else Some (0%Z, s)
  | EmptyString => Some (0%Z, s)
  end.

(** The largest double is [2^1024 - 2^971]; a greater number is rounded
    to it below [2^1024 - 2^970], and to an infinity from there on. *)
Definition OVERFLOW : Z := (2 ^ 1024 - 2 ^ 970)%Z.

(** [m * 10^e] is rounded to an infinity, for a positive [m]. *)
Definition overflows (m e : Z) : bool :=
  if (400 <=? e)%Z then true
  else if (0 <=? e)%Z then (OVERFLOW <=? m * 10 ^ e)%Z
  else (OVERFLOW * 10 ^ (- e) <=? m)%Z.

(** A JSON number token that denotes the negative zero or a number
    beyond the doubles. *)
Definition Z_parse_special (s : string) : option (special * string) :=
  let (negative, s1) := read_sign s in
  let (i, s2) := read_digits s1 in
  match i with
  | Nil => None
  | _ =>
      if uint_beq (unorm i) i then
        match read_fraction s2 with
        | Some (f, s3) =>
            match read_exponent s3 with
            | Some (e, rest) =>
                let m := Z.of_uint (Decimal.app i f) in
                if (m =? 0)%Z then
                  if negative then Some (NegZero, rest) else None
                else if overflows m (e - Z.of_nat (nb_digits f)) then
                  Some (if negative then NegInfinity else PosInfinity, rest)
                else None
            | None => None
            end
        | None => None
        end
      else None
  end.

#[export] Instance ZNumber : Number Z := {
  Number_toString := Z_toString;
  parse_number := Z_parse_number;
  parse_special := Z_parse_special;
  Number_zero := 0%Z
}.

(** *** A reader of HTML *)

(** The tokens of the HTML tokenizer that the decoder can tell apart: a
    character of text, a start tag with its attributes, an end tag. Names
    are in lower case; of two attributes of one name the first counts. *)
Variant node : Type :=
| Text (c : ascii)
| Start (name : string) (attrs : list (string * string))
| Close (name : string).

Definition Document : Type := list node.

(** An element, as far as the decoder looks at it: its attributes. *)
Definition Element : Type := list (string * string).

Fixpoint attribute (attrs : list (string * string)) (name : string) : option string :=
  match attrs with
  | [] => None
  | (k, v) :: rest => if String.eqb k name then Some v else attribute rest name
  end.

Definition add_attribute (attrs : list (string * string)) (name value : string)
  : list (string * string) :=
  match attribute attrs name with
  | Some _ => attrs
  | None => (attrs ++ [(name, value)])%list
  end.

(** HTML white space: TAB, LF, FF, CR and SPACE. *)
Definition is_html_space (c : ascii) : bool :=
  let n := code c in
  ((n =? 9) || (n =? 10) || (n =? 12) || (n =? 13) || (n =? 32))%nat.

Definition is_letter (c : ascii) : bool :=
  let n := code c in
  (((65 <=? n) && (n <=? 90)) || ((97 <=? n) && (n <=? 122)))%nat.

Definition snoc (s : string) (c : ascii) : string := s ++ String c "".

(** The code point of a numeric character reference: U+FFFD for zero, a
    surrogate and what lies beyond Unicode. *)
Definition code_point (n : N) : string :=
  if ((n =? 0) || ((55296 <=? n) && (n <=? 57343)) || (1114111 <? n))%N
  then utf8 65533 else utf8 n.

Fixpoint decimal_number (s : string) (acc : N) : option N :=
  match s with
  | EmptyString => Some acc
  | String c r =>
      if is_digit c then decimal_number r (acc * 10 + (N_of_ascii c - 48))%N else None
  end.

Fixpoint hexadecimal_number (s : string) (acc : N) : option N :=
  match s with
  | EmptyString => Some acc
  | String c r =>
      match hex_value c with
      | Some d => hexadecimal_number r (acc * 16 + d)%N
      | None => None
      end
  end.

(** The text of a character reference, without its ampersand and
    semicolon: the references of the markup characters, the
    no-break space, and the numeric ones. *)
Definition reference (name : string) : option string :=
  if String.eqb name "amp" then Some "&"
  else if String.eqb name "lt" then Some "<"
  else if String.eqb name "gt" then Some ">"
  else if String.eqb name "quot" then Some (String DQUOTE "")
  else if String.eqb name "apos" then Some "'"
  else if String.eqb name "nbsp" then Some (utf8 160)
  else
    match name with
    | String h (String x r) =>
        if Ascii.eqb h "#" then
          if Ascii.eqb x "x" || Ascii.eqb x "X" then
            match r with
            | EmptyString => None
            | _ => option_map code_point (hexadecimal_number r 0)
            end
          else option_map code_point (decimal_number (String x r) 0)
        else None
    | _ => None
    end.

Definition is_reference_char (c : ascii) : bool :=
  is_letter c || is_digit c || Ascii.eqb c "#".

(** The character references of a text or of an attribute value, decoded;
    [pending] is what was read of a reference after its ampersand. A
    reference ends with a semicolon. *)
Fixpoint decode_references (pending : option string) (s : string) : string :=
  match s with
  | EmptyString =>
      match pending with
      | Some name => String "&" name
      | None => EmptyString
      end
  | String c r =>
      match pending with
      | None =>
          if Ascii.eqb c "&" then decode_references (Some EmptyString) r
          else String c (decode_references None r)
      | Some name =>
          if Ascii.eqb c ";" then
            match reference name with
            | Some text => text ++ decode_references None r
            | None => String "&" (name ++ String ";" (decode_references None r))
            end
          else if is_reference_char c then decode_references (Some (snoc name c)) r
          else
            String "&"
              (name
               ++ (if Ascii.eqb c "&" then decode_references (Some EmptyString) r
                   else String c (decode_references None r)))
      end
  end.

(** The states of the tokenizer: in text, after [<], in markup that is
    skipped up to [>] (a comment, a declaration), in the name of a start
    or an end tag, and in the attributes of a start tag. *)
Inductive tokenizer : Type :=
| SData
| STagOpen
| SSkip
| SCloseName (name : string)
| STagName (name : string)
| SAttrs (name : string) (attrs : list (string * string))
| SAttrName (name : string) (attrs : list (string * string)) (attr : string)
| SAfterName (name : string) (attrs : list (string * string)) (attr : string)
| SBeforeValue (name : string) (attrs : list (string * string)) (attr : string)
| SValue (quote : option ascii) (name : string) (attrs : list (string * string))
    (attr value : string).

Definition with_value (attrs : list (string * string)) (attr value : string)
  : list (string * string) :=
  add_attribute attrs attr (decode_references None value).

Fixpoint tokens (st : tokenizer) (s : string) : Document :=
  match s with
  | EmptyString => []
  | String c r =>
      match st with
      | SData =>
          if Ascii.eqb c "<" then tokens STagOpen r else Text c :: tokens SData r
      | STagOpen =>
          if is_letter c then tokens (STagName (String (lower_char c) "")) r
          else if Ascii.eqb c "/" then tokens (SCloseName "") r
          else if Ascii.eqb c "!" || Ascii.eqb c "?" then tokens SSkip r
          else if Ascii.eqb c "<" then Text "<" :: tokens STagOpen r
          else Text "<" :: Text c :: tokens SData r
      | SSkip =>
          if Ascii.eqb c ">" then tokens SData r else tokens SSkip r
      | SCloseName name =>
          if Ascii.eqb c ">" then Close name :: tokens SData r
          else if is_html_space c || Ascii.eqb c "/" then tokens SSkip r
          else tokens (SCloseName (snoc name (lower_char c))) r
      | STagName name =>
          if is_html_space c || Ascii.eqb c "/" then tokens (SAttrs name []) r
          else if Ascii.eqb c ">" then Start name [] :: tokens SData r
          else tokens (STagName (snoc name (lower_char c))) r
      | SAttrs name attrs =>
          if is_html_space c || Ascii.eqb c "/" then tokens (SAttrs name attrs) r
          else if Ascii.eqb c ">" then Start name attrs :: tokens SData r
          else tokens (SAttrName name attrs (String (lower_char c) "")) r
      | SAttrName name attrs attr =>
          if is_html_space c then tokens (SAfterName name attrs attr) r
          else if Ascii.eqb c "/" then tokens (SAttrs name (with_value attrs attr "")) r
          else if Ascii.eqb c ">" then
            Start name (with_value attrs attr "") :: tokens SData r
          else if Ascii.eqb c "=" then tokens (SBeforeValue name attrs attr) r
          else tokens (SAttrName name attrs (snoc attr (lower_char c))) r
      | SAfterName name attrs attr =>
          if is_html_space c then tokens (SAfterName name attrs attr) r
          else if Ascii.eqb c "/" then tokens (SAttrs name (with_value attrs attr "")) r
          else if Ascii.eqb c "=" then tokens (SBeforeValue name attrs attr) r
          else if Ascii.eqb c ">" then
            Start name (with_value attrs attr "") :: tokens SData r
          else
            tokens (SAttrName name (with_value attrs attr "") (String (lower_char c) "")) r
      | SBeforeValue name attrs attr =>
          if is_html_space c then tokens (SBeforeValue name attrs attr) r
          else if Ascii.eqb c DQUOTE then tokens (SValue (Some c) name attrs attr "") r
          else if Ascii.eqb c "'" then tokens (SValue (Some c) name attrs attr "") r
          else if Ascii.eqb c ">" then
            Start name (with_value attrs attr "") :: tokens SData r
          else tokens (SValue None name attrs attr (String c "")) r
      | SValue (Some q) name attrs attr value =>
          if Ascii.eqb c q then tokens (SAttrs name (with_value attrs attr value)) r
          else tokens (SValue (Some q) name attrs attr (snoc value c)) r
      | SValue None name attrs attr value =>
          if is_html_space c then tokens (SAttrs name (with_value attrs attr value)) r
          else if Ascii.eqb c ">" then
            Start name (with_value attrs attr value) :: tokens SData r
          else tokens (SValue None name attrs attr (snoc value c)) r
      end
  end.

(** The characters of the text nodes of the body: what lies in [head] or
    in [title] is no part of it. [hidden] is the element whose end tag is
    awaited. *)
Fixpoint body_text (hidden : option string) (doc : Document) : string :=
  match doc with
  | [] => EmptyString
  | Text c :: rest =>
      match hidden with
      | Some _ => body_text hidden rest
      | None => String c (body_text hidden rest)
      end
  | Start name _ :: rest =>
      match hidden with
      | Some _ => body_text hidden rest
      | None =>
          if String.eqb name "head" || String.eqb name "title"
          then body_text (Some name) rest else body_text None rest
      end
  | Close name :: rest =>
      match hidden with
      | Some awaited =>
          if String.eqb name awaited then body_text None rest else body_text hidden rest
      | None => body_text None rest
      end
  end.

(** The first [iframe] element with a [srcdoc] attribute. *)
Fixpoint first_iframe_srcdoc (doc : Document) : option Element :=
  match doc with
  | [] => None
  | Start name attrs :: rest =>
      match attribute attrs "srcdoc" with
      | Some _ => if String.eqb name "iframe" then Some attrs else first_iframe_srcdoc rest
      | None => first_iframe_srcdoc rest
      end
  | _ :: rest => first_iframe_srcdoc rest
  end.

(** A document is its tokens, an element its attributes. The one
    selector that is read is the decoder's. *)
#[export] Instance FlatDom : Dom Document Element := {
  parseFromString s := Normal (tokens SData s);
  querySelector doc selector :=
    if String.eqb selector "iframe[srcdoc]" then Normal (first_iframe_srcdoc doc)
    else Throw DOMException;
  getAttribute el name := Normal (attribute el name);
  body_textContent doc := Normal (Some (decode_references None (body_text None doc)))
}.

(** A browser without [DOMParser]: every DOM call throws. *)
Definition NoDom : Dom unit unit := {|
  parseFromString := fun _ => Throw TypeError;
  querySelector := fun _ _ => Throw TypeError;
  getAttribute := fun _ _ => Throw TypeError;
  body_textContent := fun _ => Throw TypeError
|}.

End Platform.

(* ===================================================================== *)
(** ** The shapes the specification names *)
(* ===================================================================== *)

(** The three reply shapes of the decoder's priority list, each read off
    an object's own properties as the specification words it. *)
Module Shapes.
Import JsString Json.

Section Shapes.
Context {num : Type}.

(** A top-level [reply] field that is a string. *)
Definition reply_field (fields : list (string * json num)) : option string :=
  match assoc "reply" fields with
  | Some (JStr r) => Some r
  | _ => None
  end.

(** An object field [data] whose [reply] field is a string. *)
Definition data_reply_field (fields : list (string * json num)) : option string :=
  match assoc "data" fields with
  | Some (JObj data) =>
      match assoc "reply" data with
      | Some (JStr r) => Some r
      | _ => None
      end
  | _ => None
  end.

(** An array field [choices] whose first element is an object with an
    object field [message] whose [content] field is a string. *)
Definition chat_completion_field (fields : list (string * json num)) : option string :=
  match assoc "choices" fields with
  | Some (JArr (JObj first :: _)) =>
      match assoc "message" first with
      | Some (JObj message) =>
          match assoc "content" message with
          | Some (JStr c) => Some c
          | _ => None
          end
      | _ => None
      end
  | _ => None
  end.

End Shapes.
End Shapes.

(* ===================================================================== *)
(** ** Sample conversations *)
(* ===================================================================== *)

(** States, draws and responses to evaluate the client on, over the
    platform of integers and flat HTML. *)
Module Samples.
Import JsString Json JsonParse Decoder Chat Recorder Platform.

(** [s] between double quotes. *)
Definition quoted (s : string) : string := String DQUOTE (s ++ String DQUOTE "").

Definition hook : string := "https://example.test/webhook/booking-bot".

Definition greeting : ChatMessage (num := Z) :=
  {| id := "m0"; role := assistant; ts := 1700000000000%Z;
     content := "Hello! I am your Booking Bot assistant." |}.

(** The page once the stored settings are loaded. *)
Definition ready : State (num := Z) :=
  {| messages := [greeting]; input := ""; sending := false; attachedImage := None;
     recording := false; webhookUrl := hook; chatId := "chat-1" |}.

(** The page before the stored settings are loaded, or with the URL
    cleared: no webhook. *)
Definition unconfigured : State (num := Z) :=
  {| messages := [greeting]; input := ""; sending := false; attachedImage := None;
     recording := false; webhookUrl := ""; chatId := "chat-1" |}.

Definition draws1 : Draws (num := Z) :=
  {| userId := "u1"; userTs := 1700000000100%Z;
     waitingId := "w1"; waitingTs := 1700000000101%Z;
     metadataTs := 1700000000102%Z |}.

Definition draws2 : Draws (num := Z) :=
  {| userId := "u2"; userTs := 1700000000200%Z;
     waitingId := "w2"; waitingTs := 1700000000201%Z;
     metadataTs := 1700000000202%Z |}.

(** The draws of a second turn for which [genId] returns the id of the
    first placeholder once more. *)
Definition draws_repeat : Draws (num := Z) :=
  {| userId := "u2"; userTs := 1700000000200%Z;
     waitingId := "w1"; waitingTs := 1700000000201%Z;
     metadataTs := 1700000000202%Z |}.

(** A network that is down: [fetch] rejects. *)
Definition offline (url : string) (body : FormData) : completion Response :=
  Throw TypeError.

(** A webhook that answers every request with the given body. *)
Definition answering (contentType : option string) (body : string)
  (url : string) (form : FormData) : completion Response :=
  Normal {| content_type := contentType; res_text := Normal body |}.

Definition ask1 : string := "Book a room for Tuesday".
Definition ask2 : string := "Do you have a gym?".

(** The payload of the first turn and the page while it is in flight. *)
Definition form1 : FormData :=
  [("type", FormString "text"); ("text", FormString ask1);
   ("source", FormString "booking-bot"); ("chatId", FormString "chat-1");
   ("metadata",
    FormString ("{" ++ quoted "ts" ++ ":1700000000102," ++ quoted "client" ++ ":"
                ++ quoted "web" ++ "," ++ quoted "chatId" ++ ":" ++ quoted "chat-1"
                ++ "}"))].

Definition pending1 : State (num := Z) :=
  {| messages := [greeting; userMsg ask1 None None draws1; placeholder draws1];
     input := ""; sending := true; attachedImage := None;
     recording := false; webhookUrl := hook; chatId := "chat-1" |}.

(** The payload of a second turn sent meanwhile, and the page with both
    turns in flight. *)
Definition form2 : FormData :=
  [("type", FormString "text"); ("text", FormString ask2);
   ("source", FormString "booking-bot"); ("chatId", FormString "chat-1");
   ("metadata",
    FormString ("{" ++ quoted "ts" ++ ":1700000000202," ++ quoted "client" ++ ":"
                ++ quoted "web" ++ "," ++ quoted "chatId" ++ ":" ++ quoted "chat-1"
                ++ "}"))].

Definition pending2 : State (num := Z) :=
  {| messages := [greeting; userMsg ask1 None None draws1; placeholder draws1;
                  userMsg ask2 None None draws2; placeholder draws2];
     input := ""; sending := true; attachedImage := None;
     recording := false; webhookUrl := hook; chatId := "chat-1" |}.

(** A webhook that books for the first question, as JSON, and answers
    any other in plain text. *)
Definition concierge (url : string) (form : FormData) : completion Response :=
  match form_get form "text" with
  | Some (FormString t) =>
      if String.eqb t ask1 then
        Normal {| content_type := Some "application/json";
                  res_text := Normal ("{" ++ quoted "reply" ++ ":"
                                      ++ quoted "Room booked" ++ "}") |}
      else
        Normal {| content_type := Some "text/plain"; res_text := Normal "Yes, on floor 2." |}
  | _ => Throw TypeError
  end.

Definition photo : File :=
  {| file_name := "room.png"; file_type := "image/png"; file_bytes := "PNG" |}.

Definition voice : File :=
  {| file_name := "voice-recording.webm"; file_type := "audio/webm"; file_bytes := "" |}.

(** A placeholder resolved once, and then once more. *)
Definition resolved_once : list (ChatMessage (num := Z)) :=
  resolve "w1" "Room booked" [greeting; placeholder draws1].

Definition resolved_twice : list (ChatMessage (num := Z)) :=
  resolve "w1" "Sorry, no rooms" resolved_once.

(** [{"data":{"reply":"B"},"reply":"A"}]. *)
Definition two_replies : string :=
  "{" ++ quoted "data" ++ ":{" ++ quoted "reply" ++ ":" ++ quoted "B" ++ "},"
  ++ quoted "reply" ++ ":" ++ quoted "A" ++ "}".

(** [{"status":"ok","rooms":[101,102],"7":null}], with blanks around. *)
Definition no_reply : string :=
  "  {" ++ quoted "status" ++ ": " ++ quoted "ok" ++ ", " ++ quoted "rooms"
  ++ ": [101, 102], " ++ quoted "7" ++ ": null}" ++ nl.




(** A wrapper with an empty [srcdoc]. *)
Definition empty_frame : string := "<iframe srcdoc=" ++ quoted "" ++ "></iframe>".


(** [{"a":1e999}]: a number beyond the doubles. *)
Definition overflowing : string := "{" ++ quoted "a" ++ ":1e999}".

(** A page that records, with its recorder and one live track. *)
Definition recording_page : Page (num := Z) :=
  {| app := setRecording true ready;
     mediaRecorder := Some 0;
     objects := [{| state := capturing; stream := [live]; chunks := [];
                    closure := ready |}];
     sends := [] |}.

Definition idle_page : Page (num := Z) :=
  {| app := ready; mediaRecorder := None; objects := []; sends := [] |}.

Definition granted : StartDraws :=
  {| getUserMedia := Normal [live]; new_MediaRecorder := Normal tt |}.

Definition denied : StartDraws :=
  {| getUserMedia := Throw DOMException; new_MediaRecorder := Normal tt |}.

End Samples.

(* ===================================================================== *)
(** ** Stored settings: [useLocalStorage] *)
(* ===================================================================== *)

Module Persist.
Import JsString.

(** [window.localStorage]: the keys with their values. *)
Definition Storage : Type := list (string * string).

(** [localStorage.getItem(key)]: the value, or [null]. *)
Fixpoint getItem (s : Storage) (key : string) : option string :=
  match s with
  | [] => None
  | (k, v) :: rest => if String.eqb k key then Some v else getItem rest key
  end.

(** [localStorage.setItem(key, value)]. *)
Fixpoint setItem (s : Storage) (key value : string) : Storage :=
  match s with
  | [] => [(key, value)]
  | (k, v) :: rest =>
      if String.eqb k key then (k, value) :: rest else (k, v) :: setItem rest key value
  end.

(** One instance of the hook: its [useState] cell and, for each of its
    two effects, the dependencies of its last run ([None] before the
    first commit). *)
Record Hook : Type := {
  value : string;
  read_deps : option (string * string);
  write_deps : option (string * string)
}.

(** [useState<string>("")] at the first render. *)
Definition mounted : Hook :=
  {| value := ""; read_deps := None; write_deps := None |}.

(** [setValue(v)]: the value of the next render. *)
Definition setValue (v : string) (h : Hook) : Hook :=
  {| value := v; read_deps := read_deps h; write_deps := write_deps h |}.

(** React runs an effect after a commit when the commit is the first one
    or one of the two dependencies differs from the last run. *)
Definition deps_changed (last : option (string * string)) (key dep : string) : bool :=
  match last with
  | None => true
  | Some (k, d) => negb (String.eqb k key && String.eqb d dep)
  end.

(** One render of [useLocalStorage(key, initial)] with the effects that
    follow it, in the order of the source. Both effects are closures of
    this render: the second one tests the [value] the render returned,
    and the [setValue] of the first one shows in the next render. *)
Definition useLocalStorage (key initial : string) (h : Hook) (s : Storage)
  : Hook * Storage :=
  let rendered := value h in
  let h1 :=
    if deps_changed (read_deps h) key initial then
      let v := getItem s key in
      setValue (nullish_or v initial) h
    else h in
  let s1 :=
    if deps_changed (write_deps h) key rendered then
      if negb (String.eqb rendered "") then setItem s key rendered else s
    else s in
  ({| value := value h1;
      read_deps := Some (key, initial);
      write_deps := Some (key, rendered) |}, s1).

(** The first [n] renders of a component that calls the hook, the render
    number [i] with [initial i] as the second argument; each render is
    followed by its effects. *)
Fixpoint renders (key : string) (initial : nat -> string) (n : nat) (s : Storage)
  : Hook * Storage :=
  match n with
  | O => (mounted, s)
  | S m =>
      let (h, s') := renders key initial m s in
      useLocalStorage key (initial m) h s'
  end.

(** The hook has run its effects for the value it holds, and the storage
    holds that value unless it is the empty string. *)
Definition settled (key initial : string) (h : Hook) (s : Storage) : Prop :=
  read_deps h = Some (key, initial)
  /\ write_deps h = Some (key, value h)
  /\ (value h <> "" -> getItem s key = Some (value h)).

End Persist.

(* ===================================================================== *)
(** ** Controls: quick replies, attachment, send button, settings *)
(* ===================================================================== *)

Module Controls.
Import JsString Json Chat.

(** [Boolean(c)] on an argument of [classNames]: [None] stands for
    [false], [null] and [undefined]. *)
Definition Boolean (c : option string) : bool :=
  match c with
  | Some s => truthy s
  | None => false
  end.

(** [function classNames(...cls)]: [cls.filter(Boolean).join(" ")]. *)
Definition classNames (cls : list (option string)) : string :=
  join " " (map (fun c => nullish_or c "") (filter Boolean cls)).

Definition DEFAULT_QUICK : list string :=
  [ "Book a room for next Tuesday";
    "Check availability for 2 people";
    "What are your room rates?";
    "Cancel my reservation";
    "Do you have a gym?" ].

(** The second argument of [useLocalStorage("bookingbot:webhook", ...)]
    and the value of the Default button:
    [process.env.NEXT_PUBLIC_WEBHOOK_URL || "https://agents..."]. *)
Definition PRODUCTION_WEBHOOK : string :=
  "https://agents.telikos-engineering.com/webhook-test/f27f2ea6-0199-4b5c-b72a-6db4206b7248".

Definition default_webhook (env : option string) : string :=
  match env with
  | Some url => or_else url PRODUCTION_WEBHOOK
  | None => PRODUCTION_WEBHOOK
  end.

Definition LOCAL_WEBHOOK : string := "http://localhost:5678/webhook/booking-bot".

(** The two [useState] cells of the settings dialog. *)
Record Dialog : Type := {
  settingsOpen : bool;
  draftWebhook : string
}.

(** The Settings button:
    [setDraftWebhook(webhookUrl || "http://localhost..."); setSettingsOpen(true)]. *)
Definition open_settings (webhookUrl : string) (dlg : Dialog) : Dialog :=
  {| settingsOpen := true; draftWebhook := or_else webhookUrl LOCAL_WEBHOOK |}.

(** The input of the dialog: [setDraftWebhook(e.target.value)]. *)
Definition setDraftWebhook (v : string) (dlg : Dialog) : Dialog :=
  {| settingsOpen := settingsOpen dlg; draftWebhook := v |}.

(** The Default button. *)
Definition use_default (env : option string) (dlg : Dialog) : Dialog :=
  setDraftWebhook (default_webhook env) dlg.

(** The Cancel button: [setSettingsOpen(false)]. *)
Definition cancel (dlg : Dialog) : Dialog :=
  {| settingsOpen := false; draftWebhook := draftWebhook dlg |}.

(** The Save button: [setWebhookUrl(draftWebhook.trim()); setSettingsOpen(false)].
    The first component is the argument of [setWebhookUrl]. *)
Definition save (dlg : Dialog) : string * Dialog :=
  (trim (draftWebhook dlg), {| settingsOpen := false; draftWebhook := draftWebhook dlg |}).

Section Controls.
Context {num : Type} {NumOps : Number num}.

(** [const handleQuick = (q) => handleSend(q)]. *)
Definition handleQuick (view : State (num := num)) (q : string) (d : Draws) (st : State)
  : completion (State * progress) :=
  handleSend view (Some q) None d st.

(** The form's [onSubmit] and the Enter key: [handleSend()]. *)
Definition submit (view : State (num := num)) (d : Draws) (st : State)
  : completion (State * progress) :=
  handleSend view None None d st.

(** [handleFileSelect]: [files] is [e.target.files], which may be [null];
    [files?.[0]] is [undefined] for no list and for the empty list. *)
Definition handleFileSelect (files : option (list File)) (st : State (num := num))
  : State :=
  match files with
  | Some (file :: _) => setAttachedImage (Some file) st
  | _ => st
  end.

(** [disabled={!input.trim() && !attachedImage}] of the Send button. *)
Definition send_disabled (view : State (num := num)) : bool :=
  negb (truthy (trim (input view))) && negb (present (attachedImage view)).

(** The render of a page whose webhook hook returned [url]. *)
Definition with_webhook (url : string) (st : State (num := num)) : State :=
  {| messages := messages st; input := input st; sending := sending st;
     attachedImage := attachedImage st; recording := recording st;
     webhookUrl := url; chatId := chatId st |}.

End Controls.

End Controls.

(* ===================================================================== *)
(** ** Sample visits and pages for the controls *)
(* ===================================================================== *)

Module Scenes.
Import JsString Json Chat Recorder Persist Controls Platform Samples.

(** The keys of the two stored settings. *)
Definition WEBHOOK_KEY : string := "bookingbot:webhook".
Definition CHAT_KEY : string := "bookingbot:chatId".

(** Ids that differ from render to render: [id-], [id-i], [id-ii], ... *)
Fixpoint ticks (n : nat) : string :=
  match n with
  | O => ""
  | S k => String "i" (ticks k)
  end.

Definition render_id (n : nat) : string := "id-" ++ ticks n.

(** The storage of a browser that has not seen the page, and of one that
    has. *)
Definition first_visit : Storage := [].

Definition later_visit : Storage := [(WEBHOOK_KEY, hook); (CHAT_KEY, "chat-1")].

(** The webhook hook once it has loaded the stored URL. *)
Definition loaded : Hook :=
  {| value := hook;
     read_deps := Some (WEBHOOK_KEY, PRODUCTION_WEBHOOK);
     write_deps := Some (WEBHOOK_KEY, hook) |}.

(** A page with a draft in the input. *)
Definition typing : State (num := Z) := setInput "  Do you have a pool?  " ready.

(** [[{"reply":"hi"}]]. *)
Definition array_reply : string :=
  "[{" ++ quoted "reply" ++ ":" ++ quoted "hi" ++ "}]".

(** A reply with quotes, a line break and a backslash. *)
Definition tricky_reply : string :=
  "She said " ++ quoted "booked" ++ nl ++ "C:" ++ String BACKSLASH "rooms".

(** Objects that carry the reply next to other fields. *)
Definition with_status (r : string) : list (string * json Z) :=
  [("status", JStr "ok"); ("reply", JStr r)].

Definition with_data (r : string) : list (string * json Z) :=
  [("ok", JBool true); ("data", JObj [("id", JNum 7%Z); ("reply", JStr r)])].

Definition with_choices (r : string) : list (string * json Z) :=
  [("reply", JNull);
   ("choices",
    JArr [JObj [("index", JNum 0%Z);
                ("message", JObj [("role", JStr "assistant"); ("content", JStr r)])]])].

(** An array with a numeral beyond every number, and a negative zero. *)
Definition overflowing_list : string := "[1e999, -0]".

Definition closed_dialog : Dialog := {| settingsOpen := false; draftWebhook := "" |}.

End Scenes.

(* ===================================================================== *)
(** * Properties *)
(* ===================================================================== *)

(** ** Strings *)

Module StringFacts.
Import JsString.

Lemma append_assoc (a b c : string) : (a ++ b) ++ c = a ++ (b ++ c).
Proof. induction a as [ | x a IH]; cbn; [reflexivity | now rewrite IH]. Qed.

Lemma append_nil_r (a : string) : a ++ "" = a.
Proof. induction a as [ | x a IH]; cbn; [reflexivity | now rewrite IH]. Qed.

Lemma length_append (a b : string) :
  String.length (a ++ b) = String.length a + String.length b.
Proof. induction a as [ | x a IH]; cbn; [reflexivity | now rewrite IH]. Qed.

Lemma rev_append_append (s t acc : string) :
  rev_append (s ++ t) acc = rev_append t (rev_append s acc).
Proof.
  revert acc. induction s as [ | c s IH]; intros acc; cbn; [reflexivity | apply IH].
Qed.

Lemma rev_snoc (s : string) (c : ascii) : rev (s ++ String c "") = String c (rev s).
Proof. unfold rev. now rewrite rev_append_append. Qed.

Lemma rev_append_twice (s a b : string) :
  rev_append (rev_append s a) b = rev_append a (s ++ b).
Proof.
  revert a b. induction s as [ | c s IH]; intros a b; cbn; [reflexivity | ].
  now rewrite IH.
Qed.

Lemma rev_involutive (s : string) : rev (rev s) = s.
Proof. unfold rev. rewrite rev_append_twice. cbn. apply append_nil_r. Qed.

End StringFacts.

(** ** ResponseDecoder *)

Module DecoderFacts.
Import JsString Json Decoder Shapes.

Section Facts.
Context {num : Type} {NumOps : Number num}.
Context {document element : Type} {DomOps : Dom document element}.
Variable JSON_parse : string -> completion (json num).

(** The priority list of [decode_parsed] on an object is the one the
    specification words: [reply], then [data.reply], then
    [choices[0].message.content], then the indented dump. *)
Lemma decode_parsed_object (fields : list (string * json num)) :
  decode_parsed (JObj fields) =
  match reply_field fields with
  | Some r => r
  | None =>
      match data_reply_field fields with
      | Some r => r
      | None =>
          match chat_completion_field fields with
          | Some c => c
          | None => nl ++ JSON_stringify_indented (JObj fields) 2
          end
      end
  end.
Proof.
  unfold decode_parsed, reply_field, data_reply_field, chat_completion_field,
    choices_content.
  cbn [typeof_string isRecord get].
  destruct (assoc "reply" fields) as [[ | b0 | n0 | r | xs0 | fs0 | x0] | ];
    cbn; try reflexivity.
  all: destruct (assoc "data" fields) as [[ | b1 | n1 | s1 | xs1 | data | x1] | ]; cbn.
  all: try (destruct (assoc "reply" data) as [[ | b2 | n2 | r' | xs2 | fs2 | x2] | ];
            cbn; try reflexivity).
  all: destruct (assoc "choices" fields) as [[ | b3 | n3 | s3 | choices | fs3 | x3] | ];
    cbn; try reflexivity.
  all: destruct choices as [ | [ | b4 | n4 | s4 | xs4 | first | x4] rest];
    cbn; try reflexivity.
  all: destruct (assoc "message" first) as [[ | b5 | n5 | s5 | xs5 | message | x5] | ];
    cbn; try reflexivity.
  all: destruct (assoc "content" message) as [[ | b6 | n6 | c | xs6 | fs6 | x6] | ];
    cbn; reflexivity.
Qed.

(** An array passes [isRecord] too, and has none of the three shapes: it
    is dumped. *)
Lemma decode_parsed_array (items : list (json num)) :
  decode_parsed (JArr items) = nl ++ JSON_stringify_indented (JArr items) 2.
Proof. reflexivity. Qed.

(** A text that looks like JSON and parses is decoded by the JSON block. *)
Lemma parseWebhookText_parsed (text : string) (contentType : option string)
  (parsed : json num) :
  looksJson contentType (trim text) = true ->
  JSON_parse (trim text) = Normal parsed ->
  parseWebhookText JSON_parse text contentType = Normal (decode_parsed parsed).
Proof.
  intros Hlooks Hparse. unfold parseWebhookText, json_block.
  rewrite Hlooks, Hparse. reflexivity.
Qed.

(** C1. A text classified as JSON that parses to an object decodes, in
    this order of priority, to its top-level string [reply]; else to the
    string [reply] of its object field [data]; else to the string
    [content] of the object [message] of the first element of its array
    field [choices]; else to a newline followed by [JSON.stringify] of the
    whole object with an indentation of two spaces. *)
Theorem decode_object_priority (text : string) (contentType : option string)
  (fields : list (string * json num)) :
  looksJson contentType (trim text) = true ->
  JSON_parse (trim text) = Normal (JObj fields) ->
  parseWebhookText JSON_parse text contentType =
  Normal
    match reply_field fields with
    | Some r => r
    | None =>
        match data_reply_field fields with
        | Some r => r
        | None =>
            match chat_completion_field fields with
            | Some c => c
            | None => nl ++ SerializeJSONProperty "  " "" (JObj fields)
            end
        end
    end.
Proof.
  intros Hlooks Hparse.
  rewrite (parseWebhookText_parsed text contentType Hlooks Hparse).
  rewrite decode_parsed_object. reflexivity.
Qed.

(** The decoder has two [try] blocks and nothing that throws outside
    them: every call returns a string. *)
Lemma json_block_normal (trimmed : string) :
  exists r, json_block JSON_parse trimmed = Normal r.
Proof.
  unfold json_block. destruct (JSON_parse trimmed); cbn; eauto.
Qed.

Lemma html_block_normal (trimmed : string) :
  exists r, html_block trimmed = Normal r.
Proof.
  unfold html_block, try_catch.
  match goal with |- exists r, match ?b with _ => _ end = _ => destruct b end; eauto.
Qed.

Lemma html_or_plain_normal (t trimmed : string) :
  exists s, html_or_plain t trimmed = Normal s.
Proof.
  unfold html_or_plain.
  destruct (startsWith trimmed "<").
  - destruct (html_block_normal trimmed) as [[s | ] ->]; cbn; eauto.
  - cbn; eauto.
Qed.

(** C7. For every text and every declared content type, [null] included,
    the decoder returns a string and throws nothing; when [JSON.parse]
    throws, the result is the one of the HTML and plain-text handling;
    and the empty text, which [JSON.parse] rejects, decodes to the
    placeholder. *)
Theorem parseWebhookText_total (text : string) (contentType : option string) :
  (exists s, parseWebhookText JSON_parse text contentType = Normal s)
  /\ (forall e, JSON_parse (trim text) = Throw e ->
      parseWebhookText JSON_parse text contentType = html_or_plain text (trim text))
  /\ (forall e, JSON_parse "" = Throw e ->
      parseWebhookText JSON_parse "" contentType = Normal "(No response body)").
Proof.
  split; [ | split].
  - unfold parseWebhookText.
    destruct (looksJson contentType (trim text)).
    + destruct (json_block_normal (trim text)) as [[s | ] ->]; cbn; eauto.
      apply html_or_plain_normal.
    + cbn. apply html_or_plain_normal.
  - intros e He. unfold parseWebhookText, json_block. rewrite He.
    destruct (looksJson contentType (trim text)); reflexivity.
  - intros e He. unfold parseWebhookText, json_block.
    change (trim "") with "". rewrite He.
    destruct (looksJson contentType ""); reflexivity.
Qed.

Lemma not_json_falls_through (text : string) (contentType : option string) :
  not_json JSON_parse contentType (trim text) ->
  parseWebhookText JSON_parse text contentType = html_or_plain text (trim text).
Proof.
  unfold parseWebhookText, json_block. intros [-> | [e ->]].
  - reflexivity.
  - destruct (looksJson contentType (trim text)); reflexivity.
Qed.


End Facts.

End DecoderFacts.

(** ** ConversationStore and RequestComposer *)

Module ChatFacts.
Import JsString Json Decoder Chat.

Section Facts.
Context {num : Type} {NumOps : Number num}.
Context {document element : Type} {DomOps : Dom document element}.
Variable JSON_parse : string -> completion (json num).
Variable fetch : string -> FormData -> completion Response.

Local Abbreviation Message := (ChatMessage (num := num)).
Local Abbreviation Store := (State (num := num)).

(** Projections of the state after a chain of setters. *)
Ltac store_simpl :=
  cbn [messages input sending attachedImage recording webhookUrl chatId
       setMessages setInput setSending setAttachedImage setRecording fst snd].

Lemma resolve_length (wid c : string) (log : list Message) :
  length (resolve wid c log) = length log.
Proof. apply length_map. Qed.

Lemma resolve_app (wid c : string) (l1 l2 : list Message) :
  resolve wid c (l1 ++ l2)%list = (resolve wid c l1 ++ resolve wid c l2)%list.
Proof. apply map_app. Qed.

Lemma resolve_ids (wid c : string) (log : list Message) :
  ids (resolve wid c log) = ids log.
Proof.
  unfold ids, resolve. rewrite map_map. apply map_ext.
  intros m. destruct (String.eqb (id m) wid); reflexivity.
Qed.

Lemma resolve_absent (wid c : string) (log : list Message) :
  ~ In wid (ids log) -> resolve wid c log = log.
Proof.
  induction log as [ | m log IH]; intros Hnot; [reflexivity | ].
  cbn in *. destruct (String.eqb_spec (id m) wid) as [E | _].
  - exfalso. apply Hnot. now left.
  - f_equal. apply IH. intros H. apply Hnot. now right.
Qed.

Lemma resolve_again (wid c1 c2 : string) (log : list Message) :
  resolve wid c2 (resolve wid c1 log) = resolve wid c2 log.
Proof.
  unfold resolve. rewrite map_map. apply map_ext. intros m.
  destruct (String.eqb (id m) wid) eqn:E; cbn; rewrite E; reflexivity.
Qed.

Lemma resolve_comm (w1 w2 c1 c2 : string) (log : list Message) :
  w1 <> w2 ->
  resolve w1 c1 (resolve w2 c2 log) = resolve w2 c2 (resolve w1 c1 log).
Proof.
  intros Hne. unfold resolve. rewrite !map_map. apply map_ext. intros m.
  destruct (String.eqb (id m) w1) eqn:E1; destruct (String.eqb (id m) w2) eqn:E2;
    cbn; rewrite ?E1, ?E2; try reflexivity.
  apply String.eqb_eq in E1, E2. congruence.
Qed.

Lemma resolve_hit (wid c : string) (m : Message) :
  id m = wid -> resolve wid c [m] = [with_content m c].
Proof. intros E. cbn. rewrite (proj2 (String.eqb_eq _ _) E). reflexivity. Qed.

Lemma resolve_miss (wid c : string) (m : Message) :
  id m <> wid -> resolve wid c [m] = [m].
Proof. intros E. cbn. rewrite (proj2 (String.eqb_neq _ _) E). reflexivity. Qed.

Lemma resolved_content (wid c : string) (log : list Message) (m : Message) :
  In m (resolve wid c log) -> id m = wid -> content m = c.
Proof.
  unfold resolve. rewrite in_map_iff. intros [m0 [Hm _]] E.
  destruct (String.eqb_spec (id m0) wid) as [_ | N]; subst m.
  - reflexivity.
  - contradiction.
Qed.

(** The [try]/[catch]/[finally] of [handleSend] absorbs every outcome of
    the awaited call. *)
Lemma settle_eq (wid : string) (outcome : completion string) (st : Store) :
  settle wid outcome st
  = Normal (setSending false (setMessages (resolve wid (resolution outcome)) st)).
Proof. destruct outcome; reflexivity. Qed.

Lemma compose_throws (view : Store) (body : string) (image audio : option File)
  (now : num) :
  webhookUrl view = "" ->
  compose view body image audio now = Throw (Error "Missing webhook URL").
Proof. intros E. unfold compose. rewrite E. reflexivity. Qed.

Lemma compose_normal (view : Store) (body : string) (image audio : option File)
  (now : num) :
  webhookUrl view <> "" ->
  exists fd, compose view body image audio now = Normal fd.
Proof.
  intros E. unfold compose.
  destruct (webhookUrl view) as [ | c r]; [congruence | ].
  cbn [truthy negb]. eauto.
Qed.

(** No call of [handleSend] throws, up to its suspension and after it. *)
Lemma handleSend_normal (view : Store) (text : option string) (audio : option File)
  (d : Draws) (st : Store) :
  exists st' pr, handleSend view text audio d st = Normal (st', pr).
Proof.
  unfold handleSend.
  destruct (nothing_to_send view text audio); [eauto | ].
  destruct (compose _ _ _ _ _); [eauto | ].
  rewrite settle_eq. cbn. eauto.
Qed.

Lemma handleSend_resume_normal (wid url : string) (fd : FormData) (st : Store) :
  exists st', handleSend_resume JSON_parse fetch wid url fd st = Normal st'.
Proof. unfold handleSend_resume. rewrite settle_eq. eauto. Qed.

(** What [handleSend] does to the log up to its suspension: the user
    message, then the placeholder, at the end of the log, in this order. *)
Lemma handleSend_awaiting (view : Store) (text : option string) (audio : option File)
  (d : Draws) (st : Store) :
  nothing_to_send view text audio = false ->
  webhookUrl view <> "" ->
  exists st1 fd,
    compose view (draft_body view text) (attachedImage view) audio (metadataTs d)
    = Normal fd
    /\ handleSend view text audio d st
       = Normal (st1, Awaiting (waitingId d) (webhookUrl view) fd)
    /\ messages st1
       = (messages st
          ++ [userMsg (draft_body view text) (attachedImage view) audio d;
              placeholder d])%list
    /\ sending st1 = true.
Proof.
  intros Hsend Hurl.
  destruct (@compose_normal view (draft_body view text) (attachedImage view) audio
              (metadataTs d) Hurl) as [fd Hfd].
  unfold handleSend. rewrite Hsend, Hfd.
  eexists; exists fd. repeat split.
  store_simpl. rewrite <- app_assoc. reflexivity.
Qed.

(** C3, as the code has it. [resolve] has no guard for a placeholder that
    was resolved before: a second resolve of an id keeps the length of the
    log and its ids, and gives every message of that id the second content,
    so that the last resolve wins; with the content of the first resolve it
    changes nothing. On a log without the id, resolve changes nothing.
    [handleSend] resolves once per call, and only the id it drew for its
    placeholder: a call with nothing to send leaves the page as it is; a
    call on a page without a webhook URL applies resolve once, with the
    demo text, to the log with its two messages appended; a call that
    posts only appends its two messages before it is suspended, and its
    continuation applies resolve once, with what the outcome of the
    request resolves to. *)
Theorem resolve_twice (wid c1 c2 : string) (log : list Message)
  (view : Store) (text : option string) (audio : option File) (d : Draws) (st : Store)
  (url : string) (formData : FormData) :
  length (resolve wid c2 (resolve wid c1 log)) = length log
  /\ ids (resolve wid c2 (resolve wid c1 log)) = ids log
  /\ resolve wid c2 (resolve wid c1 log) = resolve wid c2 log
  /\ (forall m, In m (resolve wid c2 (resolve wid c1 log)) -> id m = wid ->
      content m = c2)
  /\ resolve wid c1 (resolve wid c1 log) = resolve wid c1 log
  /\ (~ In wid (ids log) -> resolve wid c2 log = log)
  /\ (nothing_to_send view text audio = true ->
      handleSend view text audio d st = Normal (st, Ignored))
  /\ (nothing_to_send view text audio = false ->
      webhookUrl view = "" ->
      exists st1,
        handleSend view text audio d st = Normal (st1, Done)
        /\ messages st1
           = resolve (waitingId d) demo
               (messages st
                ++ [userMsg (draft_body view text) (attachedImage view) audio d;
                    placeholder d])%list)
  /\ (nothing_to_send view text audio = false ->
      webhookUrl view <> "" ->
      exists st1 fd,
        handleSend view text audio d st
        = Normal (st1, Awaiting (waitingId d) (webhookUrl view) fd)
        /\ messages st1
           = (messages st
              ++ [userMsg (draft_body view text) (attachedImage view) audio d;
                  placeholder d])%list)
  /\ exists st',
      handleSend_resume JSON_parse fetch wid url formData st = Normal st'
      /\ messages st'
         = resolve wid (resolution (postToWebhook JSON_parse fetch url formData))
             (messages st).
Proof.
  split; [now rewrite !resolve_length | ].
  split; [now rewrite !resolve_ids | ].
  split; [apply resolve_again | ].
  split; [intros m; apply resolved_content | ].
  split; [apply resolve_again | ].
  split; [apply resolve_absent | ].
  split; [ | split; [ | split]].
  - intros Hsend. unfold handleSend. now rewrite Hsend.
  - intros Hsend Hurl. unfold handleSend.
    rewrite Hsend, (@compose_throws view _ _ _ _ Hurl), settle_eq. cbn [bind].
    eexists. split; [reflexivity | ]. store_simpl. cbn [resolution].
    now rewrite <- app_assoc.
  - intros Hsend Hurl.
    destruct (@handleSend_awaiting view text audio d st Hsend Hurl)
      as (st1 & fd & _ & Hrun & Hlog & _).
    now exists st1, fd.
  - unfold handleSend_resume. rewrite settle_eq. eexists. split; reflexivity.
Qed.

Lemma resolve_turn (d : Draws) (u : Message) (c : string)
  (before more : list Message) :
  id u <> waitingId d ->
  ~ In (waitingId d) (ids before) ->
  ~ In (waitingId d) (ids more) ->
  resolve (waitingId d) c (before ++ [u; placeholder d] ++ more)%list
  = (before ++ [u; with_content (placeholder d) c] ++ more)%list.
Proof.
  intros Hu Hb Hm.
  rewrite !resolve_app, (@resolve_absent _ c _ Hb), (@resolve_absent _ c _ Hm).
  change [u; placeholder d] with ([u] ++ [placeholder d])%list.
  rewrite resolve_app, (@resolve_miss _ c _ Hu).
  rewrite (@resolve_hit (waitingId d) c (placeholder d) eq_refl).
  reflexivity.
Qed.

(** C2, as the code has it. A send that has something to send, with ids
    that [genId] did not return before, appends the user message and the
    placeholder. With an empty webhook URL the placeholder holds the demo
    text when [handleSend] returns, and the log ends with the two. With a
    URL, whenever the awaited call throws, the resumed [handleSend]
    gives the placeholder the demo text, in place, whatever was appended
    after it in the meantime; the log ends with the two when nothing was.
    Neither part throws, and [sending] is false afterwards. *)
Theorem send_failure_resolves (view : Store) (text : option string)
  (audio : option File) (d : Draws) (st : Store) :
  nothing_to_send view text audio = false ->
  userId d <> waitingId d ->
  ~ In (waitingId d) (ids (messages st)) ->
  let u := userMsg (draft_body view text) (attachedImage view) audio d in
  let fallback := with_content (placeholder d) demo in
  (webhookUrl view = "" ->
   exists st1,
     handleSend view text audio d st = Normal (st1, Done)
     /\ messages st1 = (messages st ++ [u; fallback])%list
     /\ ends_with_fallback (messages st1) (content u)
     /\ sending st1 = false)
  /\ (webhookUrl view <> "" ->
      exists st1 fd,
        handleSend view text audio d st
        = Normal (st1, Awaiting (waitingId d) (webhookUrl view) fd)
        /\ messages st1 = (messages st ++ [u; placeholder d])%list
        /\ forall (st2 : Store) (before more : list Message) (e : js_error),
            messages st2 = (before ++ [u; placeholder d] ++ more)%list ->
            ~ In (waitingId d) (ids before) ->
            ~ In (waitingId d) (ids more) ->
            postToWebhook JSON_parse fetch (webhookUrl view) fd = Throw e ->
            exists st3,
              handleSend_resume JSON_parse fetch (waitingId d) (webhookUrl view) fd st2
              = Normal st3
              /\ messages st3 = (before ++ [u; fallback] ++ more)%list
              /\ (more = [] -> ends_with_fallback (messages st3) (content u))
              /\ sending st3 = false).
Proof.
  intros Hsend Hids Hfresh u fallback.
  assert (Hu : id u <> waitingId d) by exact Hids.
  split.
  - intros Hurl. unfold handleSend. rewrite Hsend.
    rewrite (@compose_throws view _ _ _ _ Hurl), settle_eq.
    eexists. split; [reflexivity | ].
    assert (Hlog :
      resolve (waitingId d) demo
        ((messages st ++ [u]) ++ [placeholder d])%list
      = (messages st ++ [u; fallback])%list).
    { pose proof (@resolve_turn d u demo (messages st) [] Hu Hfresh (fun H => H)) as R.
      cbn [app] in R. rewrite <- app_assoc. exact R. }
    store_simpl. cbn [resolution]. fold u. rewrite Hlog. repeat split.
    exists (messages st), u, fallback. repeat split.
  - intros Hurl.
    destruct (@handleSend_awaiting view text audio d st Hsend Hurl)
      as (st1 & fd & _ & Hrun & Hlog & _).
    exists st1, fd. repeat split; [exact Hrun | exact Hlog | ].
    intros st2 before more e Hst2 Hb Hm Hpost.
    unfold handleSend_resume. rewrite settle_eq, Hpost.
    eexists. split; [reflexivity | ].
    store_simpl. cbn [resolution]. rewrite Hst2, (@resolve_turn d u demo before more Hu Hb Hm).
    repeat split.
    intros ->. exists before, u, fallback. repeat split.
Qed.

(** A turn in flight stays in flight while other turns, with other ids,
    are sent and resolved around it. *)
Lemma in_flight_resolve (d : Draws) (u : Message) (wid c : string) (log : list Message) :
  wid <> waitingId d ->
  id u <> wid ->
  in_flight d u log ->
  in_flight d u (resolve wid c log).
Proof.
  intros Hw Hu (before & more & -> & Hb & Hm).
  exists (resolve wid c before), (resolve wid c more).
  rewrite !resolve_ids. repeat split; [ | exact Hb | exact Hm].
  rewrite !resolve_app.
  change [u; placeholder d] with ([u] ++ [placeholder d])%list.
  rewrite resolve_app, (@resolve_miss wid c u Hu).
  rewrite (@resolve_miss wid c (placeholder d)); [reflexivity | ].
  cbn. congruence.
Qed.

Lemma in_flight_append (d : Draws) (u : Message) (log new : list Message) :
  ~ In (waitingId d) (ids new) ->
  in_flight d u log ->
  in_flight d u (log ++ new)%list.
Proof.
  intros Hn (before & more & -> & Hb & Hm).
  exists before, (more ++ new)%list. repeat split; [ | exact Hb | ].
  - rewrite <- !app_assoc. reflexivity.
  - unfold ids. rewrite map_app, in_app_iff. tauto.
Qed.

Lemma in_flight_after_send (d d' : Draws) (u : Message) (view : Store)
  (text : option string) (audio : option File) (st st' : Store) (pr : progress) :
  userId d' <> waitingId d ->
  waitingId d' <> waitingId d ->
  id u <> waitingId d' ->
  in_flight d u (messages st) ->
  handleSend view text audio d' st = Normal (st', pr) ->
  in_flight d u (messages st').
Proof.
  intros Hu' Hw' Hu Hin. unfold handleSend.
  assert (Hnew : forall body image a,
            ~ In (waitingId d) (ids [userMsg body image a d'; placeholder d'])).
  { intros body image a. cbn. intuition congruence. }
  destruct (nothing_to_send view text audio).
  - now intros [= <- _].
  - destruct (compose _ _ _ _ _) as [fd | e].
    + intros [= <- _]. store_simpl. rewrite <- app_assoc.
      apply in_flight_append; [apply Hnew | exact Hin].
    + rewrite settle_eq. cbn [bind]. intros [= <- _]. store_simpl.
      apply in_flight_resolve; [exact Hw' | exact Hu | ].
      rewrite <- app_assoc. apply in_flight_append; [apply Hnew | exact Hin].
Qed.

Lemma in_flight_after_resume (d : Draws) (u : Message) (wid url : string)
  (fd : FormData) (st st' : Store) :
  wid <> waitingId d ->
  id u <> wid ->
  in_flight d u (messages st) ->
  handleSend_resume JSON_parse fetch wid url fd st = Normal st' ->
  in_flight d u (messages st').
Proof.
  intros Hw Hu Hin. unfold handleSend_resume. rewrite settle_eq.
  intros [= <-]. store_simpl. now apply in_flight_resolve.
Qed.

Lemma resolve_cons (wid c : string) (m : Message) (log : list Message) :
  resolve wid c (m :: log)
  = (if String.eqb (id m) wid then with_content m c else m) :: resolve wid c log.
Proof. reflexivity. Qed.

Lemma eqb_false (a b : string) : a <> b -> String.eqb a b = false.
Proof. apply String.eqb_neq. Qed.

(** C4. Each turn appends its user message and then its placeholder, at
    the end of the log, before its request is awaited; the resumed call
    writes into the placeholder whose id it drew at submit time. So for
    two turns in flight at once, with the ids [genId] gave them distinct
    and new, both orders of completion end in the same log, in which each
    placeholder holds the outcome of its own request. *)
Theorem overlapping_turns_resolve_their_own
  (view1 view2 : Store) (text1 text2 : option string) (audio1 audio2 : option File)
  (d1 d2 : Draws) (st : Store) :
  nothing_to_send view1 text1 audio1 = false ->
  nothing_to_send view2 text2 audio2 = false ->
  webhookUrl view1 <> "" ->
  webhookUrl view2 <> "" ->
  waitingId d1 <> waitingId d2 ->
  userId d1 <> waitingId d1 ->
  userId d1 <> waitingId d2 ->
  userId d2 <> waitingId d1 ->
  userId d2 <> waitingId d2 ->
  ~ In (waitingId d1) (ids (messages st)) ->
  ~ In (waitingId d2) (ids (messages st)) ->
  let u1 := userMsg (draft_body view1 text1) (attachedImage view1) audio1 d1 in
  let u2 := userMsg (draft_body view2 text2) (attachedImage view2) audio2 d2 in
  exists st1 fd1 st2 fd2,
    handleSend view1 text1 audio1 d1 st
    = Normal (st1, Awaiting (waitingId d1) (webhookUrl view1) fd1)
    /\ messages st1 = (messages st ++ [u1; placeholder d1])%list
    /\ handleSend view2 text2 audio2 d2 st1
       = Normal (st2, Awaiting (waitingId d2) (webhookUrl view2) fd2)
    /\ messages st2 = (messages st ++ [u1; placeholder d1; u2; placeholder d2])%list
    /\ let r1 := resolution (postToWebhook JSON_parse fetch (webhookUrl view1) fd1) in
       let r2 := resolution (postToWebhook JSON_parse fetch (webhookUrl view2) fd2) in
       let final :=
         (messages st
          ++ [u1; with_content (placeholder d1) r1;
              u2; with_content (placeholder d2) r2])%list in
       (exists sa sb,
           handleSend_resume JSON_parse fetch (waitingId d2) (webhookUrl view2) fd2 st2
           = Normal sa
           /\ messages sa
              = (messages st
                 ++ [u1; placeholder d1; u2; with_content (placeholder d2) r2])%list
           /\ handleSend_resume JSON_parse fetch (waitingId d1) (webhookUrl view1) fd1 sa
              = Normal sb
           /\ messages sb = final)
       /\ (exists sa sb,
              handleSend_resume JSON_parse fetch (waitingId d1) (webhookUrl view1) fd1 st2
              = Normal sa
              /\ messages sa
                 = (messages st
                    ++ [u1; with_content (placeholder d1) r1; u2; placeholder d2])%list
              /\ handleSend_resume JSON_parse fetch (waitingId d2) (webhookUrl view2) fd2 sa
                 = Normal sb
              /\ messages sb = final).
Proof.
  intros Hs1 Hs2 Hurl1 Hurl2 Hw Hu11 Hu12 Hu21 Hu22 Hf1 Hf2 u1 u2.
  destruct (@handleSend_awaiting view1 text1 audio1 d1 st Hs1 Hurl1)
    as (st1 & fd1 & _ & Hrun1 & Hlog1 & _).
  destruct (@handleSend_awaiting view2 text2 audio2 d2 st1 Hs2 Hurl2)
    as (st2 & fd2 & _ & Hrun2 & Hlog2 & _).
  fold u1 in Hlog1. fold u2 in Hlog2.
  rewrite Hlog1, <- app_assoc in Hlog2. cbn [app] in Hlog2.
  exists st1, fd1, st2, fd2.
  split; [exact Hrun1 | ]. split; [exact Hlog1 | ].
  split; [exact Hrun2 | ]. split; [exact Hlog2 | ].
  intros r1 r2 final.
  assert (E11 : String.eqb (id u1) (waitingId d1) = false) by now apply eqb_false.
  assert (E12 : String.eqb (id u1) (waitingId d2) = false) by now apply eqb_false.
  assert (E21 : String.eqb (id u2) (waitingId d1) = false) by now apply eqb_false.
  assert (E22 : String.eqb (id u2) (waitingId d2) = false) by now apply eqb_false.
  assert (Ew : String.eqb (waitingId d1) (waitingId d2) = false) by now apply eqb_false.
  assert (Ew' : String.eqb (waitingId d2) (waitingId d1) = false)
    by (apply eqb_false; congruence).
  unfold handleSend_resume. rewrite !settle_eq. fold r1 r2.
  assert (Hid1 : id (placeholder d1) = waitingId d1) by reflexivity.
  assert (Hid2 : id (placeholder d2) = waitingId d2) by reflexivity.
  assert (Hidc : forall (m : Message) c, id (with_content m c) = id m) by reflexivity.
  split.
  - eexists; eexists. split; [reflexivity | ].
    store_simpl. rewrite Hlog2.
    split; [ | split; [rewrite settle_eq; fold r1; reflexivity | store_simpl; rewrite Hlog2 ]].
    all: repeat (progress
           (rewrite ?resolve_app, ?resolve_cons, ?(@resolve_absent _ r1 _ Hf1),
              ?(@resolve_absent _ r2 _ Hf2), ?Hidc, ?Hid1, ?Hid2,
              ?E11, ?E12, ?E21, ?E22, ?Ew, ?Ew', ?String.eqb_refl)).
    all: reflexivity.
  - eexists; eexists. split; [reflexivity | ].
    store_simpl. rewrite Hlog2.
    split; [ | split; [rewrite settle_eq; fold r2; reflexivity | store_simpl; rewrite Hlog2 ]].
    all: repeat (progress
           (rewrite ?resolve_app, ?resolve_cons, ?(@resolve_absent _ r1 _ Hf1),
              ?(@resolve_absent _ r2 _ Hf2), ?Hidc, ?Hid1, ?Hid2,
              ?E11, ?E12, ?E21, ?E22, ?Ew, ?Ew', ?String.eqb_refl)).
    all: reflexivity.
Qed.

(** C8. The payload of a send has [type] ["audio"] when there is an audio
    file, else ["image"] when an image is attached, else ["text"]; then
    [text], [source] with the tag ["booking-bot"], [chatId], and
    [metadata], the JSON text of an object with the clock reading, the
    client tag and the same chat id; then the image part and the audio
    part, each when present, and nothing else. *)
Theorem payload_fields (view : Store) (text : option string) (audio : option File)
  (d : Draws) (st st1 : Store) (wid url : string) (fd : FormData) :
  handleSend view text audio d st = Normal (st1, Awaiting wid url fd) ->
  form_get fd "type"
  = Some (FormString
            match audio, attachedImage view with
            | Some _, _ => "audio"
            | None, Some _ => "image"
            | None, None => "text"
            end)
  /\ form_get fd "text" = Some (FormString (draft_body view text))
  /\ form_get fd "source" = Some (FormString "booking-bot")
  /\ form_get fd "chatId" = Some (FormString (chatId view))
  /\ form_get fd "metadata"
     = Some (FormString
               (JSON_stringify
                  (JObj [("ts", JNum (metadataTs d)); ("client", JStr "web");
                         ("chatId", JStr (chatId view))])))
  /\ JSON_stringify
       (JObj [("ts", JNum (metadataTs d)); ("client", JStr "web");
              ("chatId", JStr (chatId view))])
     = "{" ++ QuoteJSONString "ts" ++ ":" ++ Number_toString (metadataTs d)
       ++ "," ++ QuoteJSONString "client" ++ ":" ++ QuoteJSONString "web"
       ++ "," ++ QuoteJSONString "chatId" ++ ":" ++ QuoteJSONString (chatId view)
       ++ "}"
  /\ form_get fd "image" = option_map FormFile (attachedImage view)
  /\ form_get fd "audio" = option_map FormFile audio
  /\ map fst fd
     = (["type"; "text"; "source"; "chatId"; "metadata"]
        ++ (if present (attachedImage view) then ["image"] else [])
        ++ (if present audio then ["audio"] else []))%list
  /\ url = webhookUrl view
  /\ url <> "".
Proof.
  unfold handleSend.
  destruct (nothing_to_send view text audio); [discriminate | ].
  destruct (compose _ _ _ _ _) as [fd' | e] eqn:Hc; [ | rewrite settle_eq; discriminate].
  intros H. injection H as _ _ <- <-.
  unfold compose in Hc.
  destruct (webhookUrl view) as [ | c r] eqn:Hurl; [discriminate | ].
  cbn [truthy negb] in Hc. injection Hc as <-.
  assert (Hmeta : forall s,
    JSON_stringify (JObj [("ts", JNum (metadataTs d)); ("client", JStr "web");
                          ("chatId", JStr s)])
    = "{" ++ QuoteJSONString "ts" ++ ":" ++ Number_toString (metadataTs d)
      ++ "," ++ QuoteJSONString "client" ++ ":" ++ QuoteJSONString "web"
      ++ "," ++ QuoteJSONString "chatId" ++ ":" ++ QuoteJSONString s ++ "}").
  { intros s. unfold JSON_stringify, QuoteJSONString. cbn.
    repeat (rewrite !StringFacts.append_assoc; cbn). reflexivity. }
  destruct (attachedImage view) as [image | ]; destruct audio as [a | ];
    repeat split; try reflexivity; try discriminate; apply Hmeta.
Qed.

(** C10. The resumed [handleSend] never throws and never writes the empty
    string: a reply that decodes to the empty string is shown as
    ["(empty)"], any other reply as it is, and a failure as the demo
    text. *)
Theorem empty_reply_shown_as_empty (wid url : string) (fd : FormData) (st : Store) :
  exists st',
    handleSend_resume JSON_parse fetch wid url fd st = Normal st'
    /\ messages st'
       = resolve wid (resolution (postToWebhook JSON_parse fetch url fd)) (messages st)
    /\ (postToWebhook JSON_parse fetch url fd = Normal "" ->
        forall m, In m (messages st') -> id m = wid -> content m = "(empty)")
    /\ (forall m, In m (messages st') -> id m = wid -> content m <> "")
    /\ (In wid (ids (messages st)) ->
        exists m, In m (messages st') /\ id m = wid /\ content m <> "").
Proof.
  unfold handleSend_resume. rewrite settle_eq. eexists. split; [reflexivity | ].
  store_simpl.
  assert (Hne : resolution (postToWebhook JSON_parse fetch url fd) <> "").
  { destruct (postToWebhook JSON_parse fetch url fd) as [[ | c r] | e];
      cbn; discriminate. }
  split; [reflexivity | ]. split; [ | split].
  - intros Hempty m Hin E. rewrite Hempty in Hin.
    apply (resolved_content _ _ _ Hin E).
  - intros m Hin E. rewrite (resolved_content _ _ _ Hin E). exact Hne.
  - intros Hin. unfold ids in Hin. apply in_map_iff in Hin as [m0 [E Hm0]].
    exists (with_content m0 (resolution (postToWebhook JSON_parse fetch url fd))).
    repeat split; [ | exact E | exact Hne].
    unfold resolve. apply in_map_iff. exists m0.
    rewrite (proj2 (String.eqb_eq _ _) E). auto.
Qed.

End Facts.

End ChatFacts.

(** ** RecordingController *)

Module RecorderFacts.
Import JsString Json Decoder Chat Recorder.

Section Facts.
Context {num : Type} {NumOps : Number num}.

Local Abbreviation Store := (State (num := num)).
Local Abbreviation Rec := (MediaRecorder (num := num)).
Local Abbreviation Doc := (Page (num := num)).

Lemma update_hit {A : Type} (f : A -> A) (l : list A) (i : nat) (x : A) :
  nth_error l i = Some x -> nth_error (update i f l) i = Some (f x).
Proof.
  revert i. induction l as [ | y l IH]; intros [ | i]; cbn; try discriminate.
  - now intros [= ->].
  - apply IH.
Qed.

Lemma stop_tracks_all_ended (s : MediaStream) : all_ended (stop_tracks s) = true.
Proof. induction s as [ | t s IH]; [reflexivity | exact IH]. Qed.

(** A call with an audio file always has something to send. *)
Lemma audio_is_sent (view : Store) (text : option string) (file : File) :
  nothing_to_send view text (Some file) = false.
Proof. unfold nothing_to_send. cbn [present negb]. apply andb_false_r. Qed.

Lemma handleSend_with_audio (view : Store) (text : option string) (file : File)
  (d : Draws) (st : Store) :
  exists st' pr,
    handleSend view text (Some file) d st = Normal (st', pr)
    /\ pr <> Ignored
    /\ recording st' = recording st
    /\ length (messages st') = 2 + length (messages st).
Proof.
  unfold handleSend. rewrite audio_is_sent.
  destruct (compose _ _ _ _ _) as [fd | e].
  - eexists; eexists. split; [reflexivity | ]. split; [discriminate | ].
    split; [reflexivity | ].
    cbn -[userMsg placeholder]. rewrite !length_app. cbn. lia.
  - rewrite ChatFacts.settle_eq. cbn [bind].
    eexists; eexists. split; [reflexivity | ]. split; [discriminate | ].
    split; [reflexivity | ].
    cbn -[userMsg placeholder resolve]. rewrite ChatFacts.resolve_length, !length_app.
    cbn. lia.
Qed.

(** C9. From the recording state, with the recorder the page holds:
    [toggleRecording] stops the recorder and leaves the recording state;
    the task that follows, whatever data was gathered, none included,
    builds the file from the chunks, hands it to [handleSend], which takes
    it as a send and throws nothing, and ends every track of the stream.
    With no chunk and no data the file has no bytes. From the idle state,
    when [getUserMedia] throws, the page is unchanged: still idle. *)
Theorem stop_releases_and_sends :
  (forall (p : Doc) (sd : StartDraws) (h : nat) (r : Rec) (gathered : string)
          (d : Draws),
      recording (app p) = true ->
      mediaRecorder p = Some h ->
      nth_error (objects p) h = Some r ->
      exists p1,
        toggleRecording p sd p = Normal p1
        /\ recording (app p1) = false
        /\ nth_error (objects p1) h = Some (recorder_stop r)
        /\ let data := {| file_name := ""; file_type := "audio/webm";
                          file_bytes := gathered |} in
           let file :=
             new_File (new_Blob (chunks r ++ [data])%list "audio/webm")
               "voice-recording.webm" "audio/webm" in
           let p2 := stop_task h gathered d p1 in
           exists st2 pr r2,
             handleSend (closure r) (Some "") (Some file) d (app p1)
             = Normal (st2, pr)
             /\ pr <> Ignored
             /\ app p2 = st2
             /\ sends p2 = (sends p1 ++ [pr])%list
             /\ length (messages (app p2)) = 2 + length (messages (app p))
             /\ recording (app p2) = false
             /\ nth_error (objects p2) h = Some r2
             /\ state r2 = inactive
             /\ all_ended (stream r2) = true
             /\ (chunks r = [] -> gathered = "" ->
                 file_bytes file = "" /\ String.length (file_bytes file) = 0))
  /\ (forall (p : Doc) (sd : StartDraws) (e : js_error),
         recording (app p) = false ->
         getUserMedia sd = Throw e ->
         toggleRecording p sd p = Normal p).
Proof.
  split.
  - intros p sd h r gathered d Hrec Hh Hr.
    unfold toggleRecording. rewrite Hrec, Hh.
    eexists. split; [reflexivity | ].
    cbn [app objects sends mediaRecorder].
    split; [reflexivity | ].
    split; [apply update_hit; exact Hr | ].
    pose (data := {| file_name := ""; file_type := "audio/webm";
                     file_bytes := gathered |}).
    pose (file := new_File (new_Blob (chunks r ++ [data])%list "audio/webm")
                    "voice-recording.webm" "audio/webm").
    fold data. fold file.
    pose proof (update_hit recorder_stop _ _ Hr) as Hr1.
    pose proof (update_hit (ondataavailable data) _ _ Hr1) as Hr2.
    destruct (handleSend_with_audio (closure r) (Some "") file d
                (setRecording false (app p)))
      as (st2 & pr & Hrun & Hpr & Hkeep & Hlen).
    exists st2, pr, (release (ondataavailable data (recorder_stop r))).
    unfold stop_task, onstop. cbn [objects app sends mediaRecorder].
    fold data. rewrite Hr2.
    cbn [chunks closure ondataavailable recorder_stop].
    fold file. unfold call_handleSend. cbn [app objects sends mediaRecorder].
    rewrite Hrun. cbn [app objects sends mediaRecorder].
    split; [reflexivity | ]. split; [exact Hpr | ].
    split; [reflexivity | ]. split; [reflexivity | ].
    split; [exact Hlen | ]. split; [rewrite Hkeep; reflexivity | ].
    split; [apply update_hit; exact Hr2 | ].
    split; [reflexivity | ].
    split; [apply stop_tracks_all_ended | ].
    intros Hc Hg. subst file data. rewrite Hc, Hg. split; reflexivity.
  - intros p sd e Hrec Hget.
    unfold toggleRecording. rewrite Hrec, Hget. reflexivity.
Qed.

End Facts.

End RecorderFacts.

(** ** [JSON.parse] after [JSON.stringify] *)

Module JsonFacts.
Import JsString Json JsonParse StringFacts.

(** Every case of a character, decided by evaluation. *)
Ltac each_char c := destruct c as [[] [] [] [] [] [] [] []].

Lemma parse_chars_quote_char (c : ascii) (r : string) :
  parse_chars (quote_char c ++ r) = push (String c "") (parse_chars r).
Proof. each_char c; reflexivity. Qed.

(** Every byte is one of the 256. *)
Lemma every_char (c : ascii) : In c (map ascii_of_nat (seq 0 256)).
Proof.
  rewrite <- (ascii_nat_embedding c). apply in_map. apply in_seq.
  pose proof (nat_ascii_bounded c). lia.
Qed.

(** A byte of a character beyond U+007F is read as it is. *)
Lemma parse_chars_raw (c : ascii) (r : string) :
  (128 <=? code c)%nat = true ->
  parse_chars (String c r) = push (String c "") (parse_chars r).
Proof. each_char c; intros H; first [discriminate H | reflexivity]. Qed.

Lemma low_escape_first (b1 : ascii) (t : string) :
  Ascii.eqb b1 BACKSLASH = false -> low_escape (String b1 t) = false.
Proof.
  intros H. destruct t as [ | b2 [ | l1 [ | l2 [ | l3 [ | l4 t]]]]]; try reflexivity.
  cbn [low_escape]. now rewrite H.
Qed.

Lemma low_escape_second (b1 b2 : ascii) (t : string) :
  Ascii.eqb b2 "u" = false -> low_escape (String b1 (String b2 t)) = false.
Proof.
  intros H. destruct t as [ | l1 [ | l2 [ | l3 [ | l4 t]]]]; try reflexivity.
  cbn [low_escape]. now rewrite H, andb_false_r.
Qed.

Lemma quote_char_not_low (c : ascii) (t : string) : low_escape (quote_char c ++ t) = false.
Proof.
  each_char c;
    first [ apply low_escape_first; reflexivity
          | apply low_escape_second; reflexivity
          | reflexivity ].
Qed.

(** The escape of a surrogate is read as its code unit. *)
Lemma surrogate_escape_checked :
  forallb
    (fun b =>
       forallb
         (fun c =>
            implb
              ((160 <=? code b) && (code b <=? 191) && (128 <=? code c)
               && (code c <=? 191))%nat
              match
                hex4 "d" (hex_digit ((code b - 128) / 4))
                  (hex_digit ((code b mod 4) * 4 + (code c - 128) / 16))
                  (hex_digit (code c mod 16))
              with
              | Some u =>
                  String.eqb (utf8 u)
                    (String (ascii_of_nat 237) (String b (String c "")))
                  && Bool.eqb (is_high_surrogate u) (code b <=? 175)%nat
                  && Bool.eqb (is_low_surrogate u) (176 <=? code b)%nat
              | None => false
              end)
         (map ascii_of_nat (seq 0 256)))
    (map ascii_of_nat (seq 0 256))
  = true.
Proof. vm_compute. reflexivity. Qed.

Lemma surrogate_escape_value (b c : ascii) :
  ((160 <=? code b) && (code b <=? 191) && (128 <=? code c) && (code c <=? 191))%nat
  = true ->
  exists u,
    hex4 "d" (hex_digit ((code b - 128) / 4))
      (hex_digit ((code b mod 4) * 4 + (code c - 128) / 16))
      (hex_digit (code c mod 16))
    = Some u
    /\ utf8 u = String (ascii_of_nat 237) (String b (String c ""))
    /\ is_high_surrogate u = (code b <=? 175)%nat
    /\ is_low_surrogate u = (176 <=? code b)%nat.
Proof.
  intros H. pose proof surrogate_escape_checked as K.
  rewrite forallb_forall in K. specialize (K b (every_char b)).
  rewrite forallb_forall in K. specialize (K c (every_char c)).
  rewrite H in K. cbn [implb] in K.
  destruct (hex4 _ _ _ _) as [u | ]; [ | discriminate K].
  apply andb_prop in K as [K Klow]. apply andb_prop in K as [Kbytes Khigh].
  exists u. split; [reflexivity | ]. split; [now apply String.eqb_eq | ].
  split; [now apply Bool.eqb_prop | now apply Bool.eqb_prop].
Qed.

Lemma high_bytes_first (a b c : ascii) :
  is_high_bytes a b c = true ->
  a = ascii_of_nat 237
  /\ ((160 <=? code b) && (code b <=? 191) && (128 <=? code c) && (code c <=? 191))%nat
     = true
  /\ (code b <=? 175)%nat = true.
Proof.
  unfold is_high_bytes. intros H.
  apply andb_prop in H as [H H5]. apply andb_prop in H as [H H4].
  apply andb_prop in H as [H H3]. apply andb_prop in H as [H1 H2].
  split.
  - apply Nat.eqb_eq in H1. unfold code in H1. rewrite <- H1.
    symmetry. apply ascii_nat_embedding.
  - rewrite H2, H3, H4, H5. split; [ | reflexivity].
    apply Nat.leb_le in H3. rewrite (proj2 (Nat.leb_le (code b) 191)) by lia.
    reflexivity.
Qed.

Lemma low_bytes_first (a b c : ascii) :
  is_low_bytes a b c = true ->
  a = ascii_of_nat 237
  /\ ((160 <=? code b) && (code b <=? 191) && (128 <=? code c) && (code c <=? 191))%nat
     = true
  /\ (code b <=? 175)%nat = false.
Proof.
  unfold is_low_bytes. intros H.
  apply andb_prop in H as [H H5]. apply andb_prop in H as [H H4].
  apply andb_prop in H as [H H3]. apply andb_prop in H as [H1 H2].
  split.
  - apply Nat.eqb_eq in H1. unfold code in H1. rewrite <- H1.
    symmetry. apply ascii_nat_embedding.
  - rewrite H3, H4, H5. apply Nat.leb_le in H2.
    rewrite (proj2 (Nat.leb_le 160 (code b))) by lia. split; [reflexivity | ].
    apply Nat.leb_gt. lia.
Qed.

(** The escape of a surrogate that is not the first half of an escaped
    pair is read as the three bytes of the surrogate. *)
Lemma parse_chars_surrogate (a b c : ascii) (t : string) :
  is_low_bytes a b c = true \/ (is_high_bytes a b c = true /\ low_escape t = false) ->
  parse_chars (surrogate_escape b c ++ t)
  = push (String a (String b (String c ""))) (parse_chars t).
Proof.
  intros H.
  assert (E : exists u,
             hex4 "d" (hex_digit ((code b - 128) / 4))
               (hex_digit ((code b mod 4) * 4 + (code c - 128) / 16))
               (hex_digit (code c mod 16)) = Some u
             /\ utf8 u = String a (String b (String c ""))
             /\ (is_high_surrogate u = false \/ low_escape t = false)).
  { destruct H as [H | [H Ht]].
    - apply low_bytes_first in H as (-> & Hr & Hb).
      destruct (surrogate_escape_value b c Hr) as (u & Hu & Hbytes & Hhigh & _).
      exists u. rewrite Hhigh, Hb. auto.
    - apply high_bytes_first in H as (-> & Hr & Hb).
      destruct (surrogate_escape_value b c Hr) as (u & Hu & Hbytes & _).
      exists u. auto. }
  destruct E as (u & Hu & Hbytes & Hcase).
  unfold surrogate_escape.
  change (parse_chars
            (("\ud"
              ++ String (hex_digit ((code b - 128) / 4))
                   (String (hex_digit ((code b mod 4) * 4 + (code c - 128) / 16))
                      (String (hex_digit (code c mod 16)) ""))) ++ t))
    with (match
             hex4 "d" (hex_digit ((code b - 128) / 4))
               (hex_digit ((code b mod 4) * 4 + (code c - 128) / 16))
               (hex_digit (code c mod 16))
           with
           | Some hi =>
               if is_high_surrogate hi then
                 match t with
                 | String b1 (String b2
                     (String l1 (String l2 (String l3 (String l4 r11))))) =>
                     match
                       (if Ascii.eqb b1 BACKSLASH && Ascii.eqb b2 "u"
                        then hex4 l1 l2 l3 l4 else None)
                     with
                     | Some lo =>
                         if is_low_surrogate lo then
                           push
                             (utf8 (65536 + (hi - 55296) * 1024 + (lo - 56320))%N)
                             (parse_chars r11)
                         else push (utf8 hi) (parse_chars t)
                     | None => push (utf8 hi) (parse_chars t)
                     end
                 | _ => push (utf8 hi) (parse_chars t)
                 end
               else push (utf8 hi) (parse_chars t)
           | None => None
           end).
  rewrite Hu, <- Hbytes.
  destruct (is_high_surrogate u); [ | reflexivity].
  destruct Hcase as [Hcase | Ht]; [discriminate Hcase | ].
  destruct t as [ | b1 [ | b2 [ | l1 [ | l2 [ | l3 [ | l4 r11]]]]]]; try reflexivity.
  cbn [low_escape] in Ht.
  destruct (if Ascii.eqb b1 BACKSLASH && Ascii.eqb b2 "u" then hex4 l1 l2 l3 l4 else None)
    as [lo | ]; [ | reflexivity].
  now rewrite Ht.
Qed.

(** What [quote_body] writes for a text that does not start with a low
    surrogate does not start with the escape of one. *)
Lemma quote_body_not_low (s rest : string) :
  match s with
  | String d (String e (String f _)) => is_low_bytes d e f
  | _ => false
  end = false ->
  low_escape (quote_body s ++ String DQUOTE rest) = false.
Proof.
  intros Hs. destruct s as [ | d r]; [apply low_escape_first; reflexivity | ].
  destruct r as [ | e [ | f r6]]; try (cbn [quote_body]; rewrite append_assoc; apply quote_char_not_low).
  cbn [quote_body]. rewrite Hs.
  destruct (is_high_bytes d e f) eqn:Hhigh.
  - apply high_bytes_first in Hhigh as (-> & Hr & Hb).
    assert (Hesc : forall t, low_escape (surrogate_escape e f ++ t) = false).
    { intros t. destruct (surrogate_escape_value e f Hr) as (u & Hu & _ & _ & Hlow).
      unfold surrogate_escape. cbn [String.append low_escape].
      change (Ascii.eqb "\" BACKSLASH && Ascii.eqb "u" "u") with true. cbv iota.
      rewrite Hu, Hlow. apply Nat.leb_gt. apply Nat.leb_le in Hb. lia. }
    destruct r6 as [ | x [ | y [ | z r9]]]; try (rewrite append_assoc; apply Hesc).
    destruct (is_low_bytes x y z); [ | rewrite append_assoc; apply Hesc].
    apply low_escape_first. reflexivity.
  - rewrite append_assoc. apply quote_char_not_low.
Qed.

(** A quoted string reads back as the string. *)
Lemma parse_chars_quote_body (s rest : string) :
  parse_chars (quote_body s ++ String DQUOTE rest) = Some (s, rest).
Proof.
  remember (String.length s) as n eqn:Hn.
  assert (Hle : String.length s <= n) by lia. clear Hn.
  revert s Hle. induction n as [ | n IH]; intros s Hle.
  - destruct s; [reflexivity | cbn in Hle; lia].
  - destruct s as [ | a r]; [reflexivity | ].
    cbn [String.length] in Hle.
    assert (Hchar : parse_chars ((quote_char a ++ quote_body r) ++ String DQUOTE rest)
                    = Some (String a r, rest)).
    { rewrite append_assoc, parse_chars_quote_char, IH by lia. reflexivity. }
    destruct r as [ | b [ | c r3]]; try exact Hchar.
    cbn [quote_body]. cbn [String.length] in Hle.
    destruct (is_high_bytes a b c) eqn:Hhigh.
    + assert (Hlone :
                 match r3 with
                 | String d (String e (String f _)) => is_low_bytes d e f
                 | _ => false
                 end = false ->
                 parse_chars ((surrogate_escape b c ++ quote_body r3) ++ String DQUOTE rest)
                 = Some (String a (String b (String c r3)), rest)).
      { intros Hr3. rewrite append_assoc.
        rewrite (@parse_chars_surrogate a b c).
        - rewrite IH by lia. reflexivity.
        - right. split; [exact Hhigh | now apply quote_body_not_low]. }
      destruct r3 as [ | d [ | e [ | f r6]]]; try (apply Hlone; reflexivity).
      destruct (is_low_bytes d e f) eqn:Hlow; [ | apply Hlone; reflexivity].
      apply high_bytes_first in Hhigh as (-> & Hr & _).
      apply low_bytes_first in Hlow as (-> & Hr' & _).
      apply andb_prop in Hr as [Hr Hc4]. apply andb_prop in Hr as [Hr Hc3].
      apply andb_prop in Hr as [Hb1 _].
      apply andb_prop in Hr' as [Hr' Hf4]. apply andb_prop in Hr' as [Hr' Hf3].
      apply andb_prop in Hr' as [He1 _].
      cbn [String.length] in Hle. cbn [String.append].
      rewrite (@parse_chars_raw (ascii_of_nat 237)) by reflexivity.
      rewrite (@parse_chars_raw b)
        by (apply Nat.leb_le; apply Nat.leb_le in Hb1; lia).
      rewrite (@parse_chars_raw c) by exact Hc3.
      rewrite (@parse_chars_raw (ascii_of_nat 237)) by reflexivity.
      rewrite (@parse_chars_raw e)
        by (apply Nat.leb_le; apply Nat.leb_le in He1; lia).
      rewrite (@parse_chars_raw f) by exact Hf3.
      rewrite IH by lia. reflexivity.
    + destruct (is_low_bytes a b c) eqn:Hlow; [ | exact Hchar].
      rewrite append_assoc, (@parse_chars_surrogate a b c) by now left.
      rewrite IH by lia. reflexivity.
Qed.

Lemma skip_ws_spaces (pre s : string) :
  spaces_only pre = true -> skip_ws (pre ++ s) = skip_ws s.
Proof.
  induction pre as [ | c pre IH]; [reflexivity | ].
  cbn. destruct (is_json_space c); [ | discriminate]. exact IH.
Qed.

Lemma spaces_only_append (a b : string) :
  spaces_only a = true -> spaces_only b = true -> spaces_only (a ++ b) = true.
Proof.
  induction a as [ | c a IH]; cbn; [auto | ].
  destruct (is_json_space c); [ | discriminate]. exact IH.
Qed.

Lemma spaces_only_spaces (n : nat) : spaces_only (spaces n) = true.
Proof. induction n as [ | n IH]; [reflexivity | exact IH]. Qed.

(** White space is not part of a number token. *)
Lemma space_delimits (c : ascii) : is_json_space c = true -> number_char c = false.
Proof. each_char c; vm_compute; intros H; first [reflexivity | discriminate H]. Qed.

Lemma delimited_spaces (pre : string) (c : ascii) (rest : string) :
  spaces_only pre = true ->
  number_char c = false ->
  delimited (pre ++ String c rest) = true.
Proof.
  destruct pre as [ | x pre]; cbn.
  - now intros _ ->.
  - intros H _. apply andb_prop in H as [H _]. now rewrite (space_delimits _ H).
Qed.

(** The first character of a number token selects the number branch of
    [parse_value]. *)
Lemma number_start_dispatch (c : ascii) :
  number_start c = true ->
  is_json_space c = false
  /\ Ascii.eqb c "{" = false /\ Ascii.eqb c "[" = false
  /\ Ascii.eqb c DQUOTE = false /\ Ascii.eqb c "t" = false
  /\ Ascii.eqb c "f" = false /\ Ascii.eqb c "n" = false
  /\ Ascii.eqb c "]" = false /\ Ascii.eqb c "}" = false.
Proof.
  each_char c; vm_compute; intros H; first [discriminate H | repeat split].
Qed.

Section Keys.
Context {num : Type}.

Local Abbreviation Fields := (list (string * json num)).

(** An array index names one key. *)
Lemma array_index_canonical (k k' : string) (n : N) :
  array_index k = Some n -> array_index k' = Some n -> k = k'.
Proof.
  unfold array_index. intros H H'.
  destruct (NilEmpty.uint_of_string k) as [u | ]; [ | discriminate].
  destruct (NilEmpty.uint_of_string k') as [u' | ]; [ | discriminate].
  destruct (String.eqb_spec (NilZero.string_of_uint (N.to_uint (N.of_uint u))) k)
    as [E | _]; [ | discriminate].
  destruct (String.eqb_spec (NilZero.string_of_uint (N.to_uint (N.of_uint u'))) k')
    as [E' | _]; [ | discriminate].
  cbn [andb] in H, H'.
  destruct (N.of_uint u <? 4294967295)%N; [ | discriminate].
  destruct (N.of_uint u' <? 4294967295)%N; [ | discriminate].
  congruence.
Qed.

Lemma key_before_distinct (k k' : string) : key_before k k' = true -> k <> k'.
Proof.
  unfold key_before. intros H ->.
  destruct (array_index k') as [n | ].
  - rewrite N.ltb_irrefl in H. discriminate.
  - rewrite String.eqb_refl in H. discriminate.
Qed.

Lemma has_key_absent (k : string) (fields : Fields) :
  forallb (fun k0 => key_before k0 k) (map fst fields) = true ->
  has_key k fields = false.
Proof.
  induction fields as [ | [k0 v0] fields IH]; [reflexivity | ].
  cbn. intros H. apply andb_prop in H as [H0 H].
  rewrite (IH H), (proj2 (String.eqb_neq _ _) (@key_before_distinct _ _ H0)).
  reflexivity.
Qed.

Lemma insert_index_last (n : N) (k : string) (v : json num) (fields : Fields) :
  array_index k = Some n ->
  forallb (fun k0 => key_before k0 k) (map fst fields) = true ->
  insert_index n k v fields = (fields ++ [(k, v)])%list.
Proof.
  intros Hk. induction fields as [ | [k0 v0] fields IH]; [reflexivity | ].
  cbn. intros H. apply andb_prop in H as [H0 H].
  unfold key_before in H0. rewrite Hk in H0.
  destruct (array_index k0) as [n0 | ]; [ | discriminate].
  rewrite H0, (IH H). reflexivity.
Qed.

(** A key that comes after all the keys of an object is created last. *)
Lemma CreateDataProperty_last (fields : Fields) (k : string) (v : json num) :
  forallb (fun k0 => key_before k0 k) (map fst fields) = true ->
  CreateDataProperty fields k v = (fields ++ [(k, v)])%list.
Proof.
  intros H. unfold CreateDataProperty. rewrite (@has_key_absent _ _ H).
  destruct (array_index k) as [n | ] eqn:Hk; [ | reflexivity].
  now apply insert_index_last.
Qed.

Lemma ordered_keys_snoc (keys : list string) (k : string) :
  ordered_keys (keys ++ [k]) = true ->
  ordered_keys keys = true /\ forallb (fun k0 => key_before k0 k) keys = true.
Proof.
  induction keys as [ | k0 keys IH]; cbn; [auto | ].
  intros H. apply andb_prop in H as [H0 H].
  rewrite forallb_app in H0. apply andb_prop in H0 as [H0 H1].
  cbn in H1. apply andb_prop in H1 as [H1 _].
  destruct (IH H) as [Ho Hb]. now rewrite H0, Ho, H1, Hb.
Qed.

Lemma ordered_keys_snoc_intro (keys : list string) (k : string) :
  ordered_keys keys = true ->
  forallb (fun k0 => key_before k0 k) keys = true ->
  ordered_keys (keys ++ [k]) = true.
Proof.
  induction keys as [ | k0 keys IH]; cbn; [auto | ].
  intros H Hb. apply andb_prop in H as [H0 H]. apply andb_prop in Hb as [Hb0 Hb].
  rewrite forallb_app, H0, (IH H Hb). cbn. now rewrite Hb0.
Qed.

Lemma overwrite_keys (k : string) (v : json num) (fields : Fields) :
  map fst (overwrite k v fields) = map fst fields.
Proof.
  induction fields as [ | [k0 v0] fields IH]; [reflexivity | ].
  cbn. destruct (String.eqb k0 k); cbn; [reflexivity | now rewrite IH].
Qed.

Lemma key_before_absent (k : string) (fields : Fields) :
  array_index k = None ->
  has_key k fields = false ->
  forallb (fun k0 => key_before k0 k) (map fst fields) = true.
Proof.
  intros Hk. induction fields as [ | [k0 v0] fields IH]; [reflexivity | ].
  cbn. intros H. apply orb_false_elim in H as [H0 H].
  rewrite (IH H). unfold key_before. rewrite Hk.
  destruct (array_index k0); [reflexivity | ]. now rewrite H0.
Qed.

Lemma insert_index_keys (f : string -> bool) (n : N) (k : string) (v : json num)
  (fields : Fields) :
  forallb f (map fst (insert_index n k v fields))
  = f k && forallb f (map fst fields).
Proof.
  induction fields as [ | [k0 v0] fields IH]; [reflexivity | ].
  cbn. destruct (array_index k0) as [n0 | ]; [ | reflexivity].
  destruct (n0 <? n)%N; [ | reflexivity].
  cbn. rewrite IH. destruct (f k0), (f k); reflexivity.
Qed.

(** An array index comes before whatever the keys after it come before. *)
Lemma key_before_index_trans (k k0 k1 : string) (n : N) :
  array_index k = Some n ->
  key_before k k0 = true -> key_before k0 k1 = true -> key_before k k1 = true.
Proof.
  unfold key_before. intros ->.
  destruct (array_index k0) as [n0 | ], (array_index k1) as [n1 | ];
    try reflexivity; try discriminate.
  rewrite !N.ltb_lt. apply N.lt_trans.
Qed.

Lemma insert_index_ordered (n : N) (k : string) (v : json num) (fields : Fields) :
  array_index k = Some n ->
  has_key k fields = false ->
  ordered_keys (map fst fields) = true ->
  ordered_keys (map fst (insert_index n k v fields)) = true.
Proof.
  intros Hk. induction fields as [ | [k0 v0] fields IH]; [reflexivity | ].
  cbn [has_key insert_index map fst ordered_keys].
  intros Habs Hord. apply orb_false_elim in Habs as [Hne Habs].
  apply andb_prop in Hord as [H0 Hord].
  assert (Hfront : key_before k k0 = true ->
            ordered_keys (k :: k0 :: map fst fields) = true).
  { intros Hb. cbn [ordered_keys forallb]. rewrite Hb, H0, Hord.
    rewrite andb_true_r. cbn [andb].
    apply forallb_forall. intros k1 Hin.
    apply (@key_before_index_trans k k0 k1 n Hk Hb).
    now apply (proj1 (forallb_forall _ _) H0). }
  destruct (array_index k0) as [n0 | ] eqn:Hk0.
  - destruct (n0 <? n)%N eqn:Hlt.
    + cbn [map fst ordered_keys].
      rewrite insert_index_keys, H0, (IH Habs Hord), !andb_true_r.
      unfold key_before. now rewrite Hk0, Hk.
    + apply Hfront. unfold key_before. rewrite Hk, Hk0.
      apply N.ltb_lt. apply N.ltb_ge in Hlt.
      destruct (N.eq_dec n0 n) as [E | N]; [ | lia].
      subst n0. rewrite (@array_index_canonical _ _ _ Hk0 Hk), String.eqb_refl in Hne.
      discriminate.
  - apply Hfront. unfold key_before. now rewrite Hk, Hk0.
Qed.

(** [CreateDataProperty] keeps the keys of an object in order. *)
Lemma CreateDataProperty_ordered (fields : Fields) (k : string) (v : json num) :
  ordered_keys (map fst fields) = true ->
  ordered_keys (map fst (CreateDataProperty fields k v)) = true.
Proof.
  intros H. unfold CreateDataProperty.
  destruct (has_key k fields) eqn:Hhas.
  - now rewrite overwrite_keys.
  - destruct (array_index k) as [n | ] eqn:Hk.
    + now apply insert_index_ordered.
    + rewrite map_app. apply ordered_keys_snoc_intro; [exact H | ].
      now apply key_before_absent.
Qed.

Lemma ordered_keys_app_l (l1 l2 : list string) :
  ordered_keys (l1 ++ l2) = true -> ordered_keys l1 = true.
Proof.
  induction l1 as [ | k l1 IH]; [reflexivity | ].
  cbn. intros H. apply andb_prop in H as [H0 H].
  rewrite forallb_app in H0. apply andb_prop in H0 as [H0 _].
  now rewrite H0, (IH H).
Qed.

End Keys.

Section Roundtrip.
Context {num : Type} {NumOps : Number num} {Laws : NumberLaws num}.

Local Abbreviation Value := (json num).
Local Abbreviation Ser := (SerializeJSONProperty (num := num)).

Lemma wrap_cons (opening closing gap stepback indent p : string) (parts : list string) :
  wrap opening closing gap stepback indent (p :: parts)
  = opening ++ inner gap indent
    ++ join (String "," (inner gap indent)) (p :: parts)
    ++ inner gap stepback ++ closing.
Proof.
  unfold wrap, inner. destruct (truthy gap).
  - now rewrite !append_assoc.
  - reflexivity.
Qed.

Lemma spaces_only_inner (gap indent : string) :
  spaces_only indent = true -> spaces_only (inner gap indent) = true.
Proof. unfold inner. destruct (truthy gap); auto. Qed.

Lemma skip_ws_head (c : ascii) (s : string) :
  is_json_space c = false -> skip_ws (String c s) = String c s.
Proof. cbn. now intros ->. Qed.

(** A serialized value starts with a character that is neither white
    space nor a closing bracket. *)
Lemma ser_head (gap indent : string) (v : Value) :
  exists c s,
    Ser gap indent v = String c s
    /\ is_json_space c = false
    /\ Ascii.eqb c "]" = false /\ Ascii.eqb c "}" = false.
Proof.
  destruct v as [ | [ | ] | n | str | items | fields | [ | | ]];
    cbn [SerializeJSONProperty].
  1-3, 8-10: eexists; eexists; split; [reflexivity | repeat split].
  - destruct (toString_start n) as (c & s & -> & Hc).
    exists c, s. split; [reflexivity | ].
    destruct (number_start_dispatch c Hc) as (? & _ & _ & _ & _ & _ & _ & ? & ?).
    auto.
  - eexists; eexists; split; [reflexivity | repeat split].
  - destruct (map _ items); [ | rewrite wrap_cons];
      eexists; eexists; (split; [reflexivity | repeat split]).
  - destruct (map _ fields); [ | rewrite wrap_cons];
      eexists; eexists; (split; [reflexivity | repeat split]).
Qed.

(** Arithmetic on the budget, with the sums of weights unfolded. *)
Ltac budget :=
  unfold list_sum in *; cbn [map fold_right] in *; lia.

Lemma parse_value_eq (fuel : nat) (s : string) :
  parse_value (num := num) (S fuel) s
  = match skip_ws s with
    | EmptyString => Bad
    | String c r =>
        if Ascii.eqb c "{" then
          match skip_ws r with
          | String c' r' =>
              if Ascii.eqb c' "}" then Parsed (JObj []) r'
              else parse_members fuel r []
          | EmptyString => Bad
          end
        else if Ascii.eqb c "[" then
          match skip_ws r with
          | String c' r' =>
              if Ascii.eqb c' "]" then Parsed (JArr []) r'
              else parse_elements fuel r []
          | EmptyString => Bad
          end
        else if Ascii.eqb c DQUOTE then
          match parse_chars r with
          | Some (str, rest) => Parsed (JStr str) rest
          | None => Bad
          end
        else if Ascii.eqb c "t" then
          match after "rue" r with
          | Some rest => Parsed (JBool true) rest
          | None => Bad
          end
        else if Ascii.eqb c "f" then
          match after "alse" r with
          | Some rest => Parsed (JBool false) rest
          | None => Bad
          end
        else if Ascii.eqb c "n" then
          match after "ull" r with
          | Some rest => Parsed JNull rest
          | None => Bad
          end
        else if number_start c then
          match parse_number (String c r) with
          | Some (n, rest) => Parsed (JNum n) rest
          | None =>
              match parse_special (String c r) with
              | Some (x, rest) => Parsed (JSpecial x) rest
              | None => Bad
              end
          end
        else Bad
    end.
Proof. reflexivity. Qed.

Lemma parse_elements_eq (fuel : nat) (s : string) (acc : list Value) :
  parse_elements (S fuel) s acc
  = match parse_value fuel s with
    | Parsed v rest =>
        match skip_ws rest with
        | String c r =>
            if Ascii.eqb c "," then parse_elements fuel r (v :: acc)
            else if Ascii.eqb c "]" then Parsed (JArr (List.rev (v :: acc))) r
            else Bad
        | EmptyString => Bad
        end
    | Bad => Bad
    | Starved => Starved
    end.
Proof. reflexivity. Qed.

Lemma parse_members_eq (fuel : nat) (s : string) (acc : list (string * Value)) :
  parse_members (S fuel) s acc
  = match skip_ws s with
    | String q r =>
        if Ascii.eqb q DQUOTE then
          match parse_chars r with
          | Some (k, rest) =>
              match skip_ws rest with
              | String colon r' =>
                  if Ascii.eqb colon ":" then
                    match parse_value fuel r' with
                    | Parsed v rest' =>
                        let acc' := CreateDataProperty acc k v in
                        match skip_ws rest' with
                        | String c r'' =>
                            if Ascii.eqb c "," then parse_members fuel r'' acc'
                            else if Ascii.eqb c "}" then Parsed (JObj acc') r''
                            else Bad
                        | EmptyString => Bad
                        end
                    | Bad => Bad
                    | Starved => Starved
                    end
                  else Bad
              | EmptyString => Bad
              end
          | None => Bad
          end
        else Bad
    | EmptyString => Bad
    end.
Proof. reflexivity. Qed.

(** The elements of an array, as [wrap] joins them, read back. *)
Lemma parse_elements_join (gap indent ws1 ws2 : string) :
  spaces_only gap = true ->
  spaces_only indent = true ->
  spaces_only ws1 = true ->
  spaces_only ws2 = true ->
  forall items : list Value,
    Forall reads_back items ->
    forall (x : Value) (acc : list Value) (fuel : nat) (rest : string),
      reads_back x ->
      S (weight x) + list_sum (map (fun y => S (weight y)) items) <= fuel ->
      readable x = true ->
      forallb readable items = true ->
      parse_elements fuel
        (ws1 ++ join (String "," ws1) (map (Ser gap indent) (x :: items))
         ++ ws2 ++ String "]" rest) acc
      = Parsed (JArr (List.rev acc ++ x :: items)%list) rest.
Proof.
  intros Hgap Hind Hws1 Hws2 items Hall.
  induction Hall as [ | y items Hy Hall IH];
    intros x acc fuel rest Hx Hfuel Hwfx Hwf.
  - destruct fuel as [ | fuel]; [budget | ].
    rewrite parse_elements_eq. cbn [map join].
    rewrite (Hx gap indent ws1 fuel (ws2 ++ String "]" rest) Hgap Hind Hws1);
      [ | budget | exact Hwfx | now apply delimited_spaces].
    rewrite (@skip_ws_spaces ws2 _ Hws2). reflexivity.
  - destruct fuel as [ | fuel]; [budget | ].
    rewrite parse_elements_eq.
    change (map (Ser gap indent) (x :: y :: items))
      with (Ser gap indent x :: map (Ser gap indent) (y :: items)).
    change (join (String "," ws1)
              (Ser gap indent x :: map (Ser gap indent) (y :: items)))
      with (Ser gap indent x ++ String "," ws1
            ++ join (String "," ws1) (map (Ser gap indent) (y :: items))).
    rewrite !append_assoc. cbn [append].
    rewrite (Hx gap indent ws1 fuel _ Hgap Hind Hws1);
      [ | budget | exact Hwfx | reflexivity].
    cbn [skip_ws is_json_space]. change (is_json_space ",") with false. cbn iota.
    change (Ascii.eqb "," ",") with true. cbn iota.
    cbn [forallb] in Hwf. apply andb_prop in Hwf as [Hwfy Hwf].
    rewrite (IH y (x :: acc) fuel rest Hy); [ | budget | exact Hwfy | exact Hwf].
    cbn [List.rev]. rewrite <- app_assoc. reflexivity.
Qed.

(** The members of an object, as [wrap] joins them, read back. *)
Lemma parse_members_join (gap indent ws1 ws2 : string) :
  spaces_only gap = true ->
  spaces_only indent = true ->
  spaces_only ws1 = true ->
  spaces_only ws2 = true ->
  forall fields : list (string * Value),
    Forall (fun kv => reads_back (snd kv)) fields ->
    forall (k : string) (x : Value) (acc : list (string * Value)) (fuel : nat)
           (rest : string),
      reads_back x ->
      S (weight x)
      + list_sum (map (fun kv => match kv with (_, y) => S (weight y) end) fields)
      <= fuel ->
      readable x = true ->
      forallb (fun kv => match kv with (_, y) => readable y end) fields = true ->
      ordered_keys (map fst (acc ++ (k, x) :: fields)%list) = true ->
      parse_members fuel
        (ws1 ++ join (String "," ws1) (map (member_text gap indent) ((k, x) :: fields))
         ++ ws2 ++ String "}" rest) acc
      = Parsed (JObj (acc ++ (k, x) :: fields)%list) rest.
Proof.
  intros Hgap Hind Hws1 Hws2 fields Hall.
  assert (Hsp : spaces_only (if truthy gap then " " else "") = true)
    by (destruct (truthy gap); reflexivity).
  induction Hall as [ | [k' y] fields Hy Hall IH];
    intros k x acc fuel rest Hx Hfuel Hwfx Hwf Hord.
  - destruct fuel as [ | fuel]; [budget | ].
    rewrite parse_members_eq. cbn [map join member_text]. unfold QuoteJSONString.
    rewrite !append_assoc. cbn [append]. rewrite !append_assoc. cbn [append].
    rewrite (@skip_ws_spaces ws1 _ Hws1), (@skip_ws_head DQUOTE _ eq_refl).
    rewrite Ascii.eqb_refl, parse_chars_quote_body.
    rewrite (@skip_ws_head ":" _ eq_refl), Ascii.eqb_refl.
    rewrite (Hx gap indent _ fuel (ws2 ++ String "}" rest) Hgap Hind Hsp);
      [ | budget | exact Hwfx | now apply delimited_spaces].
    cbv zeta. rewrite (@skip_ws_spaces ws2 _ Hws2).
    rewrite CreateDataProperty_last; [reflexivity | ].
    rewrite map_app in Hord. now apply ordered_keys_snoc in Hord.
  - destruct fuel as [ | fuel]; [budget | ].
    rewrite parse_members_eq.
    change (map (member_text gap indent) ((k, x) :: (k', y) :: fields))
      with (member_text gap indent (k, x)
            :: map (member_text gap indent) ((k', y) :: fields)).
    change (join (String "," ws1)
              (member_text gap indent (k, x)
               :: map (member_text gap indent) ((k', y) :: fields)))
      with (member_text gap indent (k, x) ++ String "," ws1
            ++ join (String "," ws1) (map (member_text gap indent) ((k', y) :: fields))).
    cbn [member_text]. unfold QuoteJSONString.
    rewrite !append_assoc. cbn [append]. rewrite !append_assoc. cbn [append].
    rewrite (@skip_ws_spaces ws1 _ Hws1), (@skip_ws_head DQUOTE _ eq_refl).
    rewrite Ascii.eqb_refl, parse_chars_quote_body.
    rewrite (@skip_ws_head ":" _ eq_refl), Ascii.eqb_refl.
    rewrite (Hx gap indent _ fuel _ Hgap Hind Hsp);
      [ | budget | exact Hwfx | reflexivity].
    cbv zeta. rewrite (@skip_ws_head "," _ eq_refl).
    change (Ascii.eqb "," ",") with true. cbv iota.
    assert (Hsplit : map fst (acc ++ (k, x) :: (k', y) :: fields)%list
                     = ((map fst acc ++ [k]) ++ map fst ((k', y) :: fields))%list).
    { rewrite map_app, <- app_assoc. reflexivity. }
    rewrite CreateDataProperty_last.
    + cbn [forallb] in Hwf. apply andb_prop in Hwf as [Hwfy Hwf].
      rewrite (IH k' y (acc ++ [(k, x)])%list fuel rest Hy);
        [ | budget | exact Hwfy | exact Hwf | ].
      * rewrite <- app_assoc. reflexivity.
      * rewrite <- app_assoc. exact Hord.
    + rewrite Hsplit in Hord. apply ordered_keys_app_l in Hord.
      now apply ordered_keys_snoc in Hord.
Qed.

(** Any value of the model reads back from its serialization. *)
Theorem parse_value_serialized (v : Value) : reads_back v.
Proof.
  induction v as [ | b | n | str | items IH | fields IH | x] using json_nested_ind;
    intros gap indent pre fuel rest Hgap Hind Hpre Hfuel Hwf Hrest;
    [ | | | | | | discriminate Hwf];
    (destruct fuel as [ | fuel]; [cbn in Hfuel; lia | ]);
    rewrite parse_value_eq, (@skip_ws_spaces pre _ Hpre).
  - reflexivity.
  - destruct b; reflexivity.
  - cbn [SerializeJSONProperty].
    destruct (toString_start n) as (c & s & E & Hc).
    destruct (number_start_dispatch c Hc)
      as (Hsp & H1 & H2 & H3 & H4 & H5 & H6 & _ & _).
    rewrite E. cbn [append]. rewrite (@skip_ws_head c _ Hsp).
    rewrite H1, H2, H3, H4, H5, H6, Hc.
    change (String c (s ++ rest)) with (String c s ++ rest).
    rewrite <- E, (parse_toString n rest Hrest). reflexivity.
  - cbn [SerializeJSONProperty]. unfold QuoteJSONString.
    cbn [append]. rewrite append_assoc. cbn [append].
    rewrite (@skip_ws_head DQUOTE _ eq_refl).
    change (Ascii.eqb DQUOTE "{") with false.
    change (Ascii.eqb DQUOTE "[") with false.
    rewrite Ascii.eqb_refl. cbv iota.
    rewrite parse_chars_quote_body. reflexivity.
  - cbn [SerializeJSONProperty].
    destruct items as [ | x items]; [reflexivity | ].
    cbn [map]. rewrite wrap_cons.
    rewrite !append_assoc. cbn [append].
    rewrite (@skip_ws_head "[" _ eq_refl).
    change (Ascii.eqb "[" "{") with false. change (Ascii.eqb "[" "[") with true.
    cbv iota.
    assert (Hin : spaces_only (inner gap (indent ++ gap)) = true)
      by (apply spaces_only_inner; now apply spaces_only_append).
    rewrite (@skip_ws_spaces _ _ Hin).
    destruct (ser_head gap (indent ++ gap) x) as (c & s & E & Hsp & Hc & _).
    change (map (Ser gap (indent ++ gap)) items)
      with (map (Ser gap (indent ++ gap)) items).
    assert (Hjoin : exists t,
      join (String "," (inner gap (indent ++ gap)))
        (Ser gap (indent ++ gap) x :: map (Ser gap (indent ++ gap)) items)
      ++ inner gap indent ++ String "]" rest = String c t).
    { destruct (map (Ser gap (indent ++ gap)) items); cbn [join];
        rewrite E; cbn [append]; eauto. }
    destruct Hjoin as [t Hjoin].
    rewrite Hjoin, (@skip_ws_head c _ Hsp), Hc, <- Hjoin.
    inversion IH as [ | ? ? Hx Hitems]; subst.
    cbn [readable forallb] in Hwf. apply andb_prop in Hwf as [Hwfx Hwf].
    change (Ser gap (indent ++ gap) x :: map (Ser gap (indent ++ gap)) items)
      with (map (Ser gap (indent ++ gap)) (x :: items)).
    rewrite (@parse_elements_join gap (indent ++ gap) _ (inner gap indent) Hgap
               (spaces_only_append _ _ Hind Hgap) Hin (spaces_only_inner gap _ Hind)
               items Hitems x [] fuel rest Hx);
      [reflexivity | cbn [weight] in Hfuel; budget | exact Hwfx | exact Hwf].
  - cbn [SerializeJSONProperty].
    destruct fields as [ | [k x] fields]; [reflexivity | ].
    change (map _ ((k, x) :: fields))
      with (map (member_text gap (indent ++ gap)) ((k, x) :: fields)).
    cbn [map]. rewrite wrap_cons.
    rewrite !append_assoc. cbn [append].
    rewrite (@skip_ws_head "{" _ eq_refl).
    change (Ascii.eqb "{" "{") with true. cbv iota.
    assert (Hin : spaces_only (inner gap (indent ++ gap)) = true)
      by (apply spaces_only_inner; now apply spaces_only_append).
    rewrite (@skip_ws_spaces _ _ Hin).
    assert (Hjoin : exists t,
      join (String "," (inner gap (indent ++ gap)))
        (member_text gap (indent ++ gap) (k, x)
         :: map (member_text gap (indent ++ gap)) fields)
      ++ inner gap indent ++ String "}" rest = String DQUOTE t).
    { destruct (map (member_text gap (indent ++ gap)) fields);
        cbn [join member_text]; unfold QuoteJSONString; cbn [append]; eauto. }
    destruct Hjoin as [t Hjoin].
    rewrite Hjoin, (@skip_ws_head DQUOTE _ eq_refl).
    change (Ascii.eqb DQUOTE "}") with false. cbv iota. rewrite <- Hjoin.
    inversion IH as [ | ? ? Hx Hfields]; subst. cbn [snd] in Hx.
    cbn [readable] in Hwf. apply andb_prop in Hwf as [Hord Hwf].
    cbn [forallb] in Hwf. apply andb_prop in Hwf as [Hwfx Hwf].
    change (member_text gap (indent ++ gap) (k, x)
            :: map (member_text gap (indent ++ gap)) fields)
      with (map (member_text gap (indent ++ gap)) ((k, x) :: fields)).
    rewrite (@parse_members_join gap (indent ++ gap) _ (inner gap indent) Hgap
               (spaces_only_append _ _ Hind Hgap) Hin (spaces_only_inner gap _ Hind)
               fields Hfields k x [] fuel rest Hx);
      [reflexivity | cbn [weight] in Hfuel; budget | exact Hwfx | exact Hwf | exact Hord].
Qed.

Lemma join_length (c : ascii) (ws : string) (parts : list string) :
  list_sum (map (fun p => S (String.length p)) parts)
  <= S (String.length (join (String c ws) parts)).
Proof.
  induction parts as [ | p [ | q parts] IH].
  - cbn. lia.
  - cbn. lia.
  - change (join (String c ws) (p :: q :: parts))
      with (p ++ String c ws ++ join (String c ws) (q :: parts)).
    rewrite !length_append.
    change (list_sum (map (fun p0 => S (String.length p0)) (p :: q :: parts)))
      with (S (String.length p)
            + list_sum (map (fun p0 => S (String.length p0)) (q :: parts))).
    cbn [String.length]. lia.
Qed.

(** The budget a value asks for is no more than the length of its text. *)
Lemma weight_le_length (v : Value) :
  forall gap indent, weight v <= String.length (Ser gap indent v).
Proof.
  induction v as [ | b | n | str | items IH | fields IH | x] using json_nested_ind;
    intros gap indent; cbn [SerializeJSONProperty weight];
    [ | | | | | | destruct x; cbn; lia].
  - cbn. lia.
  - destruct b; cbn; lia.
  - destruct (toString_start n) as (c & s & -> & _). cbn. lia.
  - cbn. lia.
  - assert (Hsum :
      list_sum (map (fun x => S (weight x)) items)
      <= list_sum (map (fun p => S (String.length p))
                     (map (Ser gap (indent ++ gap)) items))).
    { induction IH as [ | x items Hx _ IH']; [cbn; lia | ].
      specialize (Hx gap (indent ++ gap)). budget. }
    destruct (map (Ser gap (indent ++ gap)) items) as [ | p parts].
    + cbn in *. lia.
    + rewrite wrap_cons, !length_append.
      pose proof (join_length "," (inner gap (indent ++ gap)) (p :: parts)).
      cbn [String.length]. lia.
  - set (member := fun kv : string * Value =>
                     match kv with
                     | (k, x) =>
                         QuoteJSONString k ++ ":" ++ (if truthy gap then " " else "")
                         ++ Ser gap (indent ++ gap) x
                     end).
    assert (Hsum :
      list_sum (map (fun kv => match kv with (_, x) => S (weight x) end) fields)
      <= list_sum (map (fun p => S (String.length p)) (map member fields))).
    { induction IH as [ | [k x] fields Hx _ IH']; [cbn; lia | ].
      specialize (Hx gap (indent ++ gap)). cbn [snd] in Hx.
      assert (String.length (Ser gap (indent ++ gap) x) <= String.length (member (k, x))).
      { unfold member. rewrite !length_append. lia. }
      budget. }
    destruct (map member fields) as [ | p parts].
    + cbn in *. lia.
    + rewrite wrap_cons, !length_append.
      pose proof (join_length "," (inner gap (indent ++ gap)) (p :: parts)).
      cbn [String.length]. lia.
Qed.

(** [JSON.parse(JSON.stringify(v, null, gap))] is [v], for a value
    without an infinity or a negative zero. *)
Theorem JSON_parse_serialized (gap : string) (v : Value) :
  spaces_only gap = true ->
  readable v = true ->
  JSON_parse (Ser gap "" v) = Normal v.
Proof.
  intros Hgap Hwf. unfold JSON_parse.
  pose proof (weight_le_length v gap "") as Hlen.
  pose proof (@parse_value_serialized v gap "" ""
                (2 * String.length (Ser gap "" v) + 2) "" Hgap eq_refl eq_refl) as H.
  cbn [append] in H. rewrite append_nil_r in H.
  rewrite H; [reflexivity | lia | exact Hwf | reflexivity].
Qed.

Corollary JSON_parse_stringify (v : Value) :
  readable v = true -> JSON_parse (JSON_stringify v) = Normal v.
Proof. now apply JSON_parse_serialized. Qed.

Corollary JSON_parse_stringify_indented (v : Value) (space : nat) :
  readable v = true -> JSON_parse (JSON_stringify_indented v space) = Normal v.
Proof. apply JSON_parse_serialized. apply spaces_only_spaces. Qed.

Lemma forallb_rev {A : Type} (f : A -> bool) (l : list A) :
  forallb f (List.rev l) = forallb f l.
Proof.
  induction l as [ | x l IH]; [reflexivity | ].
  cbn. rewrite forallb_app, IH. cbn. destruct (f x), (forallb f l); reflexivity.
Qed.

Local Abbreviation wf_value := (fun kv : string * Value => match kv with (_, x) => wf_json x end).

Lemma overwrite_values (k : string) (v : Value) (fields : list (string * Value)) :
  wf_json v = true ->
  forallb wf_value fields = true ->
  forallb wf_value (overwrite k v fields) = true.
Proof.
  intros Hv. induction fields as [ | [k0 v0] fields IH]; [reflexivity | ].
  cbn. intros H. apply andb_prop in H as [H0 H].
  destruct (String.eqb k0 k); cbn.
  - now rewrite Hv, H.
  - now rewrite H0, (IH H).
Qed.

Lemma insert_index_values (n : N) (k : string) (v : Value)
  (fields : list (string * Value)) :
  wf_json v = true ->
  forallb wf_value fields = true ->
  forallb wf_value (insert_index n k v fields) = true.
Proof.
  intros Hv. induction fields as [ | [k0 v0] fields IH]; cbn.
  - now rewrite Hv.
  - intros H. pose proof H as H'. apply andb_prop in H as [H0 H].
    destruct (array_index k0) as [n0 | ]; [destruct (n0 <? n)%N | ]; cbn.
    + now rewrite H0, (IH H).
    + now rewrite Hv, H0, H.
    + now rewrite Hv, H0, H.
Qed.

(** [CreateDataProperty] keeps an object a value of JavaScript. *)
Lemma CreateDataProperty_wf (fields : list (string * Value)) (k : string) (v : Value) :
  wf_json (JObj fields) = true ->
  wf_json v = true ->
  wf_json (JObj (CreateDataProperty fields k v)) = true.
Proof.
  cbn [wf_json]. intros H Hv. apply andb_prop in H as [Hord Hall].
  rewrite (CreateDataProperty_ordered fields k v Hord). cbn [andb].
  unfold CreateDataProperty.
  destruct (has_key k fields); [now apply overwrite_values | ].
  destruct (array_index k) as [n | ]; [now apply insert_index_values | ].
  rewrite forallb_app, Hall. cbn. now rewrite Hv.
Qed.

(** Case analysis on the [match] and [if] the result of a parser hangs
    on. *)
Ltac crack H :=
  repeat match type of H with
    | match ?x with _ => _ end = _ => destruct x eqn:?; try discriminate H
    | (if ?b then _ else _) = _ => destruct b eqn:?; try discriminate H
    end.

(** What the parser returns is a value of JavaScript. *)
Lemma parser_wf (fuel : nat) :
  (forall s v rest, parse_value (num := num) fuel s = Parsed v rest -> wf_json v = true)
  /\ (forall s acc v rest,
         forallb wf_json acc = true ->
         parse_elements fuel s acc = Parsed v rest -> wf_json v = true)
  /\ (forall s acc v rest,
         wf_json (JObj acc) = true ->
         parse_members fuel s acc = Parsed v rest -> wf_json v = true).
Proof.
  induction fuel as [ | fuel (IHv & IHe & IHm)].
  - repeat split; intros; discriminate.
  - repeat split.
    + intros s v rest H. rewrite parse_value_eq in H. crack H;
        try (injection H as <- <-; reflexivity).
      * apply (IHm _ [] _ _ eq_refl H).
      * apply (IHe _ [] _ _ eq_refl H).
    + intros s acc v rest Hacc H. rewrite parse_elements_eq in H.
      destruct (parse_value fuel s) as [v0 rest0 | | ] eqn:Hv0; try discriminate H.
      apply IHv in Hv0. crack H.
      * apply (IHe _ (v0 :: acc) _ _) in H; [exact H | ]. cbn. now rewrite Hv0.
      * injection H as <- <-.
        change (forallb wf_json (List.rev (v0 :: acc)) = true).
        rewrite forallb_rev. cbn [forallb]. now rewrite Hv0.
    + intros s acc v rest Hacc H. rewrite parse_members_eq in H.
      cbv zeta in H. crack H.
      all: match goal with
           | Hp : parse_value _ _ = Parsed _ _ |- _ => apply IHv in Hp
           end.
      * eapply IHm; [ | exact H]. now apply CreateDataProperty_wf.
      * injection H as <- <-. now apply CreateDataProperty_wf.
Qed.

Lemma JSON_parse_wf (text : string) (v : Value) :
  JSON_parse text = Normal v -> wf_json v = true.
Proof.
  unfold JSON_parse. intros H.
  destruct (parse_value _ text) as [v0 rest | | ] eqn:Hp; try discriminate H.
  destruct (skip_ws rest); [ | discriminate H].
  injection H as <-. apply (proj1 (parser_wf _) _ _ _ Hp).
Qed.

(** An infinity is written as [null] and a negative zero as [0]: a value
    and the value its text denotes have the same text. *)
Lemma serialize_reread (v : Value) :
  forall gap indent, Ser gap indent (reread v) = Ser gap indent v.
Proof.
  induction v as [ | b | n | str | items IH | fields IH | x] using json_nested_ind;
    intros gap indent; try reflexivity.
  - cbn [reread SerializeJSONProperty]. f_equal. rewrite map_map.
    induction IH as [ | y items Hy _ IH']; [reflexivity | ].
    cbn [map]. now rewrite Hy, IH'.
  - cbn [reread SerializeJSONProperty]. f_equal. rewrite map_map.
    induction IH as [ | [k y] fields Hy _ IH']; [reflexivity | ].
    cbn [map snd] in *. now rewrite Hy, IH'.
  - destruct x; try reflexivity. cbn. apply toString_zero.
Qed.

Lemma readable_reread (v : Value) : wf_json v = true -> readable (reread v) = true.
Proof.
  induction v as [ | b | n | str | items IH | fields IH | x] using json_nested_ind;
    try reflexivity.
  - cbn [wf_json reread readable].
    induction IH as [ | y items Hy _ IH']; [reflexivity | ].
    cbn [forallb map]. intros H. apply andb_prop in H as [H1 H2].
    now rewrite (Hy H1), (IH' H2).
  - cbn [wf_json reread readable]. intros H. apply andb_prop in H as [Hord H].
    rewrite map_map.
    replace (map (fun kv : string * Value =>
                    fst (let (k, y) := kv in (k, reread y))) fields)
      with (map fst fields)
      by (apply map_ext; now intros [k y]).
    rewrite Hord. cbn [andb]. clear Hord.
    induction IH as [ | [k y] fields Hy _ IH']; [reflexivity | ].
    cbn [forallb map snd] in *. apply andb_prop in H as [H1 H2].
    now rewrite (Hy H1), (IH' H2).
  - now destruct x.
Qed.

(** The values that read back as they are: those without an infinity or
    a negative zero. *)
Lemma reread_exact (v : Value) : reread v = v <-> exact v = true.
Proof.
  induction v as [ | b | n | str | items IH | fields IH | x] using json_nested_ind;
    try (split; reflexivity).
  - cbn [reread exact]. split.
    + intros [= H]. induction IH as [ | y items Hy _ IH']; [reflexivity | ].
      cbn [map forallb] in *. injection H as H1 H2.
      now rewrite (proj1 Hy H1), (IH' H2).
    + intros H. f_equal. induction IH as [ | y items Hy _ IH']; [reflexivity | ].
      cbn [map forallb] in *. apply andb_prop in H as [H1 H2].
      now rewrite (proj2 Hy H1), (IH' H2).
  - cbn [reread exact]. split.
    + intros [= H]. induction IH as [ | [k y] fields Hy _ IH']; [reflexivity | ].
      cbn [map forallb snd] in *. injection H as H1 H2.
      now rewrite (proj1 Hy H1), (IH' H2).
    + intros H. f_equal. induction IH as [ | [k y] fields Hy _ IH']; [reflexivity | ].
      cbn [map forallb snd] in *. apply andb_prop in H as [H1 H2].
      now rewrite (proj2 Hy H1), (IH' H2).
  - split; [destruct x; discriminate | discriminate].
Qed.

(** [JSON.parse(JSON.stringify(v, null, gap))] is [v] with [null] for
    each infinity and [0] for each negative zero. *)
Theorem JSON_parse_reread (gap : string) (v : Value) :
  spaces_only gap = true ->
  wf_json v = true ->
  JSON_parse (Ser gap "" v) = Normal (reread v).
Proof.
  intros Hgap Hwf. rewrite <- serialize_reread.
  apply JSON_parse_serialized; [exact Hgap | now apply readable_reread].
Qed.

Lemma skip_ws_length (s : string) : String.length (skip_ws s) <= String.length s.
Proof.
  induction s as [ | c s IH]; cbn; [lia | ].
  destruct (is_json_space c); cbn; lia.
Qed.

Lemma skip_ws_step (s : string) (c : ascii) (r : string) :
  skip_ws s = String c r -> S (String.length r) <= String.length s.
Proof.
  intros H. pose proof (skip_ws_length s) as L. rewrite H in L. exact L.
Qed.

Lemma after_length (lit s rest : string) :
  after lit s = Some rest -> String.length rest <= String.length s.
Proof.
  revert s. induction lit as [ | a lit IH]; intros [ | b s]; cbn; try discriminate.
  - intros [= <-]. cbn. lia.
  - intros [= <-]. cbn. lia.
  - destruct (Ascii.eqb a b); [ | discriminate]. intros H. apply IH in H. lia.
Qed.

Lemma push_some (prefix : string) (o : option (string * string)) (k rest : string) :
  push prefix o = Some (k, rest) -> exists k', o = Some (k', rest).
Proof.
  destruct o as [[k' rest'] | ]; cbn; [ | discriminate].
  intros [= _ <-]. eauto.
Qed.

(** What is left after a string is part of the text. *)
Lemma parse_chars_length (n : nat) :
  forall s k rest,
    String.length s <= n ->
    parse_chars s = Some (k, rest) ->
    String.length rest <= String.length s.
Proof.
  induction n as [ | n IH]; intros s k rest Hn H.
  - destruct s; [discriminate H | cbn in Hn; lia].
  - destruct s as [ | c s]; [discriminate H | ].
    cbn [parse_chars] in H. crack H;
      try (injection H as <- <-; cbn; lia);
      apply push_some in H as [k' H];
      apply IH in H; cbn [String.length] in *; lia.
Qed.

Lemma parse_chars_step (s k rest : string) :
  parse_chars s = Some (k, rest) -> String.length rest <= String.length s.
Proof. intros H. eapply parse_chars_length; [apply le_n | exact H]. Qed.

(** Turn what the hypotheses say of the parts of the text into
    inequalities between their lengths. *)
Ltac lengths :=
  repeat match goal with
    | H : skip_ws _ = String _ _ |- _ => apply skip_ws_step in H
    | H : after _ _ = Some _ |- _ => apply after_length in H
    | H : parse_chars _ = Some _ |- _ => apply parse_chars_step in H
    | H : parse_number _ = Some _ |- _ => apply parse_number_rest in H
    | H : parse_special _ = Some _ |- _ => apply parse_special_rest in H
    end;
  cbn [String.length] in *.

(** What is left after a value is part of the text. *)
Lemma parser_length (fuel : nat) :
  (forall s v rest,
      parse_value (num := num) fuel s = Parsed v rest ->
      String.length rest <= String.length s)
  /\ (forall s acc v rest,
         parse_elements fuel s acc = Parsed v rest ->
         String.length rest <= String.length s)
  /\ (forall s acc v rest,
         parse_members fuel s acc = Parsed v rest ->
         String.length rest <= String.length s).
Proof.
  induction fuel as [ | fuel (IHv & IHe & IHm)].
  - repeat split; intros; discriminate.
  - repeat split.
    + intros s v rest H. rewrite parse_value_eq in H. crack H;
        try (injection H as <- <-);
        try (apply IHm in H); try (apply IHe in H);
        lengths; lia.
    + intros s acc v rest H. rewrite parse_elements_eq in H.
      destruct (parse_value fuel s) as [v0 rest0 | | ] eqn:Hv0; try discriminate H.
      apply IHv in Hv0. crack H;
        try (injection H as <- <-); try (apply IHe in H); lengths; lia.
    + intros s acc v rest H. rewrite parse_members_eq in H.
      cbv zeta in H. crack H.
      all: match goal with
           | Hp : parse_value _ _ = Parsed _ _ |- _ => apply IHv in Hp
           end.
      all: try (injection H as <- <-); try (apply IHm in H); lengths; lia.
Qed.

(** The budget [JSON_parse] starts with is never used up: a text is
    rejected for its syntax alone. *)
Lemma parser_never_starved (fuel : nat) :
  (forall s, 2 * String.length s + 2 <= fuel ->
             parse_value (num := num) fuel s <> Starved)
  /\ (forall s acc, 2 * String.length s + 3 <= fuel ->
                    parse_elements fuel s acc <> Starved)
  /\ (forall s acc, 2 * String.length s + 3 <= fuel ->
                    parse_members fuel s acc <> Starved).
Proof.
  induction fuel as [ | fuel (IHv & IHe & IHm)].
  - repeat split; intros; lia.
  - repeat split.
    + intros s Hs H. rewrite parse_value_eq in H. crack H.
      * apply IHm in H; [exact H | lengths; lia].
      * apply IHe in H; [exact H | lengths; lia].
    + intros s acc Hs H. rewrite parse_elements_eq in H.
      destruct (parse_value fuel s) as [v0 rest0 | | ] eqn:Hv0; try discriminate H.
      * apply (proj1 (parser_length fuel)) in Hv0. crack H.
        apply IHe in H; [exact H | lengths; lia].
      * apply IHv in Hv0; [exact Hv0 | lia].
    + intros s acc Hs H. rewrite parse_members_eq in H.
      cbv zeta in H. crack H.
      * match goal with
        | Hp : parse_value _ _ = Parsed _ _ |- _ =>
            apply (proj1 (parser_length fuel)) in Hp
        end.
        apply IHm in H; [exact H | lengths; lia].
      * match goal with
        | Hp : parse_value _ _ = Starved |- _ => apply IHv in Hp; [exact Hp | ]
        end.
        lengths. lia.
Qed.

Theorem JSON_parse_never_starved (text : string) :
  parse_value (num := num) (2 * String.length text + 2) text <> Starved.
Proof. apply (proj1 (parser_never_starved _)). lia. Qed.

End Roundtrip.

End JsonFacts.

(** ** The integers as numbers *)

Module PlatformFacts.
Import JsString Json JsonParse Platform StringFacts JsonFacts.

Lemma uint_beq_refl (u : uint) : uint_beq u u = true.
Proof. induction u; cbn; auto. Qed.

Lemma digit_of_not_number_char (c : ascii) :
  number_char c = false ->
  digit_of c = None
  /\ Ascii.eqb c "." = false /\ Ascii.eqb c "e" = false /\ Ascii.eqb c "E" = false.
Proof.
  each_char c; vm_compute; intros H; first [discriminate H | repeat split].
Qed.

Lemma read_digits_numeral (u : uint) (rest : string) :
  delimited rest = true ->
  read_digits (NilEmpty.string_of_uint u ++ rest) = (u, rest).
Proof.
  intros Hrest. induction u as [ | u IH | u IH | u IH | u IH | u IH | u IH | u IH
                               | u IH | u IH | u IH].
  2-11: cbn [NilEmpty.string_of_uint append read_digits]; rewrite IH; reflexivity.
  cbn [NilEmpty.string_of_uint append].
  destruct rest as [ | c r]; [reflexivity | ].
  cbn in Hrest. apply negb_true_iff in Hrest.
  destruct (digit_of_not_number_char c Hrest) as [Hd _].
  cbn. now rewrite Hd.
Qed.

Lemma to_uint_normal (p : positive) : unorm (Pos.to_uint p) = Pos.to_uint p.
Proof.
  rewrite <- (DecimalPos.Unsigned.to_of (Pos.to_uint p)).
  now rewrite DecimalPos.Unsigned.of_to.
Qed.

(** The numeral of a positive number: digits, the first of them not a
    minus sign, and not empty. *)
Lemma numeral_head (p : positive) :
  exists c s,
    NilZero.string_of_uint (Pos.to_uint p) = String c s
    /\ NilZero.string_of_uint (Pos.to_uint p) = NilEmpty.string_of_uint (Pos.to_uint p)
    /\ is_digit c = true /\ Ascii.eqb c "-" = false.
Proof.
  pose proof (DecimalPos.Unsigned.to_uint_nonnil p) as Hnn.
  destruct (Pos.to_uint p) as [ | u | u | u | u | u | u | u | u | u | u];
    [congruence | .. ];
    eexists; eexists; repeat split.
Qed.

Lemma Z_parse_digits (negative : bool) (u : uint) (rest : string) :
  u <> Nil ->
  unorm u = u ->
  delimited rest = true ->
  (let (u', rest') := read_digits (NilEmpty.string_of_uint u ++ rest) in
   match u' with
   | Nil => None
   | _ =>
       if uint_beq (unorm u') u' then
         match rest' with
         | String c _ =>
             if Ascii.eqb c "." || Ascii.eqb c "e" || Ascii.eqb c "E" then None
             else integer negative u' rest'
         | EmptyString => integer negative u' rest'
         end
       else None
   end)
  = integer negative u rest.
Proof.
  intros Hnn Hnorm Hrest. rewrite (read_digits_numeral u rest Hrest).
  rewrite Hnorm, uint_beq_refl.
  assert (Hend :
    match rest with
    | String c _ =>
        if Ascii.eqb c "." || Ascii.eqb c "e" || Ascii.eqb c "E" then None
        else integer negative u rest
    | EmptyString => integer negative u rest
    end = integer negative u rest).
  { destruct rest as [ | c r]; [reflexivity | ].
    cbn in Hrest. apply negb_true_iff in Hrest.
    destruct (digit_of_not_number_char c Hrest) as (_ & -> & -> & ->). reflexivity. }
  destruct u; [congruence | .. ]; exact Hend.
Qed.

Lemma read_digits_length (t : string) :
  String.length (snd (read_digits t)) <= String.length t.
Proof.
  induction t as [ | c t IH]; cbn; [lia | ].
  destruct (digit_of c) as [digit | ]; [ | cbn; lia].
  destruct (read_digits t) as [numeral r]. cbn in *. lia.
Qed.

Lemma read_sign_length (s : string) :
  String.length (snd (read_sign s)) <= String.length s.
Proof.
  destruct s as [ | c r]; [cbn; lia | ]. cbn. destruct (Ascii.eqb c "-"); cbn; lia.
Qed.

Lemma read_fraction_length (s : string) (f : uint) (rest : string) :
  read_fraction s = Some (f, rest) -> String.length rest <= String.length s.
Proof.
  destruct s as [ | c r]; cbn; [now intros [= _ <-] | ].
  destruct (Ascii.eqb c "."); [ | intros [= _ <-]; cbn; lia].
  pose proof (read_digits_length r) as L.
  destruct (read_digits r) as [digits r']. cbn [snd] in L.
  destruct digits; try discriminate; intros [= _ <-]; lia.
Qed.

Lemma read_exponent_length (s : string) (e : Z) (rest : string) :
  read_exponent s = Some (e, rest) -> String.length rest <= String.length s.
Proof.
  destruct s as [ | c r]; cbn; [now intros [= _ <-] | ].
  destruct (Ascii.eqb c "e" || Ascii.eqb c "E"); [ | intros [= _ <-]; cbn; lia].
  assert (Hsign :
    String.length
      (snd (match r with
            | String d r' =>
                if Ascii.eqb d "-" then (true, r')
                else if Ascii.eqb d "+" then (false, r')
                else (false, r)
            | EmptyString => (false, r)
            end)) <= String.length r).
  { destruct r as [ | d r']; [cbn; lia | ].
    destruct (Ascii.eqb d "-"); [cbn; lia | ].
    destruct (Ascii.eqb d "+"); cbn; lia. }
  destruct (match r with
            | String d r' =>
                if Ascii.eqb d "-" then (true, r')
                else if Ascii.eqb d "+" then (false, r')
                else (false, r)
            | EmptyString => (false, r)
            end) as [minus r1].
  cbn [snd] in Hsign.
  pose proof (read_digits_length r1) as L.
  destruct (read_digits r1) as [digits r']. cbn [snd] in L.
  destruct digits; try discriminate; intros [= _ <-]; lia.
Qed.

(** The integers, printed and read in decimal, keep the laws. *)
#[export] Instance ZNumberLaws : NumberLaws Z.
Proof.
  split.
  - intros [ | p | p]; cbn.
    + exists "0"%char, ""; split; reflexivity.
    + destruct (numeral_head p) as (c & s & E & _ & Hd & _).
      exists c, s. split; [exact E | ]. unfold number_start. now rewrite Hd, orb_true_r.
    + eexists; eexists; split; reflexivity.
  - intros [ | p | p] rest Hrest; cbn [Number_toString parse_number ZNumber].
    + unfold Z_toString, Z_parse_number. cbn [Z.to_int NilZero.string_of_int].
      change (NilZero.string_of_uint Decimal.zero ++ rest)
        with (NilEmpty.string_of_uint (D0 Nil) ++ rest).
      cbn [NilEmpty.string_of_uint append read_sign].
      change (Ascii.eqb "0" "-") with false. cbv iota.
      apply (@Z_parse_digits false (D0 Nil) rest); [discriminate | reflexivity | exact Hrest].
    + unfold Z_toString, Z_parse_number. cbn [Z.to_int NilZero.string_of_int].
      destruct (numeral_head p) as (c & s & E & E' & _ & Hc).
      rewrite E. cbn [append read_sign]. rewrite Hc.
      change (String c (s ++ rest)) with (String c s ++ rest).
      rewrite <- E, E'.
      rewrite (@Z_parse_digits false (Pos.to_uint p) rest);
        [ | apply DecimalPos.Unsigned.to_uint_nonnil | apply to_uint_normal | exact Hrest].
      unfold integer. cbn [andb]. f_equal. f_equal. apply (DecimalZ.of_to (Z.pos p)).
    + unfold Z_toString, Z_parse_number.
      cbn [Z.to_int NilZero.string_of_int append read_sign].
      rewrite Ascii.eqb_refl.
      destruct (numeral_head p) as (c & s & _ & E' & _ & _).
      rewrite E'.
      rewrite (@Z_parse_digits true (Pos.to_uint p) rest);
        [ | apply DecimalPos.Unsigned.to_uint_nonnil | apply to_uint_normal | exact Hrest].
      unfold integer.
      change (Neg (Pos.to_uint p)) with (Z.to_int (Z.neg p)).
      rewrite (DecimalZ.of_to (Z.neg p)). reflexivity.
  - reflexivity.
  - intros s z rest. cbn [parse_number ZNumber]. unfold Z_parse_number.
    pose proof (read_sign_length s) as Hsign.
    destruct (read_sign s) as [negative digits]. cbn [snd] in Hsign.
    pose proof (read_digits_length digits) as Hread.
    destruct (read_digits digits) as [numeral r]. cbn [snd] in *.
    intros H.
    assert (rest = r) as ->.
    { unfold integer in H.
      destruct numeral; try discriminate H;
        (destruct (uint_beq _ _); [ | discriminate H]);
        (destruct r as [ | c r']; [ | destruct (_ || _)]);
        try discriminate H;
        (destruct (negative && _); [discriminate H | ]);
        injection H as _ <-; reflexivity. }
    lia.
  - intros s x rest. cbn [parse_special ZNumber]. unfold Z_parse_special.
    pose proof (read_sign_length s) as Hsign.
    destruct (read_sign s) as [negative s1]. cbn [snd] in Hsign.
    pose proof (read_digits_length s1) as Hread.
    destruct (read_digits s1) as [i s2]. cbn [snd] in Hread.
    intros H.
    assert (Hrest : String.length rest <= String.length s2).
    { destruct i; try discriminate H;
        (destruct (uint_beq _ _); [ | discriminate H]);
        (destruct (read_fraction s2) as [[f s3] | ] eqn:Hf; [ | discriminate H]);
        (destruct (read_exponent s3) as [[e r] | ] eqn:He; [ | discriminate H]);
        apply read_fraction_length in Hf; apply read_exponent_length in He;
        cbv zeta in H;
        (destruct (_ =? 0)%Z;
         [destruct negative; [ | discriminate H]
         | destruct (overflows _ _); [ | discriminate H]]);
        injection H as _ <-; lia. }
    lia.
Qed.

End PlatformFacts.

(** ** The dump of an object and [JSON.parse] *)

Module DumpFacts.
Import JsString Json JsonParse Decoder Shapes StringFacts JsonFacts.

Lemma trimStart_brace (s : string) : trimStart (String "{" s) = String "{" s.
Proof. destruct s as [ | b [ | c s]]; reflexivity. Qed.

Lemma is_space2_brace (b : ascii) : is_space2 b "}" = false.
Proof.
  unfold is_space2. change (code "}" =? 160)%nat with false. apply andb_false_r.
Qed.

Lemma is_space3_brace (c b : ascii) : is_space3 c b "}" = false.
Proof.
  unfold is_space3. cbv zeta. change (code "}") with 125.
  change (125 =? 128)%nat with false. change (128 <=? 125)%nat with false.
  change (125 =? 168)%nat with false. change (125 =? 169)%nat with false.
  change (125 =? 175)%nat with false. change (125 =? 159)%nat with false.
  change (125 =? 191)%nat with false.
  cbn [andb orb]. now rewrite !andb_false_r.
Qed.

Lemma trimStart_rev_brace (s : string) : trimStart_rev (String "}" s) = String "}" s.
Proof.
  destruct s as [ | b [ | c s]]; cbn [trimStart_rev];
    change (is_ascii_space "}") with false; cbv iota;
    rewrite ?is_space2_brace, ?is_space3_brace; reflexivity.
Qed.

(** Trimming a line break followed by a text in braces gives the text. *)
Lemma trim_braced (mid : string) :
  trim (String LF (String "{" (mid ++ "}"))) = String "{" (mid ++ "}").
Proof.
  unfold trim.
  change (trimStart (String LF (String "{" (mid ++ "}"))))
    with (trimStart (String "{" (mid ++ "}"))).
  rewrite trimStart_brace. unfold trimEnd.
  change (String "{" (mid ++ "}")) with (String "{" mid ++ "}") at 1.
  rewrite rev_snoc, trimStart_rev_brace, <- rev_snoc.
  apply rev_involutive.
Qed.

Section Dump.
Context {num : Type} {NumOps : Number num} {Laws : NumberLaws num}.
Context {document element : Type} {DomOps : Dom document element}.

Lemma object_in_braces (gap indent : string) (fields : list (string * json num)) :
  exists mid, SerializeJSONProperty gap indent (JObj fields) = String "{" (mid ++ "}").
Proof.
  cbn [SerializeJSONProperty].
  destruct (map _ fields) as [ | p parts].
  - exists "". reflexivity.
  - rewrite wrap_cons. eexists. cbn [append]. rewrite <- !append_assoc. reflexivity.
Qed.

(** C5, as the code has it. A text classified as JSON that parses to an
    object with none of the three reply shapes decodes to a line break
    followed by the indented [JSON.stringify] of the object; once
    trimmed, [JSON.parse] reads that text as the object with [null] for
    each infinity and [0] for each negative zero. So the object comes
    back as it was exactly when none of its numbers is an infinity or a
    negative zero. *)
Theorem dump_round_trip (text : string) (contentType : option string)
  (fields : list (string * json num)) :
  looksJson contentType (trim text) = true ->
  JSON_parse (trim text) = Normal (JObj fields) ->
  reply_field fields = None ->
  data_reply_field fields = None ->
  chat_completion_field fields = None ->
  exists dump,
    parseWebhookText JSON_parse text contentType = Normal (String LF dump)
    /\ dump = SerializeJSONProperty "  " "" (JObj fields)
    /\ JSON_parse (trim (String LF dump)) = Normal (reread (JObj fields))
    /\ (JSON_parse (trim (String LF dump)) = Normal (JObj fields)
        <-> exact (JObj fields) = true).
Proof.
  intros Hlooks Hparse Hr Hd Hc.
  exists (SerializeJSONProperty "  " "" (JObj fields)).
  assert (Hback :
    JSON_parse (trim (String LF (SerializeJSONProperty "  " "" (JObj fields))))
    = Normal (reread (JObj fields))).
  { destruct (object_in_braces "  " "" fields) as [mid E].
    rewrite E, trim_braced, <- E.
    apply JSON_parse_reread; [reflexivity | ].
    apply (JSON_parse_wf _ Hparse). }
  split; [ | split; [reflexivity | split; [exact Hback | ]]].
  - rewrite (DecoderFacts.parseWebhookText_parsed JSON_parse text contentType
               Hlooks Hparse).
    rewrite DecoderFacts.decode_parsed_object, Hr, Hd, Hc. reflexivity.
  - rewrite Hback, <- reread_exact. split; [ | now intros ->].
    intros H.
    exact (f_equal (fun c => match c with Normal v => v | Throw _ => JNull end) H).
Qed.

End Dump.

End DumpFacts.

(** ** The properties on the sample conversations *)

Module Examples.
Import JsString Json JsonParse Decoder Shapes Chat Recorder Platform Samples.

Local Abbreviation decode := (parseWebhookText (num := Z) (DomOps := FlatDom) JSON_parse).
Local Abbreviation post fetch :=
  (postToWebhook (num := Z) (DomOps := FlatDom) JSON_parse fetch).
Local Abbreviation resume fetch :=
  (handleSend_resume (num := Z) (DomOps := FlatDom) JSON_parse fetch).

(** An object with both a top-level [reply] and a [data.reply] decodes to
    the first. *)
Lemma decode_object_priority_witness :
  looksJson None (trim two_replies) = true
  /\ JSON_parse (trim two_replies)
     = Normal (JObj [("data", JObj [("reply", JStr "B")]); ("reply", JStr "A")])
  /\ decode two_replies None = Normal "A".
Proof.
  split; [reflexivity | split; [reflexivity | ]].
  exact (@DecoderFacts.decode_object_priority Z ZNumber Document Element FlatDom
           JSON_parse two_replies None
           [("data", JObj [("reply", JStr "B")]); ("reply", JStr "A")]
           eq_refl eq_refl).
Defined.

(** An object without a reply shape is dumped, and the dump reads back. *)
Lemma dump_round_trip_witness :
  exists dump,
    decode no_reply None = Normal (String LF dump)
    /\ dump = SerializeJSONProperty "  " ""
                (JObj [("7", JNull); ("status", JStr "ok");
                       ("rooms", JArr [JNum 101%Z; JNum 102%Z])])
    /\ JSON_parse (trim (String LF dump))
       = Normal (JObj [("7", JNull); ("status", JStr "ok");
                       ("rooms", JArr [JNum 101%Z; JNum 102%Z])]).
Proof.
  destruct (@DumpFacts.dump_round_trip Z ZNumber PlatformFacts.ZNumberLaws
              Document Element FlatDom no_reply None
              [("7", JNull); ("status", JStr "ok");
               ("rooms", JArr [JNum 101%Z; JNum 102%Z])]
              eq_refl eq_refl eq_refl eq_refl eq_refl)
    as (dump & Hrun & Hdump & Hback & _).
  exists dump. split; [exact Hrun | ]. split; [exact Hdump | exact Hback].
Defined.

(** A number beyond the doubles is read as an infinity, dumped as [null],
    and read back as [null]: the object does not come back. *)
Lemma infinity_does_not_read_back :
  looksJson None (trim overflowing) = true
  /\ JSON_parse (num := Z) (trim overflowing) = Normal (JObj [("a", JSpecial PosInfinity)])
  /\ decode overflowing None
     = Normal (String LF ("{" ++ nl ++ "  " ++ quoted "a" ++ ": null" ++ nl ++ "}"))
  /\ JSON_parse (num := Z)
       (trim (String LF ("{" ++ nl ++ "  " ++ quoted "a" ++ ": null" ++ nl ++ "}")))
     = Normal (JObj [("a", JNull)])
  /\ JObj [("a", JNull)] <> JObj [("a", JSpecial (num := Z) PosInfinity)].
Proof.
  repeat split. discriminate.
Qed.




(** The empty body, with and without a JSON content type; and markup in
    a browser whose DOM calls all throw, which is returned as it came. *)
Lemma parseWebhookText_total_witness :
  decode "" (Some "application/json") = Normal "(No response body)"
  /\ decode "" None = Normal "(No response body)"
  /\ exists s,
      parseWebhookText (num := Z) (DomOps := NoDom) JSON_parse "<b>Hello</b>" None
      = Normal s.
Proof.
  split; [ | split].
  - exact (proj2 (proj2 (@DecoderFacts.parseWebhookText_total Z ZNumber Document Element
                           FlatDom JSON_parse "" (Some "application/json")))
             SyntaxError eq_refl).
  - exact (proj2 (proj2 (@DecoderFacts.parseWebhookText_total Z ZNumber Document Element
                           FlatDom JSON_parse "" None))
             SyntaxError eq_refl).
  - exact (proj1 (@DecoderFacts.parseWebhookText_total Z ZNumber unit unit
                    NoDom JSON_parse "<b>Hello</b>" None)).
Defined.

(** The other examples of the specification: a JSON string is returned
    as the string, a number as its numeral, a page as its text. *)
Example decode_json_string :
  decode (quoted "42") (Some "application/json") = Normal "42".
Proof. reflexivity. Qed.

Example decode_json_number :
  decode " 42 " (Some "application/json; charset=utf-8") = Normal "42".
Proof. reflexivity. Qed.

Example decode_page :
  decode "<html><body>Hello <b>World</b></body></html>" (Some "text/html")
  = Normal "Hello World".
Proof. reflexivity. Qed.

Example decode_plain_text :
  decode "  See you on Tuesday.  " None = Normal "  See you on Tuesday.  ".
Proof. reflexivity. Qed.

Example decode_without_dom :
  parseWebhookText (num := Z) (DomOps := NoDom) JSON_parse "<b>Hello</b>" None
  = Normal "<b>Hello</b>".
Proof. reflexivity. Qed.

(** Own keys come back in the order of own properties: indices first. *)
Example parse_orders_keys :
  JSON_parse (num := Z) no_reply
  = Normal (JObj [("7", JNull); ("status", JStr "ok");
                  ("rooms", JArr [JNum 101%Z; JNum 102%Z])]).
Proof. reflexivity. Qed.

(** A second resolve of the same id writes over the first. In a run of
    the page it takes a placeholder id that [genId] returns a second
    time: the second turn then gets its reply, and the first turn the
    same reply in place of its own. *)
Lemma second_resolve_overwrites :
  map content resolved_once = [content greeting; "Room booked"]
  /\ length resolved_twice = length resolved_once
  /\ map content resolved_twice = [content greeting; "Sorry, no rooms"]
  /\ resolved_twice <> resolved_once
  /\ waitingId draws_repeat = waitingId draws1
  /\ exists sa sb fd sc,
      resume concierge "w1" hook form1 pending1 = Normal sa
      /\ map content (messages sa) = [content greeting; ask1; "Room booked"]
      /\ handleSend sa (Some ask2) None draws_repeat sa
         = Normal (sb, Awaiting "w1" hook fd)
      /\ resume concierge "w1" hook fd sb = Normal sc
      /\ map content (messages sc)
         = [content greeting; ask1; "Yes, on floor 2."; ask2; "Yes, on floor 2."].
Proof.
  split; [reflexivity | ]. split; [reflexivity | ]. split; [reflexivity | ].
  split.
  - intros H. apply (f_equal (map content)) in H. vm_compute in H. discriminate H.
  - split; [reflexivity | ].
    eexists; eexists; eexists; eexists.
    split; [reflexivity | ]. split; [reflexivity | ]. split; [reflexivity | ].
    split; reflexivity.
Qed.

(** A second resolve of the first placeholder, a resolve of an id that
    the log does not have, and the first turn from its send to its
    reply: one resolve. *)
Lemma resolve_twice_witness :
  resolve "w1" "Sorry, no rooms" resolved_once
  = resolve "w1" "Sorry, no rooms" [greeting; placeholder draws1]
  /\ resolve "w9" "Sorry, no rooms" resolved_once = resolved_once
  /\ (exists st1 fd,
         handleSend ready (Some ask1) None draws1 ready
         = Normal (st1, Awaiting "w1" hook fd)
         /\ messages st1
            = [greeting; userMsg ask1 None None draws1; placeholder draws1])
  /\ exists st',
      resume concierge "w1" hook form1 pending1 = Normal st'
      /\ messages st' = resolve "w1" "Room booked" (messages pending1).
Proof.
  pose proof (@ChatFacts.resolve_twice Z ZNumber Document Element FlatDom JSON_parse
                concierge "w1" "Room booked" "Sorry, no rooms"
                [greeting; placeholder draws1] ready (Some ask1) None draws1 ready
                hook form1) as (_ & _ & Hagain & _ & _ & _ & _ & _ & Hpost & _).
  pose proof (@ChatFacts.resolve_twice Z ZNumber Document Element FlatDom JSON_parse
                concierge "w9" "Room booked" "Sorry, no rooms"
                resolved_once pending1 None None draws1 pending1
                hook form1) as (_ & _ & _ & _ & _ & Habsent & _).
  pose proof (@ChatFacts.resolve_twice Z ZNumber Document Element FlatDom JSON_parse
                concierge "w1" "Room booked" "Sorry, no rooms"
                [greeting; placeholder draws1] ready (Some ask1) None draws1 pending1
                hook form1) as (_ & _ & _ & _ & _ & _ & _ & _ & _ & Hresume).
  split; [exact Hagain | ].
  split; [apply Habsent; vm_compute; intuition discriminate | ].
  split; [apply Hpost; [reflexivity | discriminate] | exact Hresume].
Defined.

(** Two turns in flight and the first one fails: its placeholder takes
    the demo text in place, and the log ends with the placeholder of the
    second turn, still pending. *)
Lemma overlapping_failure_is_not_last :
  handleSend ready (Some ask1) None draws1 ready
  = Normal (pending1, Awaiting "w1" hook form1)
  /\ handleSend pending1 (Some ask2) None draws2 pending1
     = Normal (pending2, Awaiting "w2" hook form2)
  /\ post offline hook form1 = Throw TypeError
  /\ exists st3,
      resume offline "w1" hook form1 pending2 = Normal st3
      /\ map content (messages st3) = [content greeting; ask1; demo; ask2; PENDING]
      /\ ~ ends_with_fallback (messages st3) ask1.
Proof.
  split; [reflexivity | ]. split; [reflexivity | ]. split; [reflexivity | ].
  eexists. split; [reflexivity | ]. split; [reflexivity | ].
  intros (before & u & a & Heq & _ & _ & _ & Ha).
  apply (f_equal (@List.rev _)) in Heq. rewrite rev_app_distr in Heq.
  cbn [List.rev app] in Heq. cbv in Heq.
  injection Heq as Hlast _. subst a. discriminate Ha.
Qed.

Lemma fresh_w1 : ~ In (waitingId draws1) (ids (messages unconfigured)).
Proof. cbn. intuition discriminate. Qed.

Lemma fresh_w1_ready : ~ In (waitingId draws1) (ids (messages ready)).
Proof. cbn. intuition discriminate. Qed.

Lemma fresh_w2_ready : ~ In (waitingId draws2) (ids (messages ready)).
Proof. cbn. intuition discriminate. Qed.

Lemma u1_is_not_w1 : userId draws1 <> waitingId draws1.
Proof. discriminate. Qed.

Lemma hook_is_set : webhookUrl ready <> "".
Proof. discriminate. Qed.

(** The scenario of the specification: a text sent with no webhook. *)
Lemma send_failure_resolves_witness :
  nothing_to_send unconfigured (Some ask1) None = false
  /\ exists st1,
      handleSend unconfigured (Some ask1) None draws1 unconfigured = Normal (st1, Done)
      /\ map content (messages st1) = [content greeting; ask1; demo]
      /\ ends_with_fallback (messages st1) ask1
      /\ sending st1 = false.
Proof.
  split; [reflexivity | ].
  destruct (@ChatFacts.send_failure_resolves Z ZNumber Document Element FlatDom
              JSON_parse offline unconfigured (Some ask1) None draws1 unconfigured
              eq_refl u1_is_not_w1 fresh_w1) as [Hcfg _].
  destruct (Hcfg eq_refl) as (st1 & Hrun & Hlog & Hend & Hs).
  exists st1. split; [exact Hrun | ]. split; [rewrite Hlog; reflexivity | ].
  split; [exact Hend | exact Hs].
Defined.

(** Two turns in flight with a webhook that answers: each placeholder gets
    the reply to its own request, in either order of completion. *)
Lemma overlapping_turns_witness :
  exists first_then_second second_then_first,
    (exists sa, resume concierge "w1" hook form1 pending2 = Normal sa
                /\ resume concierge "w2" hook form2 sa = Normal first_then_second)
    /\ (exists sa, resume concierge "w2" hook form2 pending2 = Normal sa
                   /\ resume concierge "w1" hook form1 sa = Normal second_then_first)
    /\ map content (messages first_then_second)
       = [content greeting; ask1; "Room booked"; ask2; "Yes, on floor 2."]
    /\ messages second_then_first = messages first_then_second.
Proof.
  destruct (@ChatFacts.overlapping_turns_resolve_their_own Z ZNumber Document Element
              FlatDom JSON_parse concierge ready pending1 (Some ask1) (Some ask2)
              None None draws1 draws2 ready
              eq_refl eq_refl hook_is_set hook_is_set)
    as (st1 & fd1 & st2 & fd2 & Hrun1 & _ & Hrun2 & _ & Horders);
    try discriminate; try exact fresh_w1_ready; try exact fresh_w2_ready.
  injection Hrun1 as <- <-. injection Hrun2 as <- <-.
  destruct Horders as [(sa & sb & Ha & _ & Hb & Hlogb) (sa' & sb' & Ha' & _ & Hb' & Hlogb')].
  exists sb', sb. split; [exists sa'; split; assumption | ].
  split; [exists sa; split; assumption | ].
  rewrite Hlogb, Hlogb'. split; reflexivity.
Defined.

(** A voice message sent with an image attached: the type is audio, and
    both parts are in the payload. *)
Lemma payload_fields_witness :
  exists st1 fd,
    handleSend (setAttachedImage (Some photo) ready) (Some "") (Some voice) draws1
      (setAttachedImage (Some photo) ready)
    = Normal (st1, Awaiting "w1" hook fd)
    /\ form_get fd "type" = Some (FormString "audio")
    /\ form_get fd "text" = Some (FormString "")
    /\ form_get fd "source" = Some (FormString "booking-bot")
    /\ form_get fd "chatId" = Some (FormString "chat-1")
    /\ form_get fd "image" = Some (FormFile photo)
    /\ form_get fd "audio" = Some (FormFile voice)
    /\ map fst fd = ["type"; "text"; "source"; "chatId"; "metadata"; "image"; "audio"].
Proof.
  eexists; eexists. split; [reflexivity | ].
  pose proof (@ChatFacts.payload_fields Z ZNumber
                (setAttachedImage (Some photo) ready) (Some "") (Some voice) draws1
                (setAttachedImage (Some photo) ready) _ _ _ _ eq_refl)
    as (Htype & Htext & Hsource & Hchat & _ & _ & Himage & Haudio & Hnames & _).
  repeat split; assumption.
Defined.

(** A reply that decodes to the empty string is shown as "(empty)". *)
Lemma empty_reply_witness :
  post (answering (Some "text/html") empty_frame) hook form1 = Normal ""
  /\ exists st',
      resume (answering (Some "text/html") empty_frame) "w1" hook form1 pending1
      = Normal st'
      /\ map content (messages st') = [content greeting; ask1; "(empty)"].
Proof.
  split; [reflexivity | ].
  destruct (@ChatFacts.empty_reply_shown_as_empty Z ZNumber Document Element FlatDom
              JSON_parse (answering (Some "text/html") empty_frame) "w1" hook form1
              pending1) as (st' & Hrun & Hlog & _).
  exists st'. split; [exact Hrun | ]. rewrite Hlog. reflexivity.
Defined.

(** A recording stopped before any data: the file is empty, it is sent,
    and the track is ended; a denied microphone leaves the page idle. *)
Lemma stop_releases_witness :
  (exists p1,
      toggleRecording recording_page granted recording_page = Normal p1
      /\ Chat.recording (app p1) = false
      /\ map stream (objects (stop_task 0 "" draws1 p1)) = [[ended]]
      /\ map content (messages (app (stop_task 0 "" draws1 p1)))
         = [content greeting; " [Audio Attached]"; PENDING]
      /\ exists fd,
          sends (stop_task 0 "" draws1 p1) = [Awaiting "w1" hook fd]
          /\ form_get fd "audio" = Some (FormFile voice))
  /\ toggleRecording idle_page denied idle_page = Normal idle_page.
Proof.
  destruct (@RecorderFacts.stop_releases_and_sends Z ZNumber) as [Hstop Hdenied].
  split.
  - destruct (Hstop recording_page granted 0
                {| state := capturing; stream := [live]; chunks := [];
                   closure := ready |} "" draws1 eq_refl eq_refl eq_refl)
      as (p1 & Hrun & Hrec & _).
    exists p1. split; [exact Hrun | ]. split; [exact Hrec | ].
    injection Hrun as <-.
    split; [reflexivity | ]. split; [reflexivity | ].
    eexists. split; reflexivity.
  - exact (Hdenied idle_page denied DOMException eq_refl eq_refl).
Defined.

End Examples.

(** ** The decoder on serialized replies, plain text and markup *)

Module ReplyFacts.
Import JsString Json JsonParse Decoder StringFacts JsonFacts.

(** A character below U+0080 that is no white space begins no white
    space and ends none. *)
Lemma trimStart_solid (o : ascii) (s : string) :
  code o < 128 ->
  is_ascii_space o = false ->
  trimStart (String o s) = String o s.
Proof.
  intros Hlt Hsp. cbn [trimStart]. rewrite Hsp.
  assert (H2 : forall b, is_space2 o b = false).
  { intros b. unfold is_space2.
    rewrite (proj2 (Nat.eqb_neq (code o) 194)) by lia. reflexivity. }
  assert (H3 : forall b c, is_space3 o b c = false).
  { intros b c. unfold is_space3. cbv zeta.
    rewrite (proj2 (Nat.eqb_neq (code o) 225)) by lia.
    rewrite (proj2 (Nat.eqb_neq (code o) 226)) by lia.
    rewrite (proj2 (Nat.eqb_neq (code o) 227)) by lia.
    rewrite (proj2 (Nat.eqb_neq (code o) 239)) by lia.
    reflexivity. }
  destruct s as [ | b [ | c s]]; rewrite ?H2, ?H3; reflexivity.
Qed.

Lemma trimStart_rev_solid (c : ascii) (s : string) :
  code c < 128 ->
  is_ascii_space c = false ->
  trimStart_rev (String c s) = String c s.
Proof.
  intros Hlt Hsp. cbn [trimStart_rev]. rewrite Hsp.
  assert (H2 : forall b, is_space2 b c = false).
  { intros b. unfold is_space2.
    rewrite (proj2 (Nat.eqb_neq (code c) 160)) by lia. apply andb_false_r. }
  assert (H3 : forall a b, is_space3 a b c = false).
  { intros a b. unfold is_space3. cbv zeta.
    rewrite (proj2 (Nat.eqb_neq (code c) 128)) by lia.
    rewrite (proj2 (Nat.leb_gt 128 (code c))) by lia.
    rewrite (proj2 (Nat.eqb_neq (code c) 168)) by lia.
    rewrite (proj2 (Nat.eqb_neq (code c) 169)) by lia.
    rewrite (proj2 (Nat.eqb_neq (code c) 175)) by lia.
    rewrite (proj2 (Nat.eqb_neq (code c) 159)) by lia.
    rewrite (proj2 (Nat.eqb_neq (code c) 191)) by lia.
    cbn [andb orb]. now rewrite !andb_false_r. }
  destruct s as [ | b [ | a s]]; rewrite ?H2, ?H3; reflexivity.
Qed.

(** A text between two such characters is its own trimmed form. *)
Lemma trim_enclosed (o c : ascii) (mid : string) :
  code o < 128 -> is_ascii_space o = false ->
  code c < 128 -> is_ascii_space c = false ->
  trim (String o (mid ++ String c "")) = String o (mid ++ String c "").
Proof.
  intros Ho Hos Hc Hcs. unfold trim. rewrite (@trimStart_solid o _ Ho Hos).
  unfold trimEnd.
  change (String o (mid ++ String c "")) with (String o mid ++ String c "") at 1.
  rewrite rev_snoc, (@trimStart_rev_solid c _ Hc Hcs), <- rev_snoc.
  apply rev_involutive.
Qed.

Section Facts.
Context {num : Type} {NumOps : Number num}.
Context {document element : Type} {DomOps : Dom document element}.

Local Abbreviation Ser := (SerializeJSONProperty (num := num)).

Lemma array_in_brackets (gap indent : string) (items : list (json num)) :
  exists mid, Ser gap indent (JArr items) = String "[" (mid ++ "]").
Proof.
  cbn [SerializeJSONProperty].
  destruct (map _ items) as [ | p parts].
  - exists "". reflexivity.
  - rewrite wrap_cons. eexists. cbn [String.append]. rewrite <- !append_assoc. reflexivity.
Qed.

(** The serialization of a string, an array or an object is its own
    trimmed form, and starts like JSON. *)
Lemma serialized_trimmed (gap indent : string) (v : json num) :
  match v with
  | JStr _ | JArr _ | JObj _ =>
      trim (Ser gap indent v) = Ser gap indent v
      /\ starts_like_json (Ser gap indent v) = true
  | _ => True
  end.
Proof.
  destruct v as [ | b | n | s | items | fields | x]; try exact I.
  - cbn [SerializeJSONProperty]. unfold QuoteJSONString. split; [ | reflexivity].
    apply trim_enclosed; solve [reflexivity | cbv; lia].
  - destruct (array_in_brackets gap indent items) as [mid ->]. split; [ | reflexivity].
    apply trim_enclosed; solve [reflexivity | cbv; lia].
  - destruct (@DumpFacts.object_in_braces num NumOps gap indent fields) as [mid ->].
    split; [ | reflexivity].
    apply trim_enclosed; solve [reflexivity | cbv; lia].
Qed.

(** Reading a serialization back changes no field that is a string, and
    makes no other field a string: the three reply shapes of an object
    are those of the object as it is read back. *)
Local Abbreviation again :=
  (map (fun kv : string * json num => match kv with (k, x) => (k, reread x) end)).

Lemma assoc_reread (key : string) (fields : list (string * json num)) :
  assoc key (again fields) = option_map reread (assoc key fields).
Proof.
  induction fields as [ | [k x] fields IH]; [reflexivity | ].
  cbn [map assoc]. destruct (String.eqb k key); [reflexivity | exact IH].
Qed.

Lemma reply_field_reread (fields : list (string * json num)) :
  Shapes.reply_field (again fields) = Shapes.reply_field fields.
Proof.
  unfold Shapes.reply_field. rewrite assoc_reread.
  destruct (assoc "reply" fields) as [[ | b | n | r | xs | fs | [ | | ]] | ]; reflexivity.
Qed.

Lemma data_reply_field_reread (fields : list (string * json num)) :
  Shapes.data_reply_field (again fields) = Shapes.data_reply_field fields.
Proof.
  unfold Shapes.data_reply_field. rewrite assoc_reread.
  destruct (assoc "data" fields) as [[ | b | n | r | xs | data | [ | | ]] | ];
    try reflexivity.
  cbn [option_map reread]. rewrite assoc_reread.
  destruct (assoc "reply" data) as [[ | b | n | r | xs | fs | [ | | ]] | ]; reflexivity.
Qed.

Lemma chat_completion_field_reread (fields : list (string * json num)) :
  Shapes.chat_completion_field (again fields) = Shapes.chat_completion_field fields.
Proof.
  unfold Shapes.chat_completion_field. rewrite assoc_reread.
  destruct (assoc "choices" fields) as [[ | b | n | r | xs | fs | [ | | ]] | ];
    try reflexivity.
  cbn [option_map reread].
  destruct xs as [ | [ | b | n | r | ys | first | [ | | ]] xs]; try reflexivity.
  cbn [map reread]. rewrite assoc_reread.
  destruct (assoc "message" first) as [[ | b | n | r | ys | message | [ | | ]] | ];
    try reflexivity.
  cbn [option_map reread]. rewrite assoc_reread.
  destruct (assoc "content" message) as [[ | b | n | r | ys | fs | [ | | ]] | ];
    reflexivity.
Qed.

End Facts.

Section Reference.
Context {num : Type} {NumOps : Number num} {Laws : NumberLaws num}.
Context {document element : Type} {DomOps : Dom document element}.

Local Abbreviation Ser := (SerializeJSONProperty (num := num)).
Local Abbreviation decode := (parseWebhookText (num := num) JSON_parse).

(** Decoding what [JSON.stringify] wrote of a string, an array or an
    object is the body of the JSON block on the value as it is read
    back. *)
Lemma decode_serialized (gap : string) (v : json num) (contentType : option string) :
  spaces_only gap = true ->
  wf_json v = true ->
  match v with
  | JStr _ | JArr _ | JObj _ =>
      decode (Ser gap "" v) contentType = Normal (decode_parsed (reread v))
  | _ => True
  end.
Proof.
  intros Hgap Hwf. pose proof (serialized_trimmed gap "" v) as Htrim.
  pose proof (@JSON_parse_reread num NumOps Laws gap v Hgap Hwf) as Hparse.
  destruct v as [ | b | n | s | items | fields | x]; try exact I;
    destruct Htrim as [Htrim Hstart];
    (apply DecoderFacts.parseWebhookText_parsed;
     [unfold looksJson; rewrite Htrim, Hstart; apply orb_true_r
     | rewrite Htrim; exact Hparse]).
Qed.

(** The dump of an array or an object, behind its line break, is read
    back as the value with [null] for each infinity and [0] for each
    negative zero. *)
Lemma dump_reread (v : json num) :
  wf_json v = true ->
  match v with
  | JArr _ | JObj _ =>
      JSON_parse (trim (String LF (Ser "  " "" v))) = Normal (reread v)
  | _ => True
  end.
Proof.
  intros Hwf. pose proof (serialized_trimmed "  " "" v) as Htrim.
  pose proof (@JSON_parse_reread num NumOps Laws "  " v eq_refl Hwf) as Hparse.
  destruct v as [ | b | n | s | items | fields | x]; try exact I;
    destruct Htrim as [Htrim _];
    (change (trim (String LF ?t)) with (trimEnd (trimStart t));
     match goal with |- JSON_parse (trimEnd (trimStart ?t)) = _ => fold (trim t) end;
     rewrite Htrim; exact Hparse).
Qed.

(** X1. What a webhook wrote with [JSON.stringify], compact or indented,
    is decoded to the reply it carries, whatever the characters of the
    reply (quotes, backslashes, line breaks, controls), whatever the
    other fields and whatever the content type: a string is decoded to
    itself; an object, with its keys in property order, to its string
    [reply]; without one, to the string [reply] of its object [data];
    without that, to the string [content] of the object [message] of its
    first choice. *)
Theorem serialized_reply_is_shown_verbatim (r gap : string)
  (fields : list (string * json num)) (contentType : option string) :
  spaces_only gap = true ->
  wf_json (JObj fields) = true ->
  decode (Ser gap "" (JStr r)) contentType = Normal r
  /\ (Shapes.reply_field fields = Some r ->
      decode (Ser gap "" (JObj fields)) contentType = Normal r)
  /\ (Shapes.reply_field fields = None ->
      Shapes.data_reply_field fields = Some r ->
      decode (Ser gap "" (JObj fields)) contentType = Normal r)
  /\ (Shapes.reply_field fields = None ->
      Shapes.data_reply_field fields = None ->
      Shapes.chat_completion_field fields = Some r ->
      decode (Ser gap "" (JObj fields)) contentType = Normal r).
Proof.
  intros Hgap Hwf.
  pose proof (@decode_serialized gap (JObj fields) contentType Hgap Hwf) as Hobj.
  cbn [reread] in Hobj. rewrite DecoderFacts.decode_parsed_object in Hobj.
  rewrite reply_field_reread, data_reply_field_reread, chat_completion_field_reread
    in Hobj.
  split; [exact (@decode_serialized gap (JStr r) contentType Hgap eq_refl) | ].
  split; [ | split].
  - intros H1. now rewrite H1 in Hobj.
  - intros H1 H2. now rewrite H1, H2 in Hobj.
  - intros H1 H2 H3. now rewrite H1, H2, H3 in Hobj.
Qed.

(** X2. A JSON array is never searched for a reply, not even when its
    first element is an object with one: a text classified as JSON that
    parses to an array decodes to a line break followed by the indented
    dump of the array. [JSON.parse] reads the trimmed result back as the
    array with [null] for each infinity and [0] for each negative zero:
    as the same array exactly when it has no such number. *)
Theorem array_is_dumped (text : string) (contentType : option string)
  (items : list (json num)) :
  looksJson contentType (trim text) = true ->
  JSON_parse (trim text) = Normal (JArr items) ->
  exists dump,
    decode text contentType = Normal (String LF dump)
    /\ dump = Ser "  " "" (JArr items)
    /\ JSON_parse (trim (String LF dump)) = Normal (reread (JArr items))
    /\ (JSON_parse (trim (String LF dump)) = Normal (JArr items)
        <-> exact (JArr items) = true).
Proof.
  intros Hlooks Hparse. exists (Ser "  " "" (JArr items)).
  pose proof (@dump_reread (JArr items) (JSON_parse_wf _ Hparse)) as Hback.
  split; [ | split; [reflexivity | split; [exact Hback | ]]].
  - now rewrite (DecoderFacts.parseWebhookText_parsed JSON_parse text contentType
                   Hlooks Hparse).
  - rewrite Hback, <- reread_exact. split.
    + intros H.
      exact (f_equal (fun c => match c with Normal v => v | Throw _ => JNull end) H).
    + now intros ->.
Qed.

End Reference.

Section Fallback.
Context {num : Type} {NumOps : Number num}.
Context {document element : Type} {DomOps : Dom document element}.
Variable JSON_parse : string -> completion (json num).

Local Abbreviation decode := (parseWebhookText JSON_parse).


(** X3. A body that is not decoded as JSON and does not start, once
    trimmed, with [<] is shown byte for byte, surrounding white space
    included, a body of white space alone too; only the empty body is
    replaced by the placeholder. The same holds for markup when the DOM
    parser throws. *)
Theorem plain_text_is_shown_as_it_came (text : string) (contentType : option string) :
  not_json JSON_parse contentType (trim text) ->
  startsWith (trim text) "<" = false
  \/ (exists e, parseFromString (trim text) = Throw e) ->
  decode text contentType = Normal (if String.eqb text "" then "(No response body)" else text)
  /\ (trim text = "" -> text <> "" -> decode text contentType = Normal text).
Proof.
  intros Hnot Hplain.
  assert (H : decode text contentType = Normal (or_else text "(No response body)")).
  { rewrite (DecoderFacts.not_json_falls_through _ Hnot).
    unfold html_or_plain, html_block, iframe_case.
    destruct Hplain as [-> | [e He]]; [reflexivity | ].
    destruct (startsWith (trim text) "<"); [ | reflexivity].
    rewrite He. cbn [bind].
    destruct (includes _ "<iframe" && includes _ "srcdoc="); reflexivity. }
  rewrite H. split.
  - now destruct text.
  - intros _ Hne. destruct text; [congruence | reflexivity].
Qed.


(** X5. The content type is a hint and no more. It plays no part for a
    body that starts, once trimmed, with a bracket, a brace or a double
    quote; and on a body that [JSON.parse] rejects, a JSON content type
    changes nothing: the result is the one without any content type. *)
Theorem content_type_is_a_hint (text : string) (ct ct' : option string) :
  (starts_like_json (trim text) = true -> decode text ct = decode text ct')
  /\ ((exists e, JSON_parse (trim text) = Throw e) -> decode text ct = decode text None).
Proof.
  split.
  - intros H. unfold parseWebhookText, looksJson. rewrite H, !orb_true_r. reflexivity.
  - intros [e He].
    rewrite (@DecoderFacts.not_json_falls_through _ _ _ _ _ JSON_parse text ct)
      by (right; eauto).
    rewrite (@DecoderFacts.not_json_falls_through _ _ _ _ _ JSON_parse text None)
      by (right; eauto).
    reflexivity.
Qed.

Lemma decode_returns (text : string) (contentType : option string) :
  exists s, decode text contentType = Normal s.
Proof.
  unfold parseWebhookText.
  destruct (looksJson contentType (trim text)).
  - destruct (DecoderFacts.json_block_normal JSON_parse (trim text)) as [[s | ] ->];
      cbn; eauto.
    apply DecoderFacts.html_or_plain_normal.
  - cbn. apply DecoderFacts.html_or_plain_normal.
Qed.

Variable fetch : string -> Chat.FormData -> completion Chat.Response.

(** X6. [postToWebhook] fails only with the transport: it throws exactly
    when [fetch] rejects or the body cannot be read, and with that very
    error; on every response whose body is read it returns what the
    decoder makes of the body and the content type header. *)
Theorem postToWebhook_fails_only_with_transport (url : string) (formData : Chat.FormData) :
  (forall e,
      Chat.postToWebhook JSON_parse fetch url formData = Throw e
      <-> fetch url formData = Throw e
          \/ exists res, fetch url formData = Normal res /\ Chat.res_text res = Throw e)
  /\ (forall res text,
         fetch url formData = Normal res ->
         Chat.res_text res = Normal text ->
         Chat.postToWebhook JSON_parse fetch url formData
         = decode text (Chat.content_type res)
         /\ exists s, Chat.postToWebhook JSON_parse fetch url formData = Normal s).
Proof.
  unfold Chat.postToWebhook. split.
  - intros e. destruct (fetch url formData) as [res | e0]; cbn [bind].
    + destruct (Chat.res_text res) as [text | e1] eqn:Ht; cbn [bind].
      * destruct (decode_returns text (Chat.content_type res)) as [s ->].
        split; [discriminate | ].
        intros [H | (res' & [= <-] & H)]; [discriminate | congruence].
      * split.
        -- intros [= ->]. right. now exists res.
        -- intros [H | (res' & [= <-] & H)]; [discriminate | congruence].
    + split.
      * intros [= ->]. now left.
      * intros [[= ->] | (res' & H & _)]; [reflexivity | discriminate].
  - intros res text Hf Ht. rewrite Hf. cbn [bind]. rewrite Ht. cbn [bind].
    split; [reflexivity | apply decode_returns].
Qed.

End Fallback.

End ReplyFacts.

(** ** The send path, its guard and its log *)

Module TurnFacts.
Import JsString Json Decoder Chat Controls.

Section Facts.
Context {num : Type} {NumOps : Number num}.
Context {document element : Type} {DomOps : Dom document element}.
Variable JSON_parse : string -> completion (json num).
Variable fetch : string -> FormData -> completion Response.

Local Abbreviation Message := (ChatMessage (num := num)).
Local Abbreviation Store := (State (num := num)).

(** What stays of a message for good: its id, its role and its time. *)
Local Abbreviation heads :=
  (map (fun m : Message => (id m, role m, ts m))).

Ltac fields :=
  cbn [messages input sending attachedImage recording webhookUrl chatId
       setMessages setInput setSending setAttachedImage setRecording].

Lemma resolve_heads (wid c : string) (log : list Message) :
  heads (resolve wid c log) = heads log.
Proof.
  unfold resolve. rewrite map_map. apply map_ext. intros m.
  destruct (String.eqb (id m) wid); reflexivity.
Qed.

Lemma resolve_nth (wid c : string) (log : list Message) (i : nat) (m : Message) :
  nth_error log i = Some m ->
  id m <> wid ->
  nth_error (resolve wid c log) i = Some m.
Proof.
  intros Hn Hm. unfold resolve. rewrite nth_error_map, Hn. cbn.
  now rewrite (proj2 (String.eqb_neq _ _) Hm).
Qed.

(** The state a call of [handleSend] leaves when it has something to
    send, up to its suspension. *)
Lemma handleSend_sent (view : Store) (text : option string) (audio : option File)
  (d : Draws) (st : Store) :
  nothing_to_send view text audio = false ->
  let u := userMsg (draft_body view text) (attachedImage view) audio d in
  exists st1 pr,
    handleSend view text audio d st = Normal (st1, pr)
    /\ input st1 = ""
    /\ attachedImage st1 = None
    /\ recording st1 = recording st
    /\ webhookUrl st1 = webhookUrl st
    /\ chatId st1 = chatId st
    /\ ((webhookUrl view = "" /\ pr = Done /\ sending st1 = false
         /\ messages st1
            = resolve (waitingId d) demo (messages st ++ [u; placeholder d])%list)
        \/ (webhookUrl view <> "" /\ sending st1 = true
            /\ messages st1 = (messages st ++ [u; placeholder d])%list
            /\ exists fd,
                pr = Awaiting (waitingId d) (webhookUrl view) fd
                /\ compose view (draft_body view text) (attachedImage view) audio
                     (metadataTs d) = Normal fd)).
Proof.
  intros Hsend u. unfold handleSend. rewrite Hsend.
  destruct (webhookUrl view) as [ | c r] eqn:Hurl.
  - rewrite (@ChatFacts.compose_throws num NumOps view _ _ _ _ Hurl), ChatFacts.settle_eq.
    cbn [bind]. eexists; eexists. split; [reflexivity | ]. fields.
    repeat split. left. repeat split. cbn [resolution]. now rewrite <- app_assoc.
  - assert (Hne : webhookUrl view <> "") by (rewrite Hurl; discriminate).
    destruct (@ChatFacts.compose_normal num NumOps view (draft_body view text)
                (attachedImage view) audio (metadataTs d) Hne) as [fd Hfd].
    rewrite Hfd. eexists; eexists. split; [reflexivity | ]. fields.
    repeat split. right. rewrite <- Hurl. split; [exact Hne | ].
    split; [reflexivity | ]. split; [now rewrite <- app_assoc | ].
    exists fd. now split.
Qed.

Lemma handleSend_ids (view : Store) (text : option string) (audio : option File)
  (d : Draws) (st st1 : Store) (pr : progress) :
  nothing_to_send view text audio = false ->
  handleSend view text audio d st = Normal (st1, pr) ->
  ids (messages st1) = (ids (messages st) ++ [userId d; waitingId d])%list.
Proof.
  intros Hsend Hrun.
  destruct (@handleSend_sent view text audio d st Hsend)
    as (st1' & pr' & Hrun' & _ & _ & _ & _ & _ & Hcase).
  rewrite Hrun in Hrun'. injection Hrun' as <- <-.
  destruct Hcase as [(_ & _ & _ & ->) | (_ & _ & -> & _)];
    rewrite ?ChatFacts.resolve_ids; unfold ids; now rewrite map_app.
Qed.

(** X7. The Send button is disabled exactly when a submit would be
    ignored: while it is disabled, the form's submit and the Enter key
    change nothing and send nothing; while it is enabled, they do send. *)
Theorem send_button_matches_guard (view : Store) (d : Draws) (st : Store) :
  send_disabled view = nothing_to_send view None None
  /\ (send_disabled view = true -> submit view d st = Normal (st, Ignored))
  /\ (send_disabled view = false ->
      exists st1 pr, submit view d st = Normal (st1, pr) /\ pr <> Ignored).
Proof.
  assert (E : send_disabled view = nothing_to_send view None None).
  { unfold send_disabled, nothing_to_send, draft_body. cbn [present negb].
    now rewrite andb_true_r. }
  split; [exact E | ]. rewrite E. unfold submit. split.
  - intros H. unfold handleSend. now rewrite H.
  - intros H.
    destruct (@handleSend_sent view None None d st H)
      as (st1 & pr & Hrun & _ & _ & _ & _ & _ & [(_ & -> & _) | (_ & _ & _ & fd & -> & _)]);
      exists st1; eexists; (split; [exact Hrun | discriminate]).
Qed.

(** X8. A send that is not ignored clears the draft at once, before any
    reply: the input is empty and no image is attached when [handleSend]
    gives control back, whether the request is awaited or, without a
    webhook URL, already answered by the demo text. The log has the two
    new ids at its end; the recording flag, the URL and the chat id are
    as before. *)
Theorem draft_cleared_on_send (view : Store) (text : option string)
  (audio : option File) (d : Draws) (st : Store) :
  nothing_to_send view text audio = false ->
  exists st1 pr,
    handleSend view text audio d st = Normal (st1, pr)
    /\ pr <> Ignored
    /\ (pr = Done <-> webhookUrl view = "")
    /\ input st1 = ""
    /\ attachedImage st1 = None
    /\ ids (messages st1) = (ids (messages st) ++ [userId d; waitingId d])%list
    /\ sending st1 = negb (String.eqb (webhookUrl view) "")
    /\ recording st1 = recording st
    /\ webhookUrl st1 = webhookUrl st
    /\ chatId st1 = chatId st.
Proof.
  intros Hsend.
  destruct (@handleSend_sent view text audio d st Hsend)
    as (st1 & pr & Hrun & Hi & Ha & Hr & Hw & Hc & Hcase).
  exists st1, pr. split; [exact Hrun | ].
  destruct Hcase as [(Hurl & -> & Hs & Hlog) | (Hurl & Hs & Hlog & fd & -> & _)].
  - rewrite Hlog, Hurl, ChatFacts.resolve_ids. unfold ids. rewrite map_app.
    repeat split; try assumption; try discriminate.
  - rewrite Hlog. unfold ids. rewrite map_app.
    rewrite (proj2 (String.eqb_neq _ _) Hurl).
    repeat split; try assumption; try discriminate; try congruence.
Qed.

(** X9. The log only grows, and only at its end: [handleSend] keeps the
    id, the role and the time of every message, in place, and adds
    nothing when it ignores the call and else a user message followed by
    an assistant message; the resumed call adds nothing, keeps every id,
    role and time, and leaves every message with another id than the
    placeholder's as it is. *)
Theorem log_is_append_only :
  (forall (view : Store) (text : option string) (audio : option File) (d : Draws)
          (st : Store),
      exists st1 pr,
        handleSend view text audio d st = Normal (st1, pr)
        /\ heads (messages st1)
           = (heads (messages st)
              ++ (if nothing_to_send view text audio then []
                  else [(userId d, user, userTs d);
                        (waitingId d, assistant, waitingTs d)]))%list)
  /\ (forall (wid url : string) (fd : FormData) (st : Store),
         exists st',
           handleSend_resume JSON_parse fetch wid url fd st = Normal st'
           /\ heads (messages st') = heads (messages st)
           /\ forall i m,
               nth_error (messages st) i = Some m ->
               id m <> wid ->
               nth_error (messages st') i = Some m).
Proof.
  split.
  - intros view text audio d st.
    destruct (nothing_to_send view text audio) eqn:Hsend.
    + exists st, Ignored. unfold handleSend. rewrite Hsend, app_nil_r. now split.
    + destruct (@handleSend_sent view text audio d st Hsend)
        as (st1 & pr & Hrun & _ & _ & _ & _ & _ & Hcase).
      exists st1, pr. split; [exact Hrun | ].
      destruct Hcase as [(_ & _ & _ & ->) | (_ & _ & -> & _)];
        rewrite ?resolve_heads, map_app; reflexivity.
  - intros wid url fd st. unfold handleSend_resume. rewrite ChatFacts.settle_eq.
    eexists. split; [reflexivity | ]. fields.
    split; [apply resolve_heads | ].
    intros i m. apply resolve_nth.
Qed.

(** X10. Distinct ids stay distinct: when no two messages of the log
    share an id and [genId] returns two new, different ids, no two
    messages share an id after [handleSend], nor after the resumed call,
    which then writes into one message at most. *)
Theorem ids_stay_unique (view : Store) (text : option string) (audio : option File)
  (d : Draws) (st st1 : Store) (pr : progress) :
  NoDup (ids (messages st)) ->
  ~ In (userId d) (ids (messages st)) ->
  ~ In (waitingId d) (ids (messages st)) ->
  userId d <> waitingId d ->
  handleSend view text audio d st = Normal (st1, pr) ->
  NoDup (ids (messages st1))
  /\ forall (wid url : string) (fd : FormData) (st2 st3 : Store),
      NoDup (ids (messages st2)) ->
      handleSend_resume JSON_parse fetch wid url fd st2 = Normal st3 ->
      NoDup (ids (messages st3))
      /\ forall i j m m',
          nth_error (messages st2) i = Some m ->
          nth_error (messages st2) j = Some m' ->
          nth_error (messages st3) i <> Some m ->
          nth_error (messages st3) j <> Some m' ->
          i = j.
Proof.
  intros Hnd Hu Hw Huw Hrun. split.
  - destruct (nothing_to_send view text audio) eqn:Hsend.
    + unfold handleSend in Hrun. rewrite Hsend in Hrun. now injection Hrun as <- _.
    + rewrite (@handleSend_ids view text audio d st st1 pr Hsend Hrun).
      apply NoDup_app; [exact Hnd | | ].
      * repeat constructor; cbn; intuition congruence.
      * intros x Hx [<- | [<- | []]]; contradiction.
  - intros wid url fd st2 st3 Hnd2. unfold handleSend_resume.
    rewrite ChatFacts.settle_eq. intros [= <-]. fields.
    split; [now rewrite ChatFacts.resolve_ids | ].
    intros i j m m' Hi Hj Hci Hcj.
    assert (Ei : id m = wid).
    { destruct (String.eqb (id m) wid) eqn:E; [now apply String.eqb_eq | ].
      apply String.eqb_neq in E. now rewrite (resolve_nth _ _ _ Hi E) in Hci. }
    assert (Ej : id m' = wid).
    { destruct (String.eqb (id m') wid) eqn:E; [now apply String.eqb_eq | ].
      apply String.eqb_neq in E. now rewrite (resolve_nth _ _ _ Hj E) in Hcj. }
    apply (proj1 (NoDup_nth_error (ids (messages st2))) Hnd2).
    + apply nth_error_Some. unfold ids. rewrite nth_error_map, Hi. discriminate.
    + unfold ids. rewrite !nth_error_map, Hi, Hj. cbn. congruence.
Qed.

(** The typed draft plays no part in a call that is given its text and
    is not ignored: it is cleared without having been read. *)
Lemma handleSend_text_given (view : Store) (typed q : string) (audio : option File)
  (d : Draws) (st : Store) :
  nothing_to_send view (Some q) audio = false ->
  handleSend (setInput typed view) (Some q) audio d (setInput typed st)
  = handleSend view (Some q) audio d st.
Proof.
  unfold handleSend, nothing_to_send, draft_body, compose. fields.
  intros ->. reflexivity.
Qed.

Lemma quick_is_trimmed (q : string) : In q DEFAULT_QUICK -> trim q = q /\ q <> "".
Proof.
  intros [<- | [<- | [<- | [<- | [<- | []]]]]]; (split; [reflexivity | discriminate]).
Qed.

(** The parts of a payload. *)
Lemma compose_parts (view : Store) (body : string) (image audio : option File)
  (now : num) (fd : FormData) :
  compose view body image audio now = Normal fd ->
  form_get fd "type" = Some (FormString (msgType image audio))
  /\ form_get fd "text" = Some (FormString body)
  /\ form_get fd "chatId" = Some (FormString (chatId view))
  /\ form_get fd "metadata"
     = Some (FormString (JSON_stringify (metadata now (chatId view))))
  /\ form_get fd "image" = option_map FormFile image
  /\ form_get fd "audio" = option_map FormFile audio.
Proof.
  unfold compose. destruct (negb (truthy (webhookUrl view))); [discriminate | ].
  intros [= <-]. destruct image, audio; repeat split.
Qed.

(** X11. Every quick-reply button sends: its text is the body of the
    message, as it is, together with the image that is attached, if any.
    What the user had typed in the input is not sent and is cleared all
    the same: the result is the one of the same click on an empty
    input. *)
Theorem quick_reply_drops_typed_text (view : Store) (q typed : string) (d : Draws)
  (st : Store) :
  In q DEFAULT_QUICK ->
  handleQuick (setInput typed view) q d (setInput typed st)
  = handleQuick (setInput "" view) q d (setInput "" st)
  /\ exists st1 pr,
      handleQuick (setInput typed view) q d (setInput typed st) = Normal (st1, pr)
      /\ pr <> Ignored
      /\ input st1 = ""
      /\ attachedImage st1 = None
      /\ (webhookUrl view <> "" ->
          exists fd,
            pr = Awaiting (waitingId d) (webhookUrl view) fd
            /\ form_get fd "text" = Some (FormString q)
            /\ form_get fd "type"
               = Some (FormString (if present (attachedImage view) then "image"
                                   else "text"))
            /\ form_get fd "image" = option_map FormFile (attachedImage view)).
Proof.
  intros Hq. destruct (@quick_is_trimmed q Hq) as [Htrim Hne].
  assert (Hsend : nothing_to_send view (Some q) None = false).
  { unfold nothing_to_send, draft_body. rewrite Htrim.
    destruct q; [congruence | reflexivity]. }
  unfold handleQuick. rewrite !(@handleSend_text_given view _ q None d st Hsend).
  split; [reflexivity | ].
  destruct (@handleSend_sent view (Some q) None d st Hsend)
    as (st1 & pr & Hrun & Hi & Ha & _ & _ & _ & Hcase).
  exists st1, pr. unfold draft_body in Hcase. rewrite Htrim in Hcase.
  split; [exact Hrun | ].
  destruct Hcase as [(Hurl & -> & _) | (_ & _ & _ & fd & -> & Hfd)].
  - repeat split; try assumption; try discriminate. intros H. contradiction.
  - repeat split; try assumption; try discriminate. intros _.
    destruct (@compose_parts _ _ _ _ _ _ Hfd) as (Ht & Hb & _ & _ & Him & _).
    exists fd. repeat split; try assumption.
    rewrite Ht. now destruct (attachedImage view).
Qed.

(** X12. The [sending] flag is no count of the turns in flight: when two
    requests overlap, the first of them to settle turns it off, while the
    turn of the other one is still in the log with its placeholder
    pending. *)
Theorem sending_off_while_turn_in_flight (d : Draws) (u : Message)
  (wid url : string) (fd : FormData) (st : Store) :
  in_flight d u (messages st) ->
  wid <> waitingId d ->
  id u <> wid ->
  exists st',
    handleSend_resume JSON_parse fetch wid url fd st = Normal st'
    /\ sending st' = false
    /\ in_flight d u (messages st')
    /\ content (placeholder d) = PENDING.
Proof.
  intros Hin Hw Hu.
  destruct (@ChatFacts.handleSend_resume_normal num NumOps document element DomOps
              JSON_parse fetch wid url fd st) as [st' Hrun].
  exists st'. split; [exact Hrun | ]. split.
  - unfold handleSend_resume in Hrun. rewrite ChatFacts.settle_eq in Hrun.
    now injection Hrun as <-.
  - split; [ | reflexivity].
    exact (@ChatFacts.in_flight_after_resume num NumOps document element DomOps
             JSON_parse fetch d u wid url fd st st' Hw Hu Hin Hrun).
Qed.

End Facts.

Section Metadata.
Context {num : Type} {NumOps : Number num} {Laws : JsonParse.NumberLaws num}.

(** X13. The [metadata] field of a payload is a JSON text that
    [JSON.parse] reads back as the object with the clock reading, the
    client tag and the chat id, whatever characters the stored chat id is
    made of; its chat id is the one of the [chatId] field. *)
Theorem metadata_reads_back (view : State (num := num)) (body : string)
  (image audio : option File) (now : num) (fd : FormData) :
  compose view body image audio now = Normal fd ->
  exists text,
    form_get fd "metadata" = Some (FormString text)
    /\ JsonParse.JSON_parse text
       = Normal (JObj [("ts", JNum now); ("client", JStr "web");
                       ("chatId", JStr (chatId view))])
    /\ form_get fd "chatId" = Some (FormString (chatId view)).
Proof.
  intros Hfd. destruct (@compose_parts _ _ _ _ _ _ _ _ Hfd) as (_ & _ & Hc & Hm & _).
  eexists. split; [exact Hm | ]. split; [ | exact Hc].
  apply JsonFacts.JSON_parse_stringify. reflexivity.
Qed.

End Metadata.

End TurnFacts.

(** ** Controls *)

Module ControlFacts.
Import JsString Json Decoder Chat Controls.

Local Abbreviation words cls :=
  (map (fun c : option string => nullish_or c "") (filter Boolean cls)).

Lemma join_cons (sep p : string) (rest : list string) :
  join sep (p :: rest)
  = match rest with
    | [] => p
    | _ => p ++ sep ++ join sep rest
    end.
Proof. destruct rest; reflexivity. Qed.

Lemma join_app (sep : string) (a b : list string) :
  join sep (a ++ b)
  = match a, b with
    | [], _ => join sep b
    | _, [] => join sep a
    | _, _ => join sep a ++ sep ++ join sep b
    end.
Proof.
  induction a as [ | p a IH]; [reflexivity | ].
  destruct b as [ | q b]; [now rewrite app_nil_r | ].
  change ((p :: a) ++ q :: b)%list with (p :: (a ++ q :: b))%list.
  rewrite join_cons, IH. destruct a as [ | p' a].
  - reflexivity.
  - cbn [app]. rewrite (join_cons sep p (p' :: a)).
    now rewrite !StringFacts.append_assoc.
Qed.

Lemma words_app (a b : list (option string)) : words (a ++ b) = (words a ++ words b)%list.
Proof. now rewrite filter_app, map_app. Qed.

Lemma words_truthy (cls : list (option string)) :
  Forall (fun w => truthy w = true) (words cls).
Proof.
  induction cls as [ | [s | ] cls IH]; cbn; [constructor | | exact IH].
  destruct (truthy s) eqn:E; [ | exact IH]. constructor; [exact E | exact IH].
Qed.

Lemma join_truthy (sep p : string) (rest : list string) :
  truthy p = true -> truthy (join sep (p :: rest)) = true.
Proof.
  rewrite join_cons. destruct p as [ | c p]; [discriminate | ].
  now destruct rest.
Qed.

(** The class list is empty exactly when every argument is dropped. *)
Lemma classNames_empty (cls : list (option string)) :
  classNames cls = "" <-> words cls = [].
Proof.
  unfold classNames. split; [ | now intros ->].
  pose proof (words_truthy cls) as H.
  destruct (words cls) as [ | p rest]; [reflexivity | ].
  inversion H as [ | ? ? Hp _]; subst.
  pose proof (@join_truthy " " p rest Hp) as Hj. intros E. rewrite E in Hj. discriminate.
Qed.

Lemma classNames_one (cls : list (option string)) :
  words [Some (classNames cls)] = match words cls with [] => [] | _ => [classNames cls] end.
Proof.
  cbn [filter Boolean map].
  pose proof (classNames_empty cls) as E.
  destruct (words cls) as [ | p rest] eqn:W.
  - now rewrite (proj2 E eq_refl).
  - destruct (classNames cls) as [ | c r]; [ | reflexivity].
    discriminate (proj1 E eq_refl).
Qed.

(** X16. [classNames] joins the arguments that are non-empty strings by
    single spaces: a non-empty string alone is the class list; the class
    list of two lists of arguments is the class lists of the two with
    one space between them, and no space when one of them is empty; an
    argument that is [false], [null], [undefined] or the empty string
    leaves no trace, wherever it stands; the result is empty exactly
    when every argument is such; and class lists nest, the class list of
    two class lists being the class list of all their arguments. *)
Theorem classNames_flattens (a b : list (option string)) :
  (forall p, p <> "" -> classNames [Some p] = p)
  /\ classNames (a ++ b)
     = match classNames a, classNames b with
       | EmptyString, _ => classNames b
       | _, EmptyString => classNames a
       | _, _ => classNames a ++ " " ++ classNames b
       end
  /\ (forall c, Boolean c = false -> classNames (a ++ c :: b) = classNames (a ++ b))
  /\ (classNames a = "" <-> forall c, In c a -> Boolean c = false)
  /\ classNames [Some (classNames a); Some (classNames b)] = classNames (a ++ b).
Proof.
  split; [ | split; [ | split; [ | split]]].
  - intros [ | c p] Hp; [congruence | reflexivity].
  - pose proof (classNames_empty a) as Ea. pose proof (classNames_empty b) as Eb.
    unfold classNames in *. rewrite words_app, join_app.
    destruct (words a) as [ | p ra].
    + reflexivity.
    + destruct (join " " (p :: ra)) as [ | c r] eqn:Ja;
        [discriminate (proj1 Ea eq_refl) | ].
      destruct (words b) as [ | q rb]; [reflexivity | ].
      destruct (join " " (q :: rb)) as [ | c' r'] eqn:Jb;
        [discriminate (proj1 Eb eq_refl) | reflexivity].
  - intros c Hc. unfold classNames. rewrite !filter_app. cbn [filter]. now rewrite Hc.
  - rewrite classNames_empty. split.
    + intros H c Hin. destruct (Boolean c) eqn:E; [ | reflexivity].
      assert (Hin' : In (nullish_or c "") (words a)).
      { apply (in_map (fun c0 : option string => nullish_or c0 "")).
        apply filter_In. now split. }
      rewrite H in Hin'. destruct Hin'.
    + intros H. induction a as [ | c a IH]; [reflexivity | ].
      cbn [filter]. rewrite (H c (or_introl eq_refl)). apply IH.
      intros c' Hc'. apply H. now right.
  - change [Some (classNames a); Some (classNames b)]
      with ([Some (classNames a)] ++ [Some (classNames b)])%list.
    unfold classNames at 1 4. rewrite !words_app, !classNames_one, !join_app.
    unfold classNames.
    destruct (words a) as [ | p ra]; destruct (words b) as [ | q rb]; reflexivity.
Qed.

Section Facts.
Context {num : Type} {NumOps : Number num}.

Local Abbreviation Store := (State (num := num)).

(** X14. Opening the settings on a page without a webhook URL proposes
    the localhost URL, and Save then stores it: the page, whose sends
    were answered by the demo text without any request, now posts them to
    localhost. On a page with a URL the dialog proposes that URL, and
    Save stores it trimmed. *)
Theorem save_without_edit_configures_localhost (view : Store) (dlg : Dialog)
  (text : option string) (audio : option File) (d : Draws) (st : Store) :
  nothing_to_send view text audio = false ->
  let saved := fst (save (open_settings (webhookUrl view) dlg)) in
  settingsOpen (snd (save (open_settings (webhookUrl view) dlg))) = false
  /\ (webhookUrl view <> "" -> saved = trim (webhookUrl view))
  /\ (webhookUrl view = "" ->
      saved = LOCAL_WEBHOOK
      /\ (exists st1, handleSend view text audio d st = Normal (st1, Done))
      /\ exists st1 fd,
          handleSend (with_webhook saved view) text audio d st
          = Normal (st1, Awaiting (waitingId d) LOCAL_WEBHOOK fd)).
Proof.
  intros Hsend saved. split; [reflexivity | ]. split.
  - intros Hurl. subst saved. unfold save, open_settings, or_else. cbn [fst draftWebhook].
    destruct (webhookUrl view); [congruence | reflexivity].
  - intros Hurl. subst saved. rewrite Hurl.
    split; [reflexivity | ]. split.
    + destruct (@TurnFacts.handleSend_sent num NumOps view text audio d st Hsend)
        as (st1 & pr & Hrun & _ & _ & _ & _ & _ & [(_ & -> & _) | (Hne & _)]);
        [now exists st1 | contradiction].
    + change (fst (save (open_settings "" dlg))) with LOCAL_WEBHOOK.
      assert (Hsend' : nothing_to_send (with_webhook LOCAL_WEBHOOK view) text audio = false)
        by exact Hsend.
      destruct (@TurnFacts.handleSend_sent num NumOps (with_webhook LOCAL_WEBHOOK view)
                  text audio d st Hsend')
        as (st1 & pr & Hrun & _ & _ & _ & _ & _ & [(Hne & _) | (_ & _ & _ & fd & -> & _)]);
        [discriminate Hne | ].
      now exists st1, fd.
Qed.

(** X15. An image chosen in the file dialog is attached: the first of
    the chosen files. A send from a render that shows it, of whatever
    text, with or without a recording and on whatever state the page is
    in by then, sends it: the payload has the file as its image part;
    its type is [image], or [audio] when a recording goes out with it;
    the user message is tagged; and the attachment is gone when
    [handleSend] gives control back. A send from a render without an
    attachment, as the one of a recording started before the file was
    chosen, has no image part and not the type [image], and clears the
    attachment all the same: the file is never sent. A dialog closed
    without a file leaves the attachment as it was. *)
Theorem attach_then_send (view : Store) (file : File) (others : list File)
  (text : option string) (audio : option File) (d : Draws) (st earlier : Store) :
  let v1 := handleFileSelect (Some (file :: others)) view in
  attachedImage v1 = Some file
  /\ (webhookUrl view <> "" ->
      exists st1 fd,
        handleSend v1 text audio d st
        = Normal (st1, Awaiting (waitingId d) (webhookUrl view) fd)
        /\ form_get fd "type"
           = Some (FormString (if present audio then "audio" else "image"))
        /\ form_get fd "image" = Some (FormFile file)
        /\ form_get fd "audio" = option_map FormFile audio
        /\ form_get fd "text" = Some (FormString (draft_body view text))
        /\ messages st1
           = (messages st
              ++ [userMsg (draft_body view text) (Some file) audio d; placeholder d])%list
        /\ content (userMsg (draft_body view text) (Some file) audio d)
           = draft_body view text ++ " [Image Attached]"
             ++ (if present audio then " [Audio Attached]" else "")
        /\ attachedImage st1 = None
        /\ send_disabled st1 = true)
  /\ (attachedImage earlier = None ->
      webhookUrl earlier <> "" ->
      nothing_to_send earlier text audio = false ->
      exists st1 fd,
        handleSend earlier text audio d v1
        = Normal (st1, Awaiting (waitingId d) (webhookUrl earlier) fd)
        /\ form_get fd "image" = None
        /\ form_get fd "type"
           = Some (FormString (if present audio then "audio" else "text"))
        /\ attachedImage st1 = None)
  /\ handleFileSelect None view = view
  /\ handleFileSelect (Some []) view = view.
Proof.
  intros v1. split; [reflexivity | ]. split; [ | split; [ | split; reflexivity]].
  - intros Hurl.
    assert (Hsend : nothing_to_send v1 text audio = false).
    { unfold nothing_to_send. cbn. now rewrite andb_false_r. }
    destruct (@TurnFacts.handleSend_sent num NumOps v1 text audio d st Hsend)
      as (st1 & pr & Hrun & Hi & Ha & _ & _ & _
          & [(Hno & _) | (_ & _ & Hlog & fd & -> & Hfd)]);
      [contradiction | ].
    exists st1, fd. split; [exact Hrun | ].
    destruct (@TurnFacts.compose_parts num NumOps _ _ _ _ _ _ Hfd)
      as (Ht & Hb & _ & _ & Him & Hau).
    split; [rewrite Ht; now destruct audio | ].
    split; [exact Him | ]. split; [exact Hau | ]. split; [exact Hb | ].
    split; [exact Hlog | ].
    split; [reflexivity | ].
    split; [exact Ha | ].
    unfold send_disabled. now rewrite Hi, Ha.
  - intros Hnone Hurl Hsend.
    destruct (@TurnFacts.handleSend_sent num NumOps earlier text audio d v1 Hsend)
      as (st1 & pr & Hrun & _ & Ha & _ & _ & _
          & [(Hno & _) | (_ & _ & _ & fd & -> & Hfd)]);
      [contradiction | ].
    exists st1, fd. split; [exact Hrun | ].
    destruct (@TurnFacts.compose_parts num NumOps _ _ _ _ _ _ Hfd)
      as (Ht & _ & _ & _ & Him & _).
    rewrite Hnone in Ht, Him.
    split; [exact Him | ]. split; [rewrite Ht; now destruct audio | exact Ha].
Qed.

End Facts.

End ControlFacts.

(** ** Recording: a whole cycle, stale renders *)

Module VoiceFacts.
Import JsString Json Decoder Chat Recorder.

Section Facts.
Context {num : Type} {NumOps : Number num}.

Local Abbreviation Store := (State (num := num)).
Local Abbreviation Rec := (MediaRecorder (num := num)).
Local Abbreviation Doc := (Page (num := num)).

Ltac page := cbn [app mediaRecorder objects sends].

Lemma update_app_r {A : Type} (f : A -> A) (l more : list A) (i : nat) :
  update (length l + i) f (l ++ more) = (l ++ update i f more)%list.
Proof. induction l as [ | x l IH]; [reflexivity | ]. cbn. now rewrite IH. Qed.

Lemma update_last {A : Type} (f : A -> A) (l : list A) (x : A) :
  update (length l) f (l ++ [x]) = (l ++ [f x])%list.
Proof.
  pose proof (update_app_r f l [x] 0) as H. now rewrite Nat.add_0_r in H.
Qed.

Lemma nth_error_last {A : Type} (l : list A) (x : A) :
  nth_error (l ++ [x]) (length l) = Some x.
Proof. rewrite nth_error_app2, Nat.sub_diag by lia. reflexivity. Qed.

Lemma update_twice {A : Type} (f g : A -> A) (l : list A) (i : nat) :
  update i f (update i g l) = update i (fun x => f (g x)) l.
Proof.
  revert i. induction l as [ | x l IH]; intros [ | i]; cbn; try reflexivity.
  now rewrite IH.
Qed.

(** The task that follows a stop: the recorder at [h] takes the data, its
    [onstop] sends the file from the render the recorder closed over, and
    its tracks are stopped. *)
Lemma stop_task_eq (p : Doc) (h : nat) (r : Rec) (gathered : string) (d : Draws) :
  nth_error (objects p) h = Some r ->
  let data := {| file_name := ""; file_type := "audio/webm"; file_bytes := gathered |} in
  let file :=
    new_File (new_Blob (chunks r ++ [data])%list "audio/webm")
      "voice-recording.webm" "audio/webm" in
  exists st2 pr,
    handleSend (closure r) (Some "") (Some file) d (app p) = Normal (st2, pr)
    /\ stop_task h gathered d p
       = {| app := st2; mediaRecorder := mediaRecorder p;
            objects := update h (fun x => release (ondataavailable data x)) (objects p);
            sends := (sends p ++ [pr])%list |}.
Proof.
  intros Hr data file.
  destruct (@ChatFacts.handleSend_normal num NumOps (closure r) (Some "") (Some file) d
              (app p)) as (st2 & pr & Hrun).
  exists st2, pr. split; [exact Hrun | ].
  unfold stop_task, onstop. page. fold data.
  rewrite (RecorderFacts.update_hit (ondataavailable data) _ _ Hr).
  cbn [chunks closure ondataavailable]. fold file.
  unfold call_handleSend. page. rewrite Hrun. page.
  now rewrite update_twice.
Qed.

(** X17. A whole recording: from the idle page, with the microphone
    granted, [toggleRecording] creates a recorder on the stream, without
    chunks, and the page records; the next [toggleRecording] stops that
    recorder and the page is idle again; the task that follows sends one
    voice message, a file named [voice-recording.webm] of type
    [audio/webm] with the gathered data as its bytes, and ends every
    track. The recorders the page had before are untouched. *)
Theorem recording_cycle (p : Doc) (sd sd' : StartDraws) (tracks : MediaStream)
  (gathered : string) (d : Draws) :
  recording (app p) = false ->
  getUserMedia sd = Normal tracks ->
  new_MediaRecorder sd = Normal tt ->
  let h := length (objects p) in
  let file := {| file_name := "voice-recording.webm"; file_type := "audio/webm";
                 file_bytes := gathered |} in
  exists p1 p2,
    toggleRecording p sd p = Normal p1
    /\ recording (app p1) = true
    /\ mediaRecorder p1 = Some h
    /\ objects p1
       = (objects p
          ++ [{| state := capturing; stream := tracks; chunks := [];
                 closure := app p |}])%list
    /\ toggleRecording p1 sd' p1 = Normal p2
    /\ recording (app p2) = false
    /\ exists st3 pr,
        handleSend (app p) (Some "") (Some file) d (app p2) = Normal (st3, pr)
        /\ pr <> Ignored
        /\ stop_task h gathered d p2
           = {| app := st3; mediaRecorder := Some h;
                objects :=
                  (objects p
                   ++ [{| state := inactive; stream := stop_tracks tracks;
                          chunks := [{| file_name := ""; file_type := "audio/webm";
                                        file_bytes := gathered |}];
                          closure := app p |}])%list;
                sends := (sends p ++ [pr])%list |}
        /\ recording st3 = false
        /\ all_ended (stop_tracks tracks) = true.
Proof.
  intros Hidle Hget Hnew h file.
  eexists; eexists. unfold toggleRecording at 1. rewrite Hidle, Hget, Hnew.
  cbn [bind try_catch]. split; [reflexivity | ]. page.
  split; [reflexivity | ]. split; [reflexivity | ]. split; [reflexivity | ].
  unfold toggleRecording. cbn [app mediaRecorder objects sends recording setRecording].
  split; [reflexivity | ]. page. split; [reflexivity | ].
  subst h. rewrite update_last. unfold recorder_stop. cbn [state stream chunks closure].
  match goal with
  | |- context [stop_task _ gathered d ?q] =>
      destruct (@stop_task_eq q (length (objects p)) _ gathered d (nth_error_last _ _))
        as (st3 & pr & Hrun & Hstop)
  end.
  cbn [chunks closure List.app Recorder.app] in Hrun.
  change (new_File _ _ _) with file in Hrun.
  exists st3, pr. split; [exact Hrun | ].
  destruct (@RecorderFacts.handleSend_with_audio num NumOps (app p) (Some "") file d
              (setRecording false (setRecording true (app p))))
    as (st3' & pr' & Hrun' & Hpr & Hrec & _).
  rewrite Hrun in Hrun'. injection Hrun' as <- <-.
  split; [exact Hpr | ]. split.
  - rewrite Hstop. page. rewrite update_last. reflexivity.
  - split; [rewrite Hrec; reflexivity | apply RecorderFacts.stop_tracks_all_ended].
Qed.

(** X18. The voice message is sent from the render in which the
    recording started, on the page as it is when the recording stops: the
    URL, the chat id and the image of the payload are the ones of that
    render, so an image attached meanwhile is not sent; and the input and
    the attachment of the page are cleared all the same, so the image and
    whatever was typed meanwhile are lost. *)
Theorem voice_message_uses_render_of_start (p : Doc) (h : nat) (r : Rec)
  (gathered : string) (d : Draws) :
  nth_error (objects p) h = Some r ->
  webhookUrl (closure r) <> "" ->
  let file :=
    new_File (new_Blob (chunks r ++ [{| file_name := ""; file_type := "audio/webm";
                                        file_bytes := gathered |}])%list "audio/webm")
      "voice-recording.webm" "audio/webm" in
  let p2 := stop_task h gathered d p in
  input (app p2) = ""
  /\ attachedImage (app p2) = None
  /\ messages (app p2)
     = (messages (app p)
        ++ [userMsg "" (attachedImage (closure r)) (Some file) d; placeholder d])%list
  /\ exists fd,
      sends p2 = (sends p ++ [Awaiting (waitingId d) (webhookUrl (closure r)) fd])%list
      /\ form_get fd "type" = Some (FormString "audio")
      /\ form_get fd "text" = Some (FormString "")
      /\ form_get fd "chatId" = Some (FormString (chatId (closure r)))
      /\ form_get fd "image" = option_map FormFile (attachedImage (closure r))
      /\ form_get fd "audio" = Some (FormFile file).
Proof.
  intros Hr Hurl file p2.
  destruct (@stop_task_eq p h r gathered d Hr) as (st2 & pr & Hrun & Hstop).
  fold file in Hrun. subst p2. rewrite Hstop. page.
  destruct (@TurnFacts.handleSend_sent num NumOps (closure r) (Some "") (Some file) d
              (app p) (RecorderFacts.audio_is_sent _ _ _))
    as (st2' & pr' & Hrun' & Hi & Ha & _ & _ & _ & Hcase).
  rewrite Hrun in Hrun'. injection Hrun' as <- <-.
  destruct Hcase as [(Hno & _) | (_ & _ & Hlog & fd & -> & Hfd)]; [contradiction | ].
  change (draft_body (closure r) (Some "")) with "" in Hlog, Hfd.
  split; [exact Hi | ]. split; [exact Ha | ]. split; [exact Hlog | ].
  destruct (@TurnFacts.compose_parts num NumOps _ _ _ _ _ _ Hfd)
    as (Ht & Hb & Hc & _ & Him & Hau).
  exists fd. repeat split; assumption.
Qed.

(** X19. The recording flag is read from the render: two starts from the
    same idle render, the second before the page has rendered the first,
    create two recorders, and the page keeps the second only. The stop
    that follows stops the second; the first stays as it was created,
    capturing, its stream untouched, and the page has no reference to
    it. *)
Theorem second_start_orphans_first_recorder (p : Doc) (sd1 sd2 sd3 : StartDraws)
  (t1 t2 : MediaStream) (gathered : string) (d : Draws) :
  recording (app p) = false ->
  getUserMedia sd1 = Normal t1 ->
  new_MediaRecorder sd1 = Normal tt ->
  getUserMedia sd2 = Normal t2 ->
  new_MediaRecorder sd2 = Normal tt ->
  let h := length (objects p) in
  let first := {| state := capturing; stream := t1; chunks := []; closure := app p |} in
  exists p1 p2 p3,
    toggleRecording p sd1 p = Normal p1
    /\ toggleRecording p sd2 p1 = Normal p2
    /\ mediaRecorder p2 = Some (S h)
    /\ toggleRecording p2 sd3 p2 = Normal p3
    /\ let p4 := stop_task (S h) gathered d p3 in
       recording (app p4) = false
       /\ mediaRecorder p4 = Some (S h)
       /\ nth_error (objects p4) h = Some first
       /\ exists second,
           nth_error (objects p4) (S h) = Some second
           /\ state second = inactive
           /\ stream second = stop_tracks t2
           /\ length (objects p4) = S (S h).
Proof.
  intros Hidle Hg1 Hn1 Hg2 Hn2 h first.
  assert (Hlen : length (objects p ++ [first]) = S h)
    by (rewrite length_app; cbn; subst h; lia).
  rewrite <- Hlen. clear Hlen. subst h first.
  eexists; eexists; eexists.
  unfold toggleRecording at 1. rewrite Hidle, Hg1, Hn1. cbn [bind try_catch].
  split; [reflexivity | ].
  unfold toggleRecording at 1. rewrite Hidle, Hg2, Hn2. cbn [bind try_catch]. page.
  split; [reflexivity | ]. split; [reflexivity | ].
  unfold toggleRecording. cbn [Recorder.app mediaRecorder objects sends recording setRecording].
  split; [reflexivity | ]. page.
  rewrite update_last. unfold recorder_stop. cbn [state stream chunks closure].
  match goal with
  | |- context [stop_task _ gathered d ?q] =>
      destruct (@stop_task_eq q _ _ gathered d (nth_error_last _ _))
        as (st3 & pr & Hrun & Hstop)
  end.
  rewrite Hstop. page.
  cbn [chunks closure Recorder.app List.app] in Hrun.
  match type of Hrun with
  | handleSend _ _ (Some ?file) _ ?st = _ =>
      destruct (@RecorderFacts.handleSend_with_audio num NumOps (app p) (Some "") file d st)
        as (st3' & pr' & Hrun' & _ & Hrec & _)
  end.
  rewrite Hrun in Hrun'. injection Hrun' as <- <-.
  split; [rewrite Hrec; reflexivity | ]. split; [reflexivity | ].
  rewrite update_last. split.
  - rewrite nth_error_app1 by (rewrite length_app; cbn; lia).
    apply nth_error_last.
  - eexists. split; [apply nth_error_last | ].
    cbn [state stream release ondataavailable]. repeat split.
    rewrite !length_app. cbn. lia.
Qed.

End Facts.

End VoiceFacts.

(** ** Stored settings *)

Module StorageFacts.
Import JsString Persist.

Lemma getItem_setItem (s : Storage) (key v : string) :
  getItem (setItem s key v) key = Some v.
Proof.
  induction s as [ | [k w] s IH]; cbn.
  - now rewrite String.eqb_refl.
  - destruct (String.eqb k key) eqn:E; cbn; rewrite E; [reflexivity | exact IH].
Qed.

Lemma getItem_setItem_other (s : Storage) (key v k : string) :
  k <> key -> getItem (setItem s key v) k = getItem s k.
Proof.
  intros Hk. induction s as [ | [k0 w] s IH]; cbn.
  - destruct (String.eqb key k) eqn:E; [ | reflexivity].
    apply String.eqb_eq in E. congruence.
  - destruct (String.eqb k0 key) eqn:E; cbn.
    + apply String.eqb_eq in E. subst k0.
      destruct (String.eqb key k) eqn:E'; [ | reflexivity].
      apply String.eqb_eq in E'. congruence.
    + destruct (String.eqb k0 k); [reflexivity | exact IH].
Qed.

Lemma deps_same (key dep : string) : deps_changed (Some (key, dep)) key dep = false.
Proof. cbn. now rewrite !String.eqb_refl. Qed.

Lemma deps_differ (key dep dep' : string) :
  dep <> dep' -> deps_changed (Some (key, dep)) key dep' = true.
Proof.
  intros H. cbn. rewrite String.eqb_refl. cbn.
  destruct (String.eqb dep dep') eqn:E; [ | reflexivity].
  apply String.eqb_eq in E. congruence.
Qed.

Lemma nonempty_eqb (v : string) : v <> "" -> String.eqb v "" = false.
Proof. intros H. destruct v; [congruence | reflexivity]. Qed.

(** A render of a settled hook changes nothing. *)
Lemma settled_render (key initial : string) (h : Hook) (s : Storage) :
  settled key initial h s -> useLocalStorage key initial h s = (h, s).
Proof.
  intros (Hr & Hw & _). unfold useLocalStorage.
  rewrite Hr, Hw, !deps_same. destruct h as [v r w]; cbn in *. congruence.
Qed.

(** The render that follows a [setValue] on a settled hook writes the
    new value, unless it is the empty string. *)
Lemma settled_set (key initial x : string) (h : Hook) (s : Storage) :
  settled key initial h s ->
  exists s1,
    useLocalStorage key initial (setValue x h) s
    = ({| value := x; read_deps := Some (key, initial); write_deps := Some (key, x) |}, s1)
    /\ getItem s1 key = (if String.eqb x "" then getItem s key else Some x)
    /\ (forall k, k <> key -> getItem s1 k = getItem s k).
Proof.
  intros (Hr & Hw & Hs). unfold useLocalStorage.
  cbn [setValue value read_deps write_deps]. rewrite Hr, Hw, deps_same.
  destruct (String.eqb x "") eqn:Ex.
  - apply String.eqb_eq in Ex. subst x. cbn [negb].
    eexists. split; [reflexivity | ].
    destruct (deps_changed _ _ _); split; reflexivity.
  - cbn [negb]. destruct (String.eqb (value h) x) eqn:Ev.
    + apply String.eqb_eq in Ev. rewrite <- Ev, deps_same.
      eexists. split; [reflexivity | ]. split; [ | reflexivity].
      apply Hs. intros E. rewrite E in Ev. subst x. discriminate Ex.
    + rewrite deps_differ by (intros E; rewrite E, String.eqb_refl in Ev; discriminate).
      eexists. split; [reflexivity | ]. split.
      * apply getItem_setItem.
      * intros k Hk. now apply getItem_setItem_other.
Qed.

(** The first two renders of a hook whose second argument is the same at
    every render: the stored value, or the initial one, is loaded and
    written back. *)
Lemma mount_two (key initial : string) (s : Storage) :
  let start := nullish_or (getItem s key) initial in
  exists s2,
    renders key (fun _ => initial) 2 s
    = ({| value := start; read_deps := Some (key, initial);
          write_deps := Some (key, start) |}, s2)
    /\ getItem s2 key = (if String.eqb start "" then getItem s key else Some start)
    /\ (forall k, k <> key -> getItem s2 k = getItem s k).
Proof.
  intros start.
  change (renders key (fun _ => initial) 2 s)
    with (useLocalStorage key initial
            {| value := start; read_deps := Some (key, initial);
               write_deps := Some (key, "") |} s).
  unfold useLocalStorage. cbn [value read_deps write_deps]. rewrite deps_same.
  destruct (String.eqb start "") eqn:E.
  - apply String.eqb_eq in E. rewrite E. rewrite deps_same.
    eexists. split; [reflexivity | ]. split; reflexivity.
  - rewrite deps_differ by (intros H; rewrite <- H in E; discriminate E).
    cbn [negb]. eexists. split; [reflexivity | ]. split.
    + apply getItem_setItem.
    + intros k Hk. now apply getItem_setItem_other.
Qed.

Lemma renders_settled (key initial : string) (h : Hook) (s0 s : Storage) (m n : nat) :
  renders key (fun _ => initial) m s0 = (h, s) ->
  settled key initial h s ->
  renders key (fun _ => initial) (n + m) s0 = (h, s).
Proof.
  intros Hm Hs. induction n as [ | n IH]; [exact Hm | ].
  cbn [Nat.add renders]. rewrite IH. now apply settled_render.
Qed.

(** From the second render on the hook is settled on the loaded value. *)
Lemma renders_load (key initial : string) (s : Storage) (n : nat) :
  let start := nullish_or (getItem s key) initial in
  exists h s',
    renders key (fun _ => initial) (n + 2) s = (h, s')
    /\ value h = start
    /\ getItem s' key = (if String.eqb start "" then getItem s key else Some start)
    /\ (forall k, k <> key -> getItem s' k = getItem s k)
    /\ settled key initial h s'.
Proof.
  intros start. destruct (@mount_two key initial s) as (s2 & H2 & Hkey & Hother).
  fold start in H2, Hkey.
  assert (Hs : settled key initial
                 {| value := start; read_deps := Some (key, initial);
                    write_deps := Some (key, start) |} s2).
  { repeat split. cbn [value]. intros Hne. rewrite Hkey.
    now rewrite (@nonempty_eqb _ Hne). }
  eexists; exists s2. split; [exact (@renders_settled key initial _ s s2 2 n H2 Hs) | ].
  repeat split; try assumption; apply Hs.
Qed.

(** X20. With the same second argument at every render, as for the webhook
    URL: the first render returns the empty string whatever is stored;
    from the third render on, the hook returns the stored value, or the
    initial one when nothing is stored, and does not change again; the
    storage then holds that value under the key unless it is the empty
    string, and no other key is touched. *)
Theorem mount_loads_stored_value (key initial : string) (s : Storage) (n : nat) :
  value (fst (renders key (fun _ => initial) 0 s)) = ""
  /\ exists h s',
      renders key (fun _ => initial) (n + 2) s = (h, s')
      /\ value h = nullish_or (getItem s key) initial
      /\ getItem s' key
         = (if String.eqb (value h) "" then getItem s key else Some (value h))
      /\ (forall k, k <> key -> getItem s' k = getItem s k)
      /\ useLocalStorage key initial h s' = (h, s').
Proof.
  split; [reflexivity | ].
  destruct (@renders_load key initial s n) as (h & s' & Hrun & Hv & Hkey & Hother & Hs).
  exists h, s'. rewrite Hv. repeat split; try assumption.
  now apply settled_render.
Qed.

(** X21. On a settled hook, [setValue(x)] with a non-empty [x] is written
    to the storage by the render that follows, and a page loaded
    afterwards starts from [x]. The empty string is never written: after
    [setValue("")] the storage is as before, and a page loaded afterwards
    starts from what was stored before, or from the initial value. *)
Theorem saved_value_survives_reload (key initial x : string) (h : Hook) (s : Storage)
  (n : nat) :
  settled key initial h s ->
  exists h1 s1 h2 s2,
    useLocalStorage key initial (setValue x h) s = (h1, s1)
    /\ value h1 = x
    /\ settled key initial h1 s1
    /\ getItem s1 key = (if String.eqb x "" then getItem s key else Some x)
    /\ renders key (fun _ => initial) (n + 2) s1 = (h2, s2)
    /\ value h2 = (if String.eqb x "" then nullish_or (getItem s key) initial else x).
Proof.
  intros Hs. destruct (@settled_set key initial x h s Hs) as (s1 & Hrun & Hkey & _).
  destruct (@renders_load key initial s1 n) as (h2 & s2 & Hre & Hv & _).
  eexists; exists s1, h2, s2.
  split; [exact Hrun | ]. split; [reflexivity | ].
  split.
  { repeat split. cbn [value]. intros Hne. rewrite Hkey. now rewrite (@nonempty_eqb _ Hne). }
  split; [exact Hkey | ]. split; [exact Hre | ].
  rewrite Hv, Hkey. destruct (String.eqb x ""); reflexivity.
Qed.

(** The hook after the first [n + 2] renders of a first visit, when the
    second argument is a fresh id at every render. *)
Lemma first_visit_renders (key : string) (genId : nat -> string) (s : Storage) :
  getItem s key = None ->
  genId 0 <> "" ->
  genId 1 <> "" ->
  genId 0 <> genId 1 ->
  (forall i, genId i <> genId (S i)) ->
  forall n, exists s',
    renders key genId (S (S n)) s
    = ({| value := genId (if Nat.even n then 1 else 0);
          read_deps := Some (key, genId (S n));
          write_deps := Some (key, genId (if Nat.even n then 0 else 1)) |}, s')
    /\ getItem s' key = Some (genId (if Nat.even n then 0 else 1)).
Proof.
  intros Hnone H0 H1 H01 Hnext n. induction n as [ | n (s' & Hrun & Hkey)].
  - change (renders key genId 2 s)
      with (useLocalStorage key (genId 1)
              {| value := nullish_or (getItem s key) (genId 0);
                 read_deps := Some (key, genId 0);
                 write_deps := Some (key, "") |} s).
    rewrite Hnone. cbn [nullish_or Nat.even].
    unfold useLocalStorage. cbn [value read_deps write_deps setValue].
    rewrite (@deps_differ key _ _ H01), Hnone.
    rewrite (@deps_differ key "" (genId 0)) by congruence.
    rewrite (@nonempty_eqb _ H0). cbn [negb nullish_or].
    eexists. split; [reflexivity | apply getItem_setItem].
  - change (renders key genId (S (S (S n))) s)
      with (let (h, s0) := renders key genId (S (S n)) s in
            useLocalStorage key (genId (S (S n))) h s0).
    rewrite Hrun.
    unfold useLocalStorage. cbn [value read_deps write_deps setValue].
    rewrite (@deps_differ key _ _ (Hnext (S n))), Hkey. cbn [nullish_or].
    rewrite Nat.even_succ, <- Nat.negb_even.
    destruct (Nat.even n); cbn [negb].
    + rewrite (@deps_differ key _ _ H01), (@nonempty_eqb _ H1). cbn [negb].
      eexists. split; [reflexivity | apply getItem_setItem].
    + rewrite (@deps_differ key (genId 1) (genId 0)) by congruence.
      rewrite (@nonempty_eqb _ H0). cbn [negb].
      eexists. split; [reflexivity | apply getItem_setItem].
Qed.

(** X22. The chat id is read through [useLocalStorage] with [genId()] as
    second argument, a new id at every render. On a first visit, with no
    id stored, the hook never settles: from the second render on, the id
    it returns and the id in the storage are the ids of the first two
    renders, and they change places at every render. *)
Theorem chat_id_flips_on_first_visit (key : string) (genId : nat -> string)
  (s : Storage) (n : nat) :
  getItem s key = None ->
  (forall i, genId i <> "") ->
  (forall i j, i <> j -> genId i <> genId j) ->
  exists h s' h' s'',
    renders key genId (S (S n)) s = (h, s')
    /\ renders key genId (S (S (S n))) s = (h', s'')
    /\ value h = genId (if Nat.even n then 1 else 0)
    /\ getItem s' key = Some (genId (if Nat.even n then 0 else 1))
    /\ value h' = genId (if Nat.even n then 0 else 1)
    /\ getItem s'' key = Some (genId (if Nat.even n then 1 else 0))
    /\ value h' <> value h.
Proof.
  intros Hnone Hne Hinj.
  assert (H01 : genId 0 <> genId 1) by (apply Hinj; discriminate).
  assert (Hnext : forall i, genId i <> genId (S i)) by (intros i; apply Hinj; lia).
  destruct (@first_visit_renders key genId s Hnone (Hne 0) (Hne 1) H01 Hnext n)
    as (s' & Hrun & Hkey).
  destruct (@first_visit_renders key genId s Hnone (Hne 0) (Hne 1) H01 Hnext (S n))
    as (s'' & Hrun' & Hkey').
  rewrite Nat.even_succ, <- Nat.negb_even in Hrun', Hkey'.
  eexists; exists s'; eexists; exists s''.
  split; [exact Hrun | ]. split; [exact Hrun' | ].
  cbn [value]. destruct (Nat.even n); cbn [negb] in *; repeat split; congruence.
Qed.

(** X23. Once an id is stored, the hook returns that id from the second
    render on and keeps it in the storage, whatever ids later renders
    pass as second argument. *)
Theorem chat_id_kept_once_stored (key : string) (genId : nat -> string)
  (s : Storage) (c : string) (n : nat) :
  getItem s key = Some c ->
  c <> "" ->
  exists h s',
    renders key genId (S n) s = (h, s')
    /\ value h = c
    /\ getItem s' key = Some c.
Proof.
  intros Hc Hne. induction n as [ | n (h & s' & Hrun & Hv & Hkey)].
  - cbn [renders]. unfold useLocalStorage.
    cbn [mounted value read_deps write_deps deps_changed setValue String.eqb negb].
    rewrite Hc. eexists; eexists. split; [reflexivity | ]. now split.
  - change (renders key genId (S (S n)) s)
      with (let (h0, s0) := renders key genId (S n) s in
            useLocalStorage key (genId (S n)) h0 s0).
    rewrite Hrun. unfold useLocalStorage. rewrite Hv, (@nonempty_eqb _ Hne). cbn [negb].
    eexists; eexists. split; [reflexivity | ]. cbn [value]. split.
    + destruct (deps_changed (read_deps h) key (genId (S n)));
        cbn [setValue value]; [ | exact Hv].
      now rewrite Hkey.
    + destruct (deps_changed (write_deps h) key c);
        [apply getItem_setItem | exact Hkey].
Qed.

End StorageFacts.

(** ** The further properties on sample pages and visits *)

Module Scenarios.
Import JsString Json JsonParse Decoder Chat Recorder Persist Controls Platform Samples
  Scenes.

Local Abbreviation decode := (parseWebhookText (num := Z) (DomOps := FlatDom) JSON_parse).
Local Abbreviation resume fetch :=
  (handleSend_resume (num := Z) (DomOps := FlatDom) JSON_parse fetch).

(** A reply with quotes, a line break and a backslash comes back as it
    was, indented by two spaces or compact, from a string and from
    objects that have other fields next to it. *)
Lemma serialized_reply_witness :
  decode (SerializeJSONProperty "  " "" (JStr tricky_reply)) None = Normal tricky_reply
  /\ decode (SerializeJSONProperty "" "" (JObj (with_status tricky_reply))) None
     = Normal tricky_reply
  /\ decode (SerializeJSONProperty "  " "" (JObj (with_data tricky_reply))) None
     = Normal tricky_reply
  /\ decode (SerializeJSONProperty "  " "" (JObj (with_choices tricky_reply))) None
     = Normal tricky_reply.
Proof.
  split; [ | split; [ | split]].
  - exact (proj1 (@ReplyFacts.serialized_reply_is_shown_verbatim Z ZNumber
                    PlatformFacts.ZNumberLaws Document Element FlatDom tricky_reply "  "
                    (with_status tricky_reply) None eq_refl eq_refl)).
  - exact (proj1 (proj2 (@ReplyFacts.serialized_reply_is_shown_verbatim Z ZNumber
                    PlatformFacts.ZNumberLaws Document Element FlatDom tricky_reply ""
                    (with_status tricky_reply) None eq_refl eq_refl)) eq_refl).
  - exact (proj1 (proj2 (proj2 (@ReplyFacts.serialized_reply_is_shown_verbatim Z ZNumber
                    PlatformFacts.ZNumberLaws Document Element FlatDom tricky_reply "  "
                    (with_data tricky_reply) None eq_refl eq_refl))) eq_refl eq_refl).
  - exact (proj2 (proj2 (proj2 (@ReplyFacts.serialized_reply_is_shown_verbatim Z ZNumber
                    PlatformFacts.ZNumberLaws Document Element FlatDom tricky_reply "  "
                    (with_choices tricky_reply) None eq_refl eq_refl)))
             eq_refl eq_refl eq_refl).
Defined.

(** An array whose only element has a reply is dumped, not searched, and
    read back as it was; an array with an infinity and a negative zero is
    read back with [null] and [0]. *)
Lemma array_is_dumped_witness :
  (exists dump,
      decode array_reply None = Normal (String LF dump)
      /\ dump = SerializeJSONProperty "  " "" (JArr [JObj [("reply", JStr "hi")]])
      /\ JSON_parse (trim (String LF dump)) = Normal (JArr [JObj [("reply", JStr "hi")]]))
  /\ exists dump,
      decode overflowing_list None = Normal (String LF dump)
      /\ dump = "[" ++ nl ++ "  null," ++ nl ++ "  0" ++ nl ++ "]"
      /\ JSON_parse (trim (String LF dump)) = Normal (JArr [JNull; JNum 0%Z]).
Proof.
  split.
  - destruct (@ReplyFacts.array_is_dumped Z ZNumber PlatformFacts.ZNumberLaws
                Document Element FlatDom array_reply None [JObj [("reply", JStr "hi")]]
                eq_refl eq_refl) as (dump & Hrun & Hdump & Hback & _).
    exists dump. split; [exact Hrun | ]. split; [exact Hdump | exact Hback].
  - destruct (@ReplyFacts.array_is_dumped Z ZNumber PlatformFacts.ZNumberLaws
                Document Element FlatDom overflowing_list None
                [JSpecial PosInfinity; JSpecial NegZero]
                eq_refl eq_refl) as (dump & Hrun & Hdump & Hback & _).
    exists dump. split; [exact Hrun | ]. split; [exact Hdump | exact Hback].
Defined.

(** Plain text keeps its blanks; a body of blanks is shown as blanks. *)
Lemma plain_text_witness :
  decode "  Yes, on floor 2. " (Some "text/plain") = Normal "  Yes, on floor 2. "
  /\ decode "   " None = Normal "   ".
Proof.
  split.
  - exact (proj1 (@ReplyFacts.plain_text_is_shown_as_it_came Z ZNumber Document Element
                    FlatDom JSON_parse "  Yes, on floor 2. " (Some "text/plain")
                    (or_introl eq_refl) (or_introl eq_refl))).
  - refine (proj2 (@ReplyFacts.plain_text_is_shown_as_it_came Z ZNumber Document Element
                     FlatDom JSON_parse "   " None
                     (or_introl eq_refl) (or_introl eq_refl)) eq_refl _).
    discriminate.
Defined.


(** A send of a typed draft clears the input at once. *)
Lemma draft_cleared_witness :
  nothing_to_send typing None None = false
  /\ exists st1 pr,
      handleSend typing None None draws1 typing = Normal (st1, pr)
      /\ input st1 = ""
      /\ ids (messages st1) = ["m0"; "u1"; "w1"].
Proof.
  split; [reflexivity | ].
  destruct (@TurnFacts.draft_cleared_on_send Z ZNumber typing None None draws1 typing
              eq_refl)
    as (st1 & pr & Hrun & _ & _ & Hi & _ & Hids & _).
  now exists st1, pr.
Defined.

Lemma one_id : NoDup (ids (messages ready)).
Proof. repeat constructor. intros []. Qed.

Lemma fresh_u1 : ~ In (userId draws1) (ids (messages ready)).
Proof. cbn. intuition discriminate. Qed.

Lemma fresh_w1_too : ~ In (waitingId draws1) (ids (messages ready)).
Proof. cbn. intuition discriminate. Qed.

Lemma u1_w1_differ : userId draws1 <> waitingId draws1.
Proof. discriminate. Qed.

(** The ids of the first turn are new, and the log keeps its ids apart. *)
Lemma ids_stay_unique_witness :
  NoDup (ids (messages pending1))
  /\ forall st3,
      resume offline "w1" hook form1 pending1 = Normal st3 ->
      NoDup (ids (messages st3)).
Proof.
  destruct (@TurnFacts.ids_stay_unique Z ZNumber Document Element FlatDom JSON_parse offline
              ready (Some ask1) None draws1 ready pending1 (Awaiting "w1" hook form1)
              one_id fresh_u1 fresh_w1_too u1_w1_differ eq_refl) as [Hnd Hresume].
  split; [exact Hnd | ].
  intros st3 Hrun. exact (proj1 (Hresume "w1" hook form1 pending1 st3 Hnd Hrun)).
Defined.

Lemma gym_is_quick : In "Do you have a gym?" DEFAULT_QUICK.
Proof. cbn. tauto. Qed.

(** A quick reply clicked over a typed draft: the draft is cleared, the
    quick text is sent. *)
Lemma quick_reply_witness :
  exists st1 fd,
    handleQuick typing "Do you have a gym?" draws1 typing
    = Normal (st1, Awaiting "w1" hook fd)
    /\ input st1 = ""
    /\ form_get fd "text" = Some (FormString "Do you have a gym?").
Proof.
  destruct (@TurnFacts.quick_reply_drops_typed_text Z ZNumber ready
              "Do you have a gym?" "  Do you have a pool?  " draws1 ready gym_is_quick)
    as (_ & st1 & pr & Hrun & _ & Hi & _ & Hfd).
  destruct (Hfd Examples.hook_is_set) as (fd & -> & Ht & _).
  now exists st1, fd.
Defined.

Lemma second_in_flight :
  in_flight draws2 (userMsg ask2 None None draws2) (messages pending2).
Proof.
  exists [greeting; userMsg ask1 None None draws1; placeholder draws1], [].
  split; [reflexivity | ]. split; cbn; intuition discriminate.
Qed.

Lemma w1_is_not_w2 : "w1" <> waitingId draws2.
Proof. discriminate. Qed.

Lemma u2_is_not_w1 : id (userMsg ask2 None None draws2) <> "w1".
Proof. discriminate. Qed.

(** With two turns in flight, the first reply turns the flag off while
    the second placeholder is pending. *)
Lemma sending_off_witness :
  exists st',
    resume concierge "w1" hook form1 pending2 = Normal st'
    /\ sending st' = false
    /\ map content (messages st')
       = [content greeting; ask1; "Room booked"; ask2; PENDING].
Proof.
  destruct (@TurnFacts.sending_off_while_turn_in_flight Z ZNumber Document Element FlatDom
              JSON_parse concierge draws2 (userMsg ask2 None None draws2)
              "w1" hook form1 pending2 second_in_flight w1_is_not_w2 u2_is_not_w1)
    as (st' & Hrun & Hs & _).
  exists st'. split; [exact Hrun | ]. split; [exact Hs | ].
  injection Hrun as <-. reflexivity.
Defined.

(** The metadata of the first payload reads back. *)
Lemma metadata_witness :
  exists text,
    form_get form1 "metadata" = Some (FormString text)
    /\ JSON_parse text
       = Normal (JObj [("ts", JNum 1700000000102%Z); ("client", JStr "web");
                       ("chatId", JStr "chat-1")]).
Proof.
  destruct (@TurnFacts.metadata_reads_back Z ZNumber PlatformFacts.ZNumberLaws ready ask1
              None None 1700000000102%Z form1 eq_refl) as (text & Hm & Hp & _).
  now exists text.
Defined.

(** On the page without a URL: Settings, then Save. *)
Lemma save_without_edit_witness :
  fst (save (open_settings (webhookUrl unconfigured) closed_dialog)) = LOCAL_WEBHOOK
  /\ exists st1 fd,
      handleSend (with_webhook LOCAL_WEBHOOK unconfigured) (Some ask1) None draws1
        unconfigured
      = Normal (st1, Awaiting "w1" LOCAL_WEBHOOK fd).
Proof.
  destruct (proj2 (proj2 (@ControlFacts.save_without_edit_configures_localhost Z ZNumber
                            unconfigured closed_dialog (Some ask1) None draws1
                            unconfigured eq_refl)) eq_refl)
    as (Hsaved & _ & Hsend).
  split; [exact Hsaved | exact Hsend].
Defined.

(** A photo chosen and sent without a text; and a voice message from the
    render before the photo was chosen, which takes the photo off the
    page and does not send it. *)
Lemma attach_then_send_witness :
  (exists st1 fd,
      handleSend (handleFileSelect (Some [photo]) ready) None None draws1
        (handleFileSelect (Some [photo]) ready)
      = Normal (st1, Awaiting "w1" hook fd)
      /\ form_get fd "type" = Some (FormString "image")
      /\ form_get fd "image" = Some (FormFile photo)
      /\ map content (messages st1) = [content greeting; " [Image Attached]"; PENDING]
      /\ attachedImage st1 = None)
  /\ exists st1 fd,
      handleSend ready (Some "") (Some voice) draws1 (handleFileSelect (Some [photo]) ready)
      = Normal (st1, Awaiting "w1" hook fd)
      /\ form_get fd "type" = Some (FormString "audio")
      /\ form_get fd "image" = None
      /\ attachedImage st1 = None.
Proof.
  split.
  - destruct (proj1 (proj2 (@ControlFacts.attach_then_send Z ZNumber ready photo [] None
                              None draws1 (handleFileSelect (Some [photo]) ready) ready))
                Examples.hook_is_set)
      as (st1 & fd & Hrun & Ht & Him & _ & _ & Hlog & _ & Ha & _).
    exists st1, fd. split; [exact Hrun | ]. split; [exact Ht | ]. split; [exact Him | ].
    split; [rewrite Hlog; reflexivity | exact Ha].
  - destruct (proj1 (proj2 (proj2 (@ControlFacts.attach_then_send Z ZNumber ready photo []
                                     (Some "") (Some voice) draws1 ready ready)))
                eq_refl Examples.hook_is_set eq_refl)
      as (st1 & fd & Hrun & Him & Ht & Ha).
    exists st1, fd. split; [exact Hrun | ]. split; [exact Ht | ]. split; [exact Him | ].
    exact Ha.
Defined.

(** A recording of three bytes on the idle page. *)
Lemma recording_cycle_witness :
  exists p1 p2,
    toggleRecording idle_page granted idle_page = Normal p1
    /\ Chat.recording (app p1) = true
    /\ toggleRecording p1 denied p1 = Normal p2
    /\ Chat.recording (app p2) = false
    /\ map stream (objects (stop_task 0 "abc" draws1 p2)) = [[ended]]
    /\ exists fd,
        sends (stop_task 0 "abc" draws1 p2) = [Awaiting "w1" hook fd]
        /\ form_get fd "audio"
           = Some (FormFile {| file_name := "voice-recording.webm";
                               file_type := "audio/webm"; file_bytes := "abc" |}).
Proof.
  destruct (@VoiceFacts.recording_cycle Z ZNumber idle_page granted denied [live] "abc"
              draws1 eq_refl eq_refl eq_refl)
    as (p1 & p2 & Hstart & Hrec & _ & _ & Hstop & Hidle & _).
  exists p1, p2. split; [exact Hstart | ]. split; [exact Hrec | ].
  split; [exact Hstop | ]. split; [exact Hidle | ].
  injection Hstart as <-. injection Hstop as <-.
  split; [reflexivity | ]. eexists. split; reflexivity.
Defined.

(** A photo attached and a text typed while the recorder runs: neither
    is sent, both are cleared. *)
Lemma voice_message_witness :
  let busy :=
    {| app := setInput "and a cot" (setAttachedImage (Some photo) (app recording_page));
       mediaRecorder := mediaRecorder recording_page;
       objects := objects recording_page;
       sends := sends recording_page |} in
  input (app (stop_task 0 "abc" draws1 busy)) = ""
  /\ attachedImage (app (stop_task 0 "abc" draws1 busy)) = None
  /\ exists fd,
      sends (stop_task 0 "abc" draws1 busy) = [Awaiting "w1" hook fd]
      /\ form_get fd "image" = None
      /\ form_get fd "text" = Some (FormString "").
Proof.
  intros busy.
  destruct (@VoiceFacts.voice_message_uses_render_of_start Z ZNumber busy 0
              {| state := capturing; stream := [live]; chunks := []; closure := ready |}
              "abc" draws1 eq_refl Examples.hook_is_set)
    as (Hi & Ha & _ & fd & Hs & _ & Ht & _ & Him & _).
  split; [exact Hi | ]. split; [exact Ha | ].
  exists fd. split; [exact Hs | ]. split; [exact Him | exact Ht].
Defined.

(** Two starts from the idle render, then a stop: the first recorder
    still captures, on a live track. *)
Lemma second_start_witness :
  exists p1 p2 p3,
    toggleRecording idle_page granted idle_page = Normal p1
    /\ toggleRecording idle_page granted p1 = Normal p2
    /\ toggleRecording p2 denied p2 = Normal p3
    /\ map state (objects (stop_task 1 "" draws1 p3)) = [capturing; inactive]
    /\ map stream (objects (stop_task 1 "" draws1 p3)) = [[live]; [ended]]
    /\ mediaRecorder (stop_task 1 "" draws1 p3) = Some 1.
Proof.
  destruct (@VoiceFacts.second_start_orphans_first_recorder Z ZNumber idle_page
              granted granted denied [live] [live] "" draws1
              eq_refl eq_refl eq_refl eq_refl eq_refl)
    as (p1 & p2 & p3 & H1 & H2 & _ & H3 & _).
  exists p1, p2, p3. split; [exact H1 | ]. split; [exact H2 | ]. split; [exact H3 | ].
  injection H1 as <-. injection H2 as <-. injection H3 as <-.
  repeat split.
Defined.

Lemma loaded_is_settled : settled WEBHOOK_KEY PRODUCTION_WEBHOOK loaded later_visit.
Proof. repeat split. Qed.

(** The URL cleared in the settings is back after a reload; a new URL
    stays. *)
Lemma saved_value_witness :
  (exists h1 s1 h2 s2,
      useLocalStorage WEBHOOK_KEY PRODUCTION_WEBHOOK (setValue "" loaded) later_visit
      = (h1, s1)
      /\ value h1 = ""
      /\ renders WEBHOOK_KEY (fun _ => PRODUCTION_WEBHOOK) 2 s1 = (h2, s2)
      /\ value h2 = hook)
  /\ exists h1 s1 h2 s2,
      useLocalStorage WEBHOOK_KEY PRODUCTION_WEBHOOK (setValue LOCAL_WEBHOOK loaded)
        later_visit
      = (h1, s1)
      /\ value h1 = LOCAL_WEBHOOK
      /\ renders WEBHOOK_KEY (fun _ => PRODUCTION_WEBHOOK) 2 s1 = (h2, s2)
      /\ value h2 = LOCAL_WEBHOOK.
Proof.
  split.
  - destruct (@StorageFacts.saved_value_survives_reload WEBHOOK_KEY PRODUCTION_WEBHOOK
                "" loaded later_visit 0 loaded_is_settled)
      as (h1 & s1 & h2 & s2 & Hrun & Hv & _ & _ & Hre & Hv2).
    now exists h1, s1, h2, s2.
  - destruct (@StorageFacts.saved_value_survives_reload WEBHOOK_KEY PRODUCTION_WEBHOOK
                LOCAL_WEBHOOK loaded later_visit 0 loaded_is_settled)
      as (h1 & s1 & h2 & s2 & Hrun & Hv & _ & _ & Hre & Hv2).
    now exists h1, s1, h2, s2.
Defined.

Lemma ticks_length (n : nat) : String.length (ticks n) = n.
Proof. induction n as [ | n IH]; [reflexivity | cbn; now rewrite IH]. Qed.

Lemma render_id_nonempty (i : nat) : render_id i <> "".
Proof. discriminate. Qed.

Lemma render_id_fresh (i j : nat) : i <> j -> render_id i <> render_id j.
Proof.
  intros Hij E. apply Hij. unfold render_id in E. cbn in E.
  injection E as E. now rewrite <- (ticks_length i), <- (ticks_length j), E.
Qed.

(** The first visit: after four renders the hook holds the id of the
    second render and the storage the id of the first; after five, the
    other way round. *)
Lemma chat_id_flips_witness :
  exists h s' h' s'',
    renders CHAT_KEY render_id 4 first_visit = (h, s')
    /\ renders CHAT_KEY render_id 5 first_visit = (h', s'')
    /\ value h = "id-i"
    /\ getItem s' CHAT_KEY = Some "id-"
    /\ value h' = "id-"
    /\ getItem s'' CHAT_KEY = Some "id-i".
Proof.
  destruct (@StorageFacts.chat_id_flips_on_first_visit CHAT_KEY render_id first_visit 2
              eq_refl render_id_nonempty render_id_fresh)
    as (h & s' & h' & s'' & H1 & H2 & Hv & Hs & Hv' & Hs' & _).
  now exists h, s', h', s''.
Defined.

Lemma chat_1_nonempty : "chat-1" <> "".
Proof. discriminate. Qed.

(** A later visit: the stored chat id is the one of every render. *)
Lemma chat_id_kept_witness :
  exists h s',
    renders CHAT_KEY render_id 4 later_visit = (h, s')
    /\ value h = "chat-1"
    /\ getItem s' CHAT_KEY = Some "chat-1".
Proof.
  exact (@StorageFacts.chat_id_kept_once_stored CHAT_KEY render_id later_visit "chat-1" 3
           eq_refl chat_1_nonempty).
Defined.

End Scenarios.
